(** * NDArray: shape, strides and the host/texture storage of a tensor

    A shallow embedding of [src/math/ndarray.ts].  Tensors ([NDArray] and its
    rank-specialised subclasses [Scalar], [Array1D], [Array2D]) and their
    storage records ([NDArrayData]) are JavaScript objects with identity: a
    storage record is shared by every tensor that [reshape] derives from it,
    and [reshape] may return [this].  Both kinds of object therefore live in
    an explicit store, and every method is a computation over that store
    that either returns or throws, keeping the store it reached when it
    throws. *)

From Stdlib Require Import ZArith List Lia Bool.
From stdpp Require Import base option list gmap.

Local Open Scope Z_scope.

(** ** Numbers, typed arrays, element-type tags *)

(** The integer-valued JavaScript numbers.  Shapes, sizes, strides and
    indices are such numbers; buffer elements are restricted to them. *)
Definition number := Z.

(** Object identity of tensors and of storage records. *)
Definition ref := positive.

(** An opaque texture handle. *)
Definition WebGLTexture := nat.

(** [keyof DataType]. *)
Inductive DataTypeKey := K_float32 | K_int32 | K_bool.

#[global] Instance DataTypeKey_eq_dec : EqDecision DataTypeKey.
Proof. solve_decision. Defined.

(** What an expression of this module evaluates to where an argument or an
    array slot may be missing: [undefined], [NaN], or a number.  Such a value
    is also what indexes a buffer. *)
Inductive JSValue := Undefined | NaN | Num (n : number).

(** [a[i]] on a plain array: a missing slot reads as [undefined]. *)
Definition js_of (x : option number) : JSValue :=
  match x with Some n => Num n | None => Undefined end.

(** [+] and [*]: an operand that is no number makes the result [NaN]. *)
Definition js_add (x y : JSValue) : JSValue :=
  match x, y with Num a, Num b => Num (a + b) | _, _ => NaN end.
Definition js_mul (x y : JSValue) : JSValue :=
  match x, y with Num a, Num b => Num (a * b) | _, _ => NaN end.

(** The three element types of [TypedArray = Float32Array|Int32Array|Uint8Array]. *)
Inductive ElementType := Float32 | Int32 | Uint8.

(** A typed array: its element type and its elements, and what its
    property [undefined] reads as.  A typed array is an extensible object:
    a key that is no number in canonical form (the key [undefined]) names
    an ordinary property of the object, which a write creates and which
    keeps what was written as it is.  That property is [Undefined] until it
    has been written. *)
Record TypedArray := mkTypedArray {
  ta_type : ElementType;
  ta_elems : list number;
  ta_undefined : JSValue;
}.

(** [new Float32Array(elems)] and its like: a fresh array has no property
    of its own. *)
Definition Float32Array (elems : list number) : TypedArray :=
  mkTypedArray Float32 elems Undefined.
Definition Int32Array (elems : list number) : TypedArray :=
  mkTypedArray Int32 elems Undefined.
Definition Uint8Array (elems : list number) : TypedArray :=
  mkTypedArray Uint8 elems Undefined.

(** The buffer type that [DataType] associates with a tag. *)
Definition DataType (k : DataTypeKey) : list number -> TypedArray :=
  match k with
  | K_float32 => Float32Array
  | K_int32 => Int32Array
  | K_bool => Uint8Array
  end.

Definition ta_length (a : TypedArray) : Z := Z.of_nat (length (ta_elems a)).

Definition is_Float32Array (a : TypedArray) : bool :=
  match ta_type a with Float32 => true | _ => false end.

(** [a[i]].  A numeric key reads an element, and [undefined] outside the
    array; so does [NaN], which is a number in canonical form.  The key
    [undefined] reads the property of that name. *)
Definition ta_get (a : TypedArray) (i : JSValue) : JSValue :=
  match i with
  | Num i => if 0 <=? i then js_of (ta_elems a !! Z.to_nat i) else Undefined
  | NaN => Undefined
  | Undefined => ta_undefined a
  end.

(** ToInt32 and ToUint8 on integers. *)
Definition toInt32 (v : number) : number := (v + 2 ^ 31) mod 2 ^ 32 - 2 ^ 31.
Definition toUint8 (v : number) : number := v mod 2 ^ 8.

(** ** Errors and outcomes *)

(** What a call can throw.  The assertions of the source throw a plain
    [Error] with a message; each is named after the error the specification
    gives it (§7) where it names one, with the message in the comment. *)
Inductive Error :=
| NoStorageError            (* 'Either `values` or `texture` must be defined' *)
| IncompleteStorageError    (* '`textureShape` must be defined when `texture` is defined' *)
| ShapeMismatchError        (* 'Constructing ndarray of shape (..) should match the length of values (..)' *)
| InvalidShapeError         (* 'new shape and old shape must have the same number of elements.' *)
| InvalidRankError          (* 'Shape should be of length 2' *)
| NotSingletonError         (* 'The array must have only 1 element.' *)
| UninitializedBackendError (* 'GPU not intialized.' *)
| PoolExhaustedError        (* raised by the texture manager *)
| TypeError                 (* a property read or an index on null or undefined *)
| RangeError.               (* a typed array of negative length *)

Inductive outcome (A : Type) :=
| Ret (a : A)
| Throw (e : Error).
Arguments Ret {A} a.
Arguments Throw {A} e.

(** ** util *)

(** Modelled from the spec: [util.assert] is not under src/; a failed
    sanity check is raised synchronously at the call (§7). *)
Definition assert_ (cond : bool) (e : Error) : outcome unit :=
  if cond then Ret tt else Throw e.

(** Modelled from the spec: [util.sizeFromShape] is not under src/;
    the product of all dimensions, [1] for the shape [[]] (§4.1). *)
Definition sizeFromShape (shape : list Z) : Z := foldr Z.mul 1 shape.

(** Modelled from the spec: [util.arraysEqual] is not under src/;
    element-wise equality of two sequences (§4.3, [reshape] and [equals]).
    Comparing the elements of [null] is a [TypeError]. *)
Definition arraysEqual (n1 n2 : option (list Z)) : outcome bool :=
  match n1, n2 with
  | Some l1, Some l2 => Ret (bool_decide (l1 = l2))
  | _, _ => Throw TypeError
  end.

Definition is_implicit (d : Z) : bool := d =? -1.

(** Modelled from the spec: [util.inferFromImplicitShape] is not under src/;
    it resolves at most one [-1] dimension as [size / product(other dims)]
    and fails with InvalidShapeError when more than one dimension is
    implicit (§4.3).  Dimensions are integers (§3), so the quotient is the
    integer quotient. *)
Definition inferFromImplicitShape (shape : list Z) (size : Z) : outcome (list Z) :=
  let others := filter (fun d => is_implicit d = false) shape in
  if (1 <? length (filter (fun d => is_implicit d = true) shape))%nat
  then Throw InvalidShapeError
  else
    let inferred := size / sizeFromShape others in
    Ret (map (fun d => if is_implicit d then inferred else d) shape).

(** ** Strides (the tail of the constructor) *)

(** [for (let i = n - 1; i >= 0; --i)
       strides[i] = strides[i + 1] * shape[i + 1];] *)
Fixpoint strides_loop (shape : list Z) (n : nat) (strides : list Z) : list Z :=
  match n with
  | O => strides
  | S i =>
      strides_loop shape i
        (<[i := (strides !!! S i) * (shape !!! S i)]> strides)
  end.

(** [new Array(dim - 1)] has only holes; the placeholder [0] stands for a
    hole, and every slot is written before it is read. *)
Definition computeStrides (shape : list Z) : list Z :=
  let dim := length shape in
  if (dim <? 2)%nat then []
  else
    let strides := replicate (dim - 1) 0 in
    let strides := <[(dim - 2)%nat := shape !!! (dim - 1)%nat]> strides in
    strides_loop shape (dim - 2) strides.

(** ** The accelerator context and the texture manager *)

(** Modelled from the spec: [GPGPUContext], [TextureManager] and
    [webgl_util.getTextureShapeFromLogicalShape] are not under src/; §6 gives
    the contract this module consumes.  [gpu] is the joint state of the two
    collaborators.  Arguments have the types of the expressions the source
    passes: the texture handed to [downloadMatrixFromTexture] and
    [releaseTexture], the layout handed to [releaseTexture], the host buffer
    handed to [uploadMatrixToTexture] and the logical shape handed to the
    layout negotiation may all be [null].  Acquiring may fail
    (PoolExhaustedError); a transfer or a negotiation may reject its
    arguments; releasing and reading leave no failure to report. *)
Class Backend := {
  gpu : Type;
  getTextureShapeFromLogicalShape :
    gpu -> option (list Z) -> option (Z * Z) -> outcome (Z * Z);
  acquireTexture : gpu -> Z * Z -> outcome (WebGLTexture * gpu);
  releaseTexture : gpu -> option WebGLTexture -> option (Z * Z) -> gpu;
  uploadMatrixToTexture :
    gpu -> WebGLTexture -> Z -> Z -> option TypedArray -> outcome gpu;
  downloadMatrixFromTexture :
    gpu -> option WebGLTexture -> Z -> Z -> outcome TypedArray;
}.

(** A backend whose downloads return what was uploaded, for running the
    module: textures are numbered in the order they are acquired, the layout
    is the preferred one or else one row of [size] columns, and a transfer
    from or to [null] is a [TypeError]. *)
Record MockGPU := mkMockGPU {
  mock_textures : gmap WebGLTexture TypedArray;
  mock_next : WebGLTexture;
  mock_released : list (WebGLTexture * option (Z * Z));
}.

Definition mock_layout (g : MockGPU) (shape : option (list Z))
    (preferred : option (Z * Z)) : outcome (Z * Z) :=
  match shape with
  | Some s => Ret (default (1, sizeFromShape s) preferred)
  | None => Throw TypeError
  end.

Definition mock_acquire (g : MockGPU) (rc : Z * Z) : outcome (WebGLTexture * MockGPU) :=
  Ret (mock_next g,
       mkMockGPU (mock_textures g) (S (mock_next g)) (mock_released g)).

Definition mock_release (g : MockGPU) (t : option WebGLTexture)
    (rc : option (Z * Z)) : MockGPU :=
  match t with
  | Some t => mkMockGPU (mock_textures g) (mock_next g) ((t, rc) :: mock_released g)
  | None => g
  end.

Definition mock_upload (g : MockGPU) (t : WebGLTexture) (rows columns : Z)
    (matrix : option TypedArray) : outcome MockGPU :=
  match matrix with
  | Some a => Ret (mkMockGPU (<[t := a]> (mock_textures g)) (mock_next g) (mock_released g))
  | None => Throw TypeError
  end.

Definition mock_download (g : MockGPU) (t : option WebGLTexture)
    (rows columns : Z) : outcome TypedArray :=
  match t with
  | Some t =>
      match mock_textures g !! t with
      | Some a => Ret a
      | None => Throw TypeError
      end
  | None => Throw TypeError
  end.

Definition MockBackend : Backend :=
  {| gpu := MockGPU;
     getTextureShapeFromLogicalShape := mock_layout;
     acquireTexture := mock_acquire;
     releaseTexture := mock_release;
     uploadMatrixToTexture := mock_upload;
     downloadMatrixFromTexture := mock_download |}.

Definition mock_gpu0 : MockGPU := mkMockGPU ∅ 0%nat [].

(** Rounding an integer to 24 significant bits, ties to even: what
    [Math.fround] does to an integer below the overflow threshold. *)
Definition fround_int (z : number) : number :=
  let a := Z.abs z in
  if a <? 2 ^ 24 then z
  else
    let e := Z.log2 a - 23 in
    let q := a / 2 ^ e in
    let r := a mod 2 ^ e in
    let up := (2 ^ (e - 1) <? r) || ((r =? 2 ^ (e - 1)) && Z.odd q) in
    Z.sgn z * (if up then q + 1 else q) * 2 ^ e.

(** ** Objects and the store *)

(** [NDArrayData]: every field is optional. *)
Record NDArrayData := mkData {
  values : option TypedArray;
  texture : option WebGLTexture;
  textureShapeRC : option (Z * Z);
}.

Definition set_values (v : option TypedArray) (d : NDArrayData) : NDArrayData :=
  mkData v (texture d) (textureShapeRC d).
Definition set_texture (t : option WebGLTexture) (d : NDArrayData) : NDArrayData :=
  mkData (values d) t (textureShapeRC d).
Definition set_textureShapeRC (rc : option (Z * Z)) (d : NDArrayData) : NDArrayData :=
  mkData (values d) (texture d) rc.

(** The class an object was constructed as; it selects the overriding
    [get], [set], [locToIndex] and [indexToLoc]. *)
Inductive ClassTag := C_NDArray | C_Scalar | C_Array1D | C_Array2D.

(** The fields of a tensor object.  [shape] is [null] once disposed;
    [dtype] is [undefined] when the optional argument was left out;
    [stride0] exists on an [Array2D] only. *)
Record NDArray := mkNDArray {
  cls : ClassTag;
  shape : option (list Z);
  size : Z;
  strides : list Z;
  data : ref;
  dtype : option DataTypeKey;
  stride0 : option Z;
}.

Definition set_shape (s : option (list Z)) (o : NDArray) : NDArray :=
  mkNDArray (cls o) s (size o) (strides o) (data o) (dtype o) (stride0 o).
Definition set_stride0 (s : option Z) (o : NDArray) : NDArray :=
  mkNDArray (cls o) (shape o) (size o) (strides o) (data o) (dtype o) s.

Section NDArray.

Context `{B : Backend}.

(** [Math.fround] on the modelled numbers: the conversion a [Float32Array]
    applies to what is stored into it. *)
Variable fround : number -> number.

(** The store: tensor objects, storage records, and the module globals
    [GPGPU] and [TEXTURE_MANAGER].  The two globals are assigned together by
    [initializeGPU] and every use below is guarded by
    [throwIfGPUNotInitialized], which wants both: [None] stands for "one of
    them is null". *)
Record Heap := mkHeap {
  arrays : gmap ref NDArray;
  datas : gmap ref NDArrayData;
  GPU : option gpu;
}.

(** A computation returns or throws, and leaves a store either way. *)
Definition M (A : Type) : Type := Heap -> outcome A * Heap.

Definition ret {A} (a : A) : M A := fun h => (Ret a, h).
Definition throw {A} (e : Error) : M A := fun h => (Throw e, h).
Definition bind {A C} (m : M A) (k : A -> M C) : M C :=
  fun h => match m h with
           | (Ret a, h') => k a h'
           | (Throw e, h') => (Throw e, h')
           end.
Definition lift {A} (r : outcome A) : M A := fun h => (r, h).

Notation "'do' x <- m ; k" := (bind m (fun x => k))
  (at level 10, x pattern, m at level 100, k at level 200).
Notation "m ;; k" := (bind m (fun _ => k))
  (at level 100, k at level 200, right associativity).

Definition assert (cond : bool) (e : Error) : M unit := lift (assert_ cond e).

(** Dereferencing: a reference that names no object stands for [null]. *)
Definition the_array (t : ref) : M NDArray :=
  fun h => match arrays h !! t with
           | Some o => (Ret o, h)
           | None => (Throw TypeError, h)
           end.
Definition the_data (r : ref) : M NDArrayData :=
  fun h => match datas h !! r with
           | Some d => (Ret d, h)
           | None => (Throw TypeError, h)
           end.
(** [this.data] followed by a field read. *)
Definition this_data (t : ref) : M NDArrayData :=
  do o <- the_array t; the_data (data o).

(** Field assignments [this.f = ..] and [this.data.f = ..]. *)
Definition update_array (t : ref) (f : NDArray -> NDArray) : M unit :=
  do o <- the_array t;
  fun h => (Ret tt, mkHeap (<[t := f o]> (arrays h)) (datas h) (GPU h)).
Definition update_data (r : ref) (f : NDArrayData -> NDArrayData) : M unit :=
  do d <- the_data r;
  fun h => (Ret tt, mkHeap (arrays h) (<[r := f d]> (datas h)) (GPU h)).
Definition update_this_data (t : ref) (f : NDArrayData -> NDArrayData) : M unit :=
  do o <- the_array t; update_data (data o) f.

(** Object creation: a reference no object has yet. *)
Definition new_array (o : NDArray) : M ref :=
  fun h => let t := fresh (dom (arrays h)) in
           (Ret t, mkHeap (<[t := o]> (arrays h)) (datas h) (GPU h)).
Definition new_data (d : NDArrayData) : M ref :=
  fun h => let r := fresh (dom (datas h)) in
           (Ret r, mkHeap (arrays h) (<[r := d]> (datas h)) (GPU h)).

(** [initializeGPU(gpgpu, textureManager)]. *)
Definition initializeGPU (g : option gpu) : M unit :=
  fun h => (Ret tt, mkHeap (arrays h) (datas h) g).

(** [throwIfGPUNotInitialized()], handing the collaborators' state on. *)
Definition throwIfGPUNotInitialized : M gpu :=
  fun h => match GPU h with
           | Some g => (Ret g, h)
           | None => (Throw UninitializedBackendError, h)
           end.
Definition put_gpu (g : gpu) : M unit :=
  fun h => (Ret tt, mkHeap (arrays h) (datas h) (Some g)).

(** ** Constructors *)

(** [NDArray.constructor(shape, data, dtype)], run for an object of class
    [c]. *)
Definition NDArray_constructor (c : ClassTag) (shape : list Z) (data : ref)
    (dtype : option DataTypeKey) : M ref :=
  do d <- the_data data;
  assert (bool_decide (values d <> None) || bool_decide (texture d <> None))
    NoStorageError;;
  assert (bool_decide (texture d = None) || bool_decide (textureShapeRC d <> None))
    IncompleteStorageError;;
  let size := sizeFromShape shape in
  match values d with
  | Some v => assert (size =? ta_length v) ShapeMismatchError
  | None => ret tt
  end;;
  new_array (mkNDArray c (Some shape) size (computeStrides shape) data dtype None).

(** [Scalar.constructor(data, dtype)]. *)
Definition Scalar_constructor (data : ref) (dtype : option DataTypeKey) : M ref :=
  do d <- the_data data;
  (if bool_decide (texture d <> None)
   then update_data data (set_textureShapeRC (Some (1, 1)))
   else ret tt);;
  NDArray_constructor C_Scalar [] data dtype.

(** [Array1D.constructor(data, dtype)]: the shape comes from the storage. *)
Definition Array1D_constructor (data : ref) (dtype : option DataTypeKey) : M ref :=
  do d <- the_data data;
  do shape <-
    match values d with
    | Some v => ret [ta_length v]
    | None =>
        match textureShapeRC d with
        | Some (r, c) => ret [sizeFromShape [r; c]]
        | None => throw TypeError
        end
    end;
  NDArray_constructor C_Array1D shape data dtype.

(** [Array2D.constructor(shape, data, dtype)]. *)
Definition Array2D_constructor (shape : list Z) (data : ref)
    (dtype : option DataTypeKey) : M ref :=
  assert (length shape =? 2)%nat InvalidRankError;;
  do t <- NDArray_constructor C_Array2D shape data dtype;
  do o <- the_array t;
  update_array t (set_stride0 (strides o !! 0%nat));;
  ret t.

(** [NDArray.make(shape, data, dtype)]. *)
Definition make (shape : list Z) (data : ref) (dtype : option DataTypeKey) : M ref :=
  match length shape with
  | 0%nat => Scalar_constructor data dtype
  | 1%nat => Array1D_constructor data dtype
  | 2%nat => Array2D_constructor shape data dtype
  | _ => NDArray_constructor C_NDArray shape data dtype
  end.

(** [new Float32Array(length)]: zero-filled; a negative length is a
    [RangeError]. *)
Definition new_Float32Array (n : Z) : M TypedArray :=
  assert (0 <=? n) RangeError;;
  ret (Float32Array (replicate (Z.to_nat n) 0)).

(** [new Float32Array(source)]: a converted copy; [null] gives an empty
    array. *)
Definition Float32Array_from (source : option (list number)) : TypedArray :=
  match source with
  | Some l => Float32Array (map fround l)
  | None => Float32Array []
  end.

(** [NDArray.zeros(shape, dtype)]. *)
Definition zeros (shape : list Z) (dtype : option DataTypeKey) : M ref :=
  do values <- new_Float32Array (sizeFromShape shape);
  do data <- new_data (mkData (Some values) None None);
  make shape data dtype.

(** ** Storage migration *)

(** [disposeTexture()]. *)
Definition disposeTexture (t : ref) : M unit :=
  do g <- throwIfGPUNotInitialized;
  do d <- this_data t;
  put_gpu (releaseTexture g (texture d) (textureShapeRC d));;
  update_this_data t (set_texture None);;
  update_this_data t (set_textureShapeRC None).

(** [getValues()].  The arguments of the download are evaluated first:
    indexing a [null] layout is a [TypeError]. *)
Definition getValues (t : ref) : M (option TypedArray) :=
  do d <- this_data t;
  (if bool_decide (values d = None) then
     do g <- throwIfGPUNotInitialized;
     do rc <- match textureShapeRC d with
              | Some rc => ret rc
              | None => throw TypeError
              end;
     do v <- lift (downloadMatrixFromTexture g (texture d) (fst rc) (snd rc));
     update_this_data t (set_values (Some v));;
     disposeTexture t
   else ret tt);;
  do d <- this_data t;
  ret (values d).

(** [uploadToGPU(preferredTexShape)]. *)
Definition uploadToGPU (t : ref) (preferredTexShape : option (Z * Z)) : M unit :=
  do g <- throwIfGPUNotInitialized;
  do o <- the_array t;
  do rc <- lift (getTextureShapeFromLogicalShape g (shape o) preferredTexShape);
  update_this_data t (set_textureShapeRC (Some rc));;
  do d <- this_data t;
  do rc <- match textureShapeRC d with
           | Some rc => ret rc
           | None => throw TypeError
           end;
  do tg <- lift (acquireTexture g rc);
  put_gpu (snd tg);;
  update_this_data t (set_texture (Some (fst tg)));;
  do d <- this_data t;
  do g' <- lift (uploadMatrixToTexture (snd tg) (fst tg) (fst rc) (snd rc) (values d));
  put_gpu g';;
  update_this_data t (set_values None).

(** [getTexture(preferredShapeRC)]. *)
Definition getTexture (t : ref) (preferredShapeRC : option (Z * Z))
    : M (option WebGLTexture) :=
  do d <- this_data t;
  (if bool_decide (texture d = None) then uploadToGPU t preferredShapeRC
   else ret tt);;
  do d <- this_data t;
  ret (texture d).

(** [getTextureShapeRC(preferredShapeRC)]. *)
Definition getTextureShapeRC (t : ref) (preferredShapeRC : option (Z * Z))
    : M (option (Z * Z)) :=
  do d <- this_data t;
  (if bool_decide (textureShapeRC d = None) then uploadToGPU t preferredShapeRC
   else ret tt);;
  do d <- this_data t;
  ret (textureShapeRC d).

(** [dispose()]. *)
Definition dispose (t : ref) : M unit :=
  update_this_data t (set_values None);;
  update_array t (set_shape None);;
  do d <- this_data t;
  if bool_decide (texture d <> None) then disposeTexture t else ret tt.

(** [inGPU()]. *)
Definition inGPU (t : ref) : M bool :=
  do d <- this_data t; ret (bool_decide (texture d <> None)).

(** [getData()]: the storage record itself. *)
Definition getData (t : ref) : M ref :=
  do o <- the_array t; ret (data o).

(** ** Factories that read another tensor *)

(** [NDArray.zerosLike(another)]. *)
Definition zerosLike (another : ref) : M ref :=
  do o <- the_array another;
  match shape o with
  | Some s => zeros s (dtype o)
  | None => throw TypeError
  end.

(** [NDArray.like(another)]. *)
Definition like (another : ref) : M ref :=
  do values <- getValues another;
  do o <- the_array another;
  do data <- new_data (mkData (Some (Float32Array_from (ta_elems <$> values))) None None);
  match shape o with
  | Some s => make s data (dtype o)
  | None => throw TypeError
  end.

(** ** Reshape *)

(** [reshape(newShape)].  [NDArray.make] is called without a [dtype]. *)
Definition reshape (t : ref) (newShape : list Z) : M ref :=
  do o <- the_array t;
  do newShape <- lift (inferFromImplicitShape newShape (size o));
  do same <- lift (arraysEqual (shape o) (Some newShape));
  if same then ret t
  else
    assert (size o =? sizeFromShape newShape) InvalidShapeError;;
    make newShape (data o) None.

Definition asScalar (t : ref) : M ref :=
  do o <- the_array t;
  assert (size o =? 1) NotSingletonError;;
  reshape t [].

Definition as1D (t : ref) : M ref :=
  do o <- the_array t; reshape t [size o].

Definition as2D (t : ref) (rows columns : Z) : M ref :=
  reshape t [rows; columns].

(** [get rank()]. *)
Definition rank (t : ref) : M Z :=
  do o <- the_array t;
  match shape o with
  | Some s => ret (Z.of_nat (length s))
  | None => throw TypeError
  end.

(** ** Indexing *)

(** [let index = locs[locs.length - 1];
     for (let i = 0; i < locs.length - 1; ++i)
       index += this.strides[i] * locs[i];]
    With no location at all the index is [undefined]; a stride that is
    missing makes it [NaN]. *)
Definition NDArray_locToIndex (o : NDArray) (locs : list Z) : JSValue :=
  foldl (fun index i =>
           js_add index (js_mul (js_of (strides o !! i)) (js_of (locs !! i))))
        (js_of (last locs)) (seq 0 (length locs - 1)).

(** The offset each class's [get] and [set] address: [0] in [Scalar], [i]
    in [Array1D], [this.stride0 * i + j] in [Array2D]. *)
Definition offset (o : NDArray) (locs : list Z) : JSValue :=
  match cls o with
  | C_NDArray => NDArray_locToIndex o locs
  | C_Scalar => Num 0
  | C_Array1D => js_of (locs !! 0%nat)
  | C_Array2D =>
      js_add (js_mul (js_of (stride0 o)) (js_of (locs !! 0%nat)))
             (js_of (locs !! 1%nat))
  end.

(** [locToIndex(locs)]; [Scalar] inherits the generic one. *)
Definition locToIndex (t : ref) (locs : list Z) : M JSValue :=
  do o <- the_array t;
  ret (match cls o with
       | C_NDArray | C_Scalar => NDArray_locToIndex o locs
       | C_Array1D | C_Array2D => offset o locs
       end).

(** What a typed array keeps of a number stored into an element. *)
Definition ta_convert (a : TypedArray) (value : number) : number :=
  match ta_type a with
  | Float32 => fround value
  | Int32 => toInt32 value
  | Uint8 => toUint8 value
  end.

(** [a[i] = value].  An element converts what it stores; a store at a
    numeric key outside the array, or at [NaN], changes nothing; a store at
    the key [undefined] writes the property of that name, unconverted. *)
Definition ta_set (a : TypedArray) (i : JSValue) (value : number) : TypedArray :=
  match i with
  | Num i =>
      if 0 <=? i then
        mkTypedArray (ta_type a)
          (<[Z.to_nat i := ta_convert a value]> (ta_elems a)) (ta_undefined a)
      else a
  | NaN => a
  | Undefined => mkTypedArray (ta_type a) (ta_elems a) (Num value)
  end.

(** [a[i] = NaN], which [add] comes to where [a[i]] has just read as no
    number.  Such a key is not that of an element (an element reads as a
    number, and elements stay the integers they are here): the store
    changes nothing unless the key is [undefined], where it writes the
    property. *)
Definition ta_set_NaN (a : TypedArray) (i : JSValue) : TypedArray :=
  match i with
  | Undefined => mkTypedArray (ta_type a) (ta_elems a) NaN
  | _ => a
  end.

(** A key that names neither an element nor a property: a number outside
    the array, or [NaN]. *)
Definition names_nothing (a : TypedArray) (i : JSValue) : Prop :=
  match i with
  | Num k => k < 0 \/ ta_length a <= k
  | NaN => True
  | Undefined => False
  end.

(** [get(...locs)]. *)
Definition get (t : ref) (locs : list Z) : M JSValue :=
  do o <- the_array t;
  let index := offset o locs in
  do values <- getValues t;
  match values with
  | Some a => ret (ta_get a index)
  | None => throw TypeError
  end.

(** [set(value, ...locs)]: the buffer is written in place. *)
Definition set (t : ref) (value : number) (locs : list Z) : M unit :=
  do o <- the_array t;
  let index := offset o locs in
  do values <- getValues t;
  match values with
  | Some a => update_this_data t (set_values (Some (ta_set a index value)))
  | None => throw TypeError
  end.

(** [equals(t)]: [&&] evaluates from the left and stops at the first
    [false]. *)
Definition equals (this t : ref) : M bool :=
  do o <- the_array this;
  do p <- the_array t;
  if bool_decide (dtype o = dtype p) then
    do sameShape <- lift (arraysEqual (shape o) (shape p));
    if sameShape then
      do a <- getValues this;
      do b <- getValues t;
      lift (arraysEqual (ta_elems <$> a) (ta_elems <$> b))
    else ret false
  else ret false.

(** ** The [new] factories *)

(** Modelled from the spec: [util.inferShape] and [util.flatten] are not
    under src/; §8 builds a [(2,3)] matrix straight from six flat values, so
    a flat [number[]] has a one-dimensional inferred shape and flattens to
    itself.  What [Array1D.new] and [Array2D.new] accept is then a
    [Float32Array] or a flat [number[]]; nested arrays are left out. *)
Inductive ArrayData :=
| AD_Float32Array (elems : list number)
| AD_flat (elems : list number).

(** [toTypedArray(a)]. *)
Definition toTypedArray (a : ArrayData) : TypedArray :=
  match a with
  | AD_Float32Array l => Float32Array l
  | AD_flat l => Float32Array_from (Some l)
  end.

(** [Scalar.new(value, dtype)]. *)
Definition Scalar_new (value : number) (dtype : option DataTypeKey) : M ref :=
  do data <- new_data (mkData (Some (Float32Array_from (Some [value]))) None None);
  Scalar_constructor data dtype.

(** [Array1D.new(values, dtype)]. *)
Definition Array1D_new (values : ArrayData) (dtype : option DataTypeKey) : M ref :=
  do data <- new_data (mkData (Some (toTypedArray values)) None None);
  Array1D_constructor data dtype.

(** [Array2D.new(shape, values, dtype)]. *)
Definition Array2D_new (shape : list Z) (values : ArrayData)
    (dtype : option DataTypeKey) : M ref :=
  do data <- new_data (mkData (Some (toTypedArray values)) None None);
  Array2D_constructor shape data dtype.

(** ** Tensors in good standing, and a faithful backend *)

(** A tensor as its constructor leaves it: not disposed, its size the
    product of its shape, over a storage record that holds at least one
    form, a layout with every texture, and host values (when there are any)
    of the tensor's size. *)
Record live (h : Heap) (t : ref) (o : NDArray) (d : NDArrayData) : Prop := {
  live_array : arrays h !! t = Some o;
  live_data : datas h !! data o = Some d;
  live_shape : exists s, shape o = Some s /\ size o = sizeFromShape s;
  live_storage : values d <> None \/ texture d <> None;
  live_layout : texture d = None \/ textureShapeRC d <> None;
  live_length : forall v, values d = Some v -> ta_length v = size o;
}.

(** Exactly one storage form. *)
Definition one_form (d : NDArrayData) : Prop :=
  (values d <> None /\ texture d = None) \/
  (values d = None /\ texture d <> None).

(** A shape of the data model: every dimension is a non-negative integer. *)
Definition valid_shape (s : list Z) : Prop := Forall (fun n => 0 <= n) s.

(** The backend returns from a texture exactly what was uploaded to it. *)
Definition lossless : Prop :=
  forall g tex rows columns a g',
    uploadMatrixToTexture g tex rows columns (Some a) = Ret g' ->
    downloadMatrixFromTexture g' (Some tex) rows columns = Ret a.

(** ** More of the indexing interface *)

(** [Math.floor(a / b)] and [a % b] on integers.  [None] is a result that
    is no integer: an operand was [undefined], or the divisor is [0] (the
    quotient is then infinite or [NaN]). *)
Definition floor_div (a b : option Z) : option Z :=
  match a, b with
  | Some a, Some b => if b =? 0 then None else Some (a / b)
  | _, _ => None
  end.
Definition js_rem (a b : option Z) : option Z :=
  match a, b with
  | Some a, Some b => if b =? 0 then None else Some (Z.rem a b)
  | _, _ => None
  end.

(** One turn of the loop of the generic [indexToLoc]:
    [locs[i] = Math.floor(index / this.strides[i]);
     index -= locs[i] * this.strides[i];] *)
Definition indexToLoc_step (strides : list Z)
    (st : list (option Z) * option Z) (i : nat) : list (option Z) * option Z :=
  let q := floor_div (snd st) (strides !! i) in
  (<[i := q]> (fst st),
   match snd st, q, strides !! i with
   | Some x, Some q, Some s => Some (x - q * s)
   | _, _, _ => None
   end).

(** The generic [indexToLoc] for a shape of [rank] dimensions.  At rank 0
    the last assignment writes index [-1] and leaves the array empty. *)
Definition NDArray_indexToLoc (strides : list Z) (rank : nat) (index : Z)
    : list (option Z) :=
  let st := foldl (indexToLoc_step strides) (replicate rank None, Some index)
              (seq 0 (rank - 1)) in
  <[(rank - 1)%nat := snd st]> (fst st).

(** [indexToLoc(index)], with the overrides of [Array1D] and [Array2D]. *)
Definition indexToLoc (t : ref) (index : Z) : M (list (option Z)) :=
  do o <- the_array t;
  match cls o with
  | C_Array1D => ret [Some index]
  | C_Array2D =>
      ret [floor_div (Some index) (stride0 o); js_rem (Some index) (stride0 o)]
  | C_NDArray | C_Scalar =>
      match shape o with
      | Some s => ret (NDArray_indexToLoc (strides o) (length s) index)
      | None => throw TypeError
      end
  end.

(** [a.fill(value)]: every element, and nothing else. *)
Definition ta_fill (a : TypedArray) (value : number) : TypedArray :=
  mkTypedArray (ta_type a)
    (replicate (length (ta_elems a)) (ta_convert a value)) (ta_undefined a).

(** [fill(value)]. *)
Definition fill (t : ref) (value : number) : M unit :=
  do values <- getValues t;
  match values with
  | Some a => update_this_data t (set_values (Some (ta_fill a value)))
  | None => throw TypeError
  end.

(** [a[i] += value]: where [a[i]] reads as no number the sum is [NaN]. *)
Definition ta_add (a : TypedArray) (i : JSValue) (value : number) : TypedArray :=
  match ta_get a i with
  | Num x => ta_set a i (x + value)
  | _ => ta_set_NaN a i
  end.

(** [set(NaN, ...locs)], as [add] calls it when [get] gave no number. *)
Definition set_NaN (t : ref) (locs : list Z) : M unit :=
  do o <- the_array t;
  let index := offset o locs in
  do values <- getValues t;
  match values with
  | Some a => update_this_data t (set_values (Some (ta_set_NaN a index)))
  | None => throw TypeError
  end.

(** [add(value, ...locs)]: the subclasses add in place; the generic class
    goes through [get] and [set]. *)
Definition add (t : ref) (value : number) (locs : list Z) : M unit :=
  do o <- the_array t;
  match cls o with
  | C_NDArray =>
      do x <- get t locs;
      match x with
      | Num x => set t (x + value) locs
      | _ => set_NaN t locs
      end
  | C_Scalar | C_Array1D | C_Array2D =>
      let index := offset o locs in
      do values <- getValues t;
      match values with
      | Some a => update_this_data t (set_values (Some (ta_add a index value)))
      | None => throw TypeError
      end
  end.

(** ** Reference notions for the indexing properties *)

(** The row-major offset of the location [locs] in an array of shape [s]. *)
Fixpoint rowMajor (s locs : list Z) : Z :=
  match s, locs with
  | _ :: s', l :: locs' => l * sizeFromShape s' + rowMajor s' locs'
  | _, _ => 0
  end.

(** A location inside the shape: one index per dimension, each in range. *)
Definition in_bounds (s locs : list Z) : Prop :=
  Forall2 (fun l n => 0 <= l < n) locs s.

(** An object as [NDArray.make] builds it for the shape [s]: the class goes
    with the rank, the strides are the constructor's, and an [Array2D] has
    cached its row stride. *)
Definition built_for (o : NDArray) (s : list Z) : Prop :=
  shape o = Some s /\ size o = sizeFromShape s /\
  strides o = computeStrides s /\
  match cls o with
  | C_Scalar => s = []
  | C_Array1D => length s = 1%nat
  | C_Array2D => length s = 2%nat /\ stride0 o = computeStrides s !! 0%nat
  | C_NDArray => (3 <= length s)%nat
  end.

End NDArray.

(** ** Stores on the mock backend *)

(** An initialised backend and no object yet. *)
Definition mock_heap0 : Heap (B:=MockBackend) :=
  mkHeap (B:=MockBackend) ∅ ∅ (Some mock_gpu0).

(** The object and the storage record that [Array1D.new] builds from
    [values]. *)
Definition vector_object (values : list number) (dtype : option DataTypeKey)
    : NDArray :=
  mkNDArray C_Array1D (Some [Z.of_nat (length values)])
    (Z.of_nat (length values)) [] 1%positive dtype None.
Definition vector_data (values : list number) : NDArrayData :=
  mkData (Some (Float32Array values)) None None.

(** The store after [Array1D.new(values, dtype)] on [mock_heap0]; the
    vector is object [1] over storage record [1]. *)
Definition mock_vector (values : list number) (dtype : option DataTypeKey)
    : Heap (B:=MockBackend) :=
  snd (Array1D_new fround_int (AD_Float32Array values) dtype mock_heap0).

(** The store after [NDArray.make(shape, {values})] on [mock_heap0], over a
    [Float32Array] of [values]; the tensor is object [1] over storage
    record [1]. *)
Definition mock_tensor (shape : list Z) (values : list number)
    : Heap (B:=MockBackend) :=
  snd (bind (new_data (mkData (Some (Float32Array values)) None None))
         (fun data => make shape data None) mock_heap0).

(** The cube and the matrix that [mock_tensor] builds. *)
Definition cube_values : list number := [10; 11; 12; 13; 14; 15; 16; 17].
Definition cube_object : NDArray :=
  mkNDArray C_NDArray (Some [2; 2; 2]) 8 [4; 2] 1%positive None None.
Definition matrix_object : NDArray :=
  mkNDArray C_Array2D (Some [2; 3]) 6 [3] 1%positive None (Some 3).

(** A backend that fails, for running the failure paths: it has no texture
    to give unless [has_texture], and it never completes an upload. *)
Definition FaultyBackend (has_texture : bool) : Backend :=
  {| gpu := MockGPU;
     getTextureShapeFromLogicalShape := mock_layout;
     acquireTexture := fun g rc =>
       if has_texture then mock_acquire g rc else Throw PoolExhaustedError;
     releaseTexture := mock_release;
     uploadMatrixToTexture := fun g t rows columns matrix => Throw RangeError;
     downloadMatrixFromTexture := mock_download |}.

(** A host-resident vector of [values] as object [1] over record [1], on
    the failing backend or on no backend at all. *)
Definition faulty_vector (has_texture : bool) (values : list number)
    : Heap (B:=FaultyBackend has_texture) :=
  mkHeap (B:=FaultyBackend has_texture)
    {[1%positive := vector_object values None]}
    {[1%positive := vector_data values]} (Some mock_gpu0).
Definition offline_vector (values : list number) : Heap (B:=MockBackend) :=
  mkHeap (B:=MockBackend)
    {[1%positive := vector_object values None]}
    {[1%positive := vector_data values]} None.

(** * Properties *)

Section Properties.

Context `{B : Backend}.
Variable fround : number -> number.


(** ** Running a computation on a store *)

Lemma bind_Ret {A C} (m : M A) (k : A -> M C) h a h' :
  m h = (Ret a, h') -> bind m k h = k a h'.
Proof. unfold bind. by intros ->. Qed.

Lemma bind_Throw {A C} (m : M A) (k : A -> M C) h e h' :
  m h = (Throw e, h') -> bind m k h = (Throw e, h').
Proof. unfold bind. by intros ->. Qed.

Lemma the_array_Some h t o :
  arrays h !! t = Some o -> the_array t h = (Ret o, h).
Proof. unfold the_array. by intros ->. Qed.

Lemma the_data_Some h r d :
  datas h !! r = Some d -> the_data r h = (Ret d, h).
Proof. unfold the_data. by intros ->. Qed.

Lemma this_data_Some h t o d :
  arrays h !! t = Some o -> datas h !! data o = Some d ->
  this_data t h = (Ret d, h).
Proof.
  intros Ho Hd. unfold this_data.
  rewrite (bind_Ret _ _ _ _ _ (the_array_Some _ _ _ Ho)).
  by apply the_data_Some.
Qed.

Lemma update_data_Some h r d f :
  datas h !! r = Some d ->
  update_data r f h = (Ret tt, mkHeap (arrays h) (<[r := f d]> (datas h)) (GPU h)).
Proof.
  intros Hd. unfold update_data.
  by rewrite (bind_Ret _ _ _ _ _ (the_data_Some _ _ _ Hd)).
Qed.

Lemma update_this_data_Some h t o d f :
  arrays h !! t = Some o -> datas h !! data o = Some d ->
  update_this_data t f h =
    (Ret tt, mkHeap (arrays h) (<[data o := f d]> (datas h)) (GPU h)).
Proof.
  intros Ho Hd. unfold update_this_data.
  rewrite (bind_Ret _ _ _ _ _ (the_array_Some _ _ _ Ho)).
  by apply update_data_Some.
Qed.

Lemma update_array_Some h t o f :
  arrays h !! t = Some o ->
  update_array t f h = (Ret tt, mkHeap (<[t := f o]> (arrays h)) (datas h) (GPU h)).
Proof.
  intros Ho. unfold update_array.
  by rewrite (bind_Ret _ _ _ _ _ (the_array_Some _ _ _ Ho)).
Qed.

(** A fresh reference names no object. *)
Lemma fresh_array_None h : arrays h !! fresh (dom (arrays h)) = None.
Proof. apply not_elem_of_dom, is_fresh. Qed.

Lemma fresh_data_None h : datas h !! fresh (dom (datas h)) = None.
Proof. apply not_elem_of_dom, is_fresh. Qed.

Lemma fresh_array_ne h t o :
  arrays h !! t = Some o -> fresh (dom (arrays h)) <> t.
Proof. intros Ho E. rewrite <- E, fresh_array_None in Ho. done. Qed.

(** Simplifying the store as a computation proceeds. *)
Ltac heap_simpl :=
  repeat (simpl arrays in * || simpl datas in * || simpl GPU in *
          || rewrite lookup_insert_eq || rewrite insert_insert_eq).

(** [disposeTexture] on an initialised backend. *)
Lemma disposeTexture_spec h t o d g :
  arrays h !! t = Some o -> datas h !! data o = Some d -> GPU h = Some g ->
  disposeTexture t h =
    (Ret tt,
     mkHeap (arrays h)
       (<[data o := mkData (values d) None None]> (datas h))
       (Some (releaseTexture g (texture d) (textureShapeRC d)))).
Proof.
  intros Ho Hd Hg. unfold disposeTexture.
  erewrite bind_Ret; [|unfold throwIfGPUNotInitialized; by rewrite Hg].
  erewrite bind_Ret; [|by eapply this_data_Some].
  erewrite bind_Ret; [|reflexivity].
  erewrite bind_Ret; [|by eapply update_this_data_Some].
  erewrite update_this_data_Some; [|done|heap_simpl; done].
  by heap_simpl.
Qed.

(** [dispose] completes unless a texture is held while the backend is not
    initialised. *)
Lemma dispose_spec h t o d :
  arrays h !! t = Some o -> datas h !! data o = Some d ->
  texture d = None \/ GPU h <> None ->
  dispose t h =
    (Ret tt,
     mkHeap (<[t := set_shape None o]> (arrays h))
       (<[data o := mkData None None
                      (if texture d is Some _ then None else textureShapeRC d)]>
          (datas h))
       (match texture d, GPU h with
        | Some _, Some g => Some (releaseTexture g (texture d) (textureShapeRC d))
        | _, _ => GPU h
        end)).
Proof.
  intros Ho Hd Hok. unfold dispose.
  erewrite bind_Ret; [|by eapply update_this_data_Some].
  erewrite bind_Ret; [|by eapply update_array_Some].
  erewrite bind_Ret;
    [|eapply this_data_Some; [by heap_simpl|simpl; by heap_simpl]].
  simpl. destruct (texture d) as [tex|] eqn:Htex; simpl.
  - destruct (GPU h) as [g|] eqn:Hg; [|by destruct Hok].
    erewrite disposeTexture_spec;
      [|by heap_simpl|simpl; by heap_simpl|done].
    heap_simpl. simpl. by rewrite Htex.
  - unfold ret, set_values. by rewrite Htex.
Qed.

(** [getValues] on host-resident storage changes nothing. *)
Lemma getValues_host h t o d v :
  arrays h !! t = Some o -> datas h !! data o = Some d ->
  values d = Some v ->
  getValues t h = (Ret (Some v), h).
Proof.
  intros Ho Hd Hv. unfold getValues.
  erewrite bind_Ret; [|by eapply this_data_Some].
  rewrite Hv. simpl.
  erewrite bind_Ret; [|reflexivity].
  erewrite bind_Ret; [|by eapply this_data_Some].
  by rewrite Hv.
Qed.

(** [getValues] without host values: a download, then the texture goes
    back to the manager. *)
Lemma getValues_download h t o d g rc v :
  arrays h !! t = Some o -> datas h !! data o = Some d ->
  values d = None -> GPU h = Some g -> textureShapeRC d = Some rc ->
  downloadMatrixFromTexture g (texture d) (fst rc) (snd rc) = Ret v ->
  getValues t h =
    (Ret (Some v),
     mkHeap (arrays h) (<[data o := mkData (Some v) None None]> (datas h))
       (Some (releaseTexture g (texture d) (Some rc)))).
Proof.
  intros Ho Hd Hv Hg Hrc Hdl. unfold getValues.
  erewrite bind_Ret; [|by eapply this_data_Some].
  rewrite Hv. simpl.
  erewrite bind_Ret.
  2:{ erewrite bind_Ret; [|unfold throwIfGPUNotInitialized; by rewrite Hg].
      rewrite Hrc.
      erewrite bind_Ret; [|reflexivity].
      erewrite bind_Ret; [|unfold lift; by rewrite Hdl].
      erewrite bind_Ret; [|by eapply update_this_data_Some].
      eapply disposeTexture_spec; [done|by heap_simpl|done]. }
  heap_simpl.
  erewrite bind_Ret; [|eapply this_data_Some; [done|by heap_simpl]].
  simpl. by rewrite Hrc.
Qed.

(** [getValues] with neither host values nor a layout throws, and which
    error depends on the backend being initialised. *)
Lemma getValues_no_storage h t o d :
  arrays h !! t = Some o -> datas h !! data o = Some d ->
  values d = None -> textureShapeRC d = None ->
  getValues t h =
    (Throw (if GPU h is Some _ then TypeError else UninitializedBackendError), h).
Proof.
  intros Ho Hd Hv Hrc. unfold getValues.
  erewrite bind_Ret; [|by eapply this_data_Some].
  rewrite Hv. simpl. rewrite Hrc.
  unfold bind at 1. unfold bind at 1. unfold throwIfGPUNotInitialized.
  by destruct (GPU h).
Qed.

(** What a completed [getValues] did. *)
Lemma getValues_inv h t o d r h' :
  arrays h !! t = Some o -> datas h !! data o = Some d ->
  getValues t h = (Ret r, h') ->
  (r = values d /\ values d <> None /\ h' = h) \/
  (exists g rc v,
     values d = None /\ GPU h = Some g /\ textureShapeRC d = Some rc /\
     downloadMatrixFromTexture g (texture d) (fst rc) (snd rc) = Ret v /\
     r = Some v /\
     h' = mkHeap (arrays h) (<[data o := mkData (Some v) None None]> (datas h))
            (Some (releaseTexture g (texture d) (Some rc)))).
Proof.
  intros Ho Hd Hrun.
  destruct (values d) as [v|] eqn:Hv.
  - left. rewrite (getValues_host _ _ _ _ _ Ho Hd Hv) in Hrun.
    by inversion Hrun.
  - right. destruct (textureShapeRC d) as [rc|] eqn:Hrc.
    + destruct (GPU h) as [g|] eqn:Hg.
      * destruct (downloadMatrixFromTexture g (texture d) (fst rc) (snd rc))
          as [v|e] eqn:Hdl.
        -- rewrite (getValues_download _ _ _ _ _ _ _ Ho Hd Hv Hg Hrc Hdl) in Hrun.
           inversion Hrun; subst. by exists g, rc, v.
        -- exfalso. revert Hrun. unfold getValues.
           erewrite bind_Ret; [|by eapply this_data_Some].
           rewrite Hv. simpl. rewrite Hrc.
           unfold bind at 1. unfold bind at 1.
           unfold throwIfGPUNotInitialized. rewrite Hg.
           unfold bind at 1. simpl.
           unfold bind at 1. unfold lift. by rewrite Hdl.
      * exfalso. revert Hrun. unfold getValues.
        erewrite bind_Ret; [|by eapply this_data_Some].
        rewrite Hv. simpl.
        unfold bind at 1. unfold bind at 1.
        unfold throwIfGPUNotInitialized. by rewrite Hg.
    + rewrite (getValues_no_storage _ _ _ _ Ho Hd Hv Hrc) in Hrun. done.
Qed.

(** ** What a completed computation went through *)

Lemma bind_inv {A C} (m : M A) (k : A -> M C) h c h' :
  bind m k h = (Ret c, h') ->
  exists a h1, m h = (Ret a, h1) /\ k a h1 = (Ret c, h').
Proof.
  unfold bind. destruct (m h) as [[a|e] h1]; [eauto|discriminate].
Qed.

Lemma ret_inv {A} (a c : A) h h' : ret a h = (Ret c, h') -> c = a /\ h' = h.
Proof. unfold ret. by inversion 1. Qed.

Lemma lift_inv {A} (r : outcome A) a h h' :
  lift r h = (Ret a, h') -> r = Ret a /\ h' = h.
Proof. unfold lift. by inversion 1. Qed.

Lemma assert_inv cond e u h h' :
  assert cond e h = (Ret u, h') -> cond = true /\ h' = h.
Proof. unfold assert, lift, assert_. destruct cond; by inversion 1. Qed.

Lemma the_array_inv t o h h' :
  the_array t h = (Ret o, h') -> arrays h !! t = Some o /\ h' = h.
Proof. unfold the_array. destruct (arrays h !! t); by inversion 1. Qed.

Lemma the_data_inv r d h h' :
  the_data r h = (Ret d, h') -> datas h !! r = Some d /\ h' = h.
Proof. unfold the_data. destruct (datas h !! r); by inversion 1. Qed.

Lemma throwIfGPUNotInitialized_inv g h h' :
  throwIfGPUNotInitialized h = (Ret g, h') -> GPU h = Some g /\ h' = h.
Proof.
  unfold throwIfGPUNotInitialized. destruct (GPU h); by inversion 1.
Qed.

(** [uploadToGPU] when every collaborator delivers. *)
Lemma uploadToGPU_spec h t o d preferred g rc tex g1 g2 :
  arrays h !! t = Some o -> datas h !! data o = Some d -> GPU h = Some g ->
  getTextureShapeFromLogicalShape g (shape o) preferred = Ret rc ->
  acquireTexture g rc = Ret (tex, g1) ->
  uploadMatrixToTexture g1 tex (fst rc) (snd rc) (values d) = Ret g2 ->
  uploadToGPU t preferred h =
    (Ret tt,
     mkHeap (arrays h) (<[data o := mkData None (Some tex) (Some rc)]> (datas h))
       (Some g2)).
Proof.
  intros Ho Hd Hg Hl Ha Hu. unfold uploadToGPU.
  erewrite bind_Ret; [|unfold throwIfGPUNotInitialized; by rewrite Hg].
  erewrite bind_Ret; [|by eapply the_array_Some].
  erewrite bind_Ret; [|unfold lift; by rewrite Hl].
  erewrite bind_Ret; [|by eapply update_this_data_Some].
  erewrite bind_Ret; [|eapply this_data_Some; [done|by heap_simpl]].
  simpl.
  erewrite bind_Ret; [|reflexivity].
  erewrite bind_Ret; [|unfold lift; by rewrite Ha].
  erewrite bind_Ret; [|reflexivity].
  erewrite bind_Ret; [|eapply update_this_data_Some; [done|by heap_simpl]].
  erewrite bind_Ret; [|eapply this_data_Some; [done|by heap_simpl]].
  simpl.
  erewrite bind_Ret; [|unfold lift; by rewrite Hu].
  erewrite bind_Ret; [|reflexivity].
  erewrite update_this_data_Some; [|done|by heap_simpl].
  by heap_simpl.
Qed.

(** What a completed [uploadToGPU] went through. *)
Lemma uploadToGPU_inv h t o d preferred u h' :
  arrays h !! t = Some o -> datas h !! data o = Some d ->
  uploadToGPU t preferred h = (Ret u, h') ->
  exists g rc tex g1 g2,
    GPU h = Some g /\
    getTextureShapeFromLogicalShape g (shape o) preferred = Ret rc /\
    acquireTexture g rc = Ret (tex, g1) /\
    uploadMatrixToTexture g1 tex (fst rc) (snd rc) (values d) = Ret g2 /\
    h' = mkHeap (arrays h)
           (<[data o := mkData None (Some tex) (Some rc)]> (datas h)) (Some g2).
Proof.
  intros Ho Hd Hrun.
  destruct (GPU h) as [g|] eqn:Hg.
  2:{ exfalso. revert Hrun. unfold uploadToGPU.
      erewrite bind_Throw; [done|].
      unfold throwIfGPUNotInitialized. by rewrite Hg. }
  destruct (getTextureShapeFromLogicalShape g (shape o) preferred)
    as [rc|e] eqn:Hl.
  2:{ exfalso. revert Hrun. unfold uploadToGPU.
      erewrite bind_Ret; [|unfold throwIfGPUNotInitialized; by rewrite Hg].
      erewrite bind_Ret; [|by eapply the_array_Some].
      erewrite bind_Throw; [done|]. unfold lift. by rewrite Hl. }
  destruct (acquireTexture g rc) as [[tex g1]|e] eqn:Ha.
  2:{ exfalso. revert Hrun. unfold uploadToGPU.
      erewrite bind_Ret; [|unfold throwIfGPUNotInitialized; by rewrite Hg].
      erewrite bind_Ret; [|by eapply the_array_Some].
      erewrite bind_Ret; [|unfold lift; by rewrite Hl].
      erewrite bind_Ret; [|by eapply update_this_data_Some].
      erewrite bind_Ret; [|eapply this_data_Some; [done|by heap_simpl]].
      simpl.
      erewrite bind_Ret; [|reflexivity].
      erewrite bind_Throw; [done|]. unfold lift. by rewrite Ha. }
  destruct (uploadMatrixToTexture g1 tex (fst rc) (snd rc) (values d))
    as [g2|e] eqn:Hu.
  2:{ exfalso. revert Hrun. unfold uploadToGPU.
      erewrite bind_Ret; [|unfold throwIfGPUNotInitialized; by rewrite Hg].
      erewrite bind_Ret; [|by eapply the_array_Some].
      erewrite bind_Ret; [|unfold lift; by rewrite Hl].
      erewrite bind_Ret; [|by eapply update_this_data_Some].
      erewrite bind_Ret; [|eapply this_data_Some; [done|by heap_simpl]].
      simpl.
      erewrite bind_Ret; [|reflexivity].
      erewrite bind_Ret; [|unfold lift; by rewrite Ha].
      erewrite bind_Ret; [|reflexivity].
      erewrite bind_Ret; [|eapply update_this_data_Some; [done|by heap_simpl]].
      erewrite bind_Ret; [|eapply this_data_Some; [done|by heap_simpl]].
      simpl.
      erewrite bind_Throw; [done|]. unfold lift. by rewrite Hu. }
  rewrite (uploadToGPU_spec _ _ _ _ _ _ _ _ _ _ Ho Hd Hg Hl Ha Hu) in Hrun.
  inversion Hrun; subst. by exists g, rc, tex, g1, g2.
Qed.

(** [getTexture] with a texture already there changes nothing. *)
Lemma getTexture_resident h t o d tex preferred :
  arrays h !! t = Some o -> datas h !! data o = Some d ->
  texture d = Some tex ->
  getTexture t preferred h = (Ret (Some tex), h).
Proof.
  intros Ho Hd Htex. unfold getTexture.
  erewrite bind_Ret; [|by eapply this_data_Some].
  rewrite Htex. simpl.
  erewrite bind_Ret; [|reflexivity].
  erewrite bind_Ret; [|by eapply this_data_Some].
  by rewrite Htex.
Qed.

(** What a completed [getTexture] did. *)
Lemma getTexture_inv h t o d preferred r h' :
  arrays h !! t = Some o -> datas h !! data o = Some d ->
  getTexture t preferred h = (Ret r, h') ->
  (r = texture d /\ texture d <> None /\ h' = h) \/
  (exists g rc tex g1 g2,
     texture d = None /\ GPU h = Some g /\
     getTextureShapeFromLogicalShape g (shape o) preferred = Ret rc /\
     acquireTexture g rc = Ret (tex, g1) /\
     uploadMatrixToTexture g1 tex (fst rc) (snd rc) (values d) = Ret g2 /\
     r = Some tex /\
     h' = mkHeap (arrays h)
            (<[data o := mkData None (Some tex) (Some rc)]> (datas h)) (Some g2)).
Proof.
  intros Ho Hd Hrun.
  destruct (texture d) as [tex|] eqn:Htex.
  - left. rewrite (getTexture_resident _ _ _ _ _ _ Ho Hd Htex) in Hrun.
    by inversion Hrun.
  - right. unfold getTexture in Hrun.
    erewrite bind_Ret in Hrun; [|by eapply this_data_Some].
    rewrite Htex in Hrun. simpl in Hrun.
    apply bind_inv in Hrun as (u & h1 & Hup & Hrun).
    destruct (uploadToGPU_inv _ _ _ _ _ _ _ Ho Hd Hup)
      as (g & rc & tex & g1 & g2 & Hg & Hl & Ha & Hu & ->).
    erewrite bind_Ret in Hrun; [|eapply this_data_Some; [done|by heap_simpl]].
    apply ret_inv in Hrun as [-> ->].
    by exists g, rc, tex, g1, g2.
Qed.

(** ** The base constructor *)

(** The three sanity checks, in the order the constructor makes them. *)
Lemma NDArray_constructor_no_storage h c shape data d dtype :
  datas h !! data = Some d -> values d = None -> texture d = None ->
  NDArray_constructor c shape data dtype h = (Throw NoStorageError, h).
Proof.
  intros Hd Hv Ht. unfold NDArray_constructor.
  erewrite bind_Ret; [|by eapply the_data_Some].
  rewrite Hv, Ht. by repeat case_bool_decide.
Qed.

Lemma NDArray_constructor_incomplete h c shape data d dtype :
  datas h !! data = Some d -> texture d <> None -> textureShapeRC d = None ->
  NDArray_constructor c shape data dtype h = (Throw IncompleteStorageError, h).
Proof.
  intros Hd Ht Hrc. unfold NDArray_constructor.
  erewrite bind_Ret; [|by eapply the_data_Some].
  rewrite Hrc.
  rewrite (bool_decide_true (texture d <> None)) by done.
  rewrite orb_true_r.
  erewrite bind_Ret; [|reflexivity].
  rewrite (bool_decide_false (texture d = None)) by done.
  rewrite (bool_decide_false (None <> None)) by (by intros []).
  done.
Qed.

Lemma NDArray_constructor_mismatch h c shape data d dtype v :
  datas h !! data = Some d -> values d = Some v ->
  texture d = None \/ textureShapeRC d <> None ->
  ta_length v <> sizeFromShape shape ->
  NDArray_constructor c shape data dtype h = (Throw ShapeMismatchError, h).
Proof.
  intros Hd Hv Hrc Hlen. unfold NDArray_constructor.
  erewrite bind_Ret; [|by eapply the_data_Some].
  rewrite Hv.
  rewrite (bool_decide_true (Some v <> None)) by done. simpl.
  erewrite bind_Ret; [|reflexivity].
  erewrite bind_Ret.
  2:{ unfold assert, lift.
      destruct Hrc as [Hrc|Hrc];
        [rewrite (bool_decide_true _ Hrc)
        |rewrite (bool_decide_true _ Hrc), orb_true_r]; done. }
  erewrite bind_Throw; [done|].
  unfold assert, lift, assert_.
  destruct (Z.eqb_spec (sizeFromShape shape) (ta_length v)); [congruence|done].
Qed.

(** Storage that passes the three checks for [shape]. *)
Lemma NDArray_constructor_ok h c shape data d dtype :
  datas h !! data = Some d ->
  values d <> None \/ texture d <> None ->
  texture d = None \/ textureShapeRC d <> None ->
  (forall v, values d = Some v -> ta_length v = sizeFromShape shape) ->
  NDArray_constructor c shape data dtype h =
    (Ret (fresh (dom (arrays h))),
     mkHeap
       (<[fresh (dom (arrays h)) :=
            mkNDArray c (Some shape) (sizeFromShape shape) (computeStrides shape)
              data dtype None]> (arrays h))
       (datas h) (GPU h)).
Proof.
  intros Hd Hst Hrc Hlen. unfold NDArray_constructor.
  erewrite bind_Ret; [|by eapply the_data_Some].
  erewrite bind_Ret.
  2:{ unfold assert, lift.
      destruct Hst as [Hst|Hst];
        [rewrite (bool_decide_true _ Hst)
        |rewrite (bool_decide_true _ Hst), orb_true_r]; done. }
  erewrite bind_Ret.
  2:{ unfold assert, lift.
      destruct Hrc as [Hrc|Hrc];
        [rewrite (bool_decide_true _ Hrc)
        |rewrite (bool_decide_true _ Hrc), orb_true_r]; done. }
  erewrite bind_Ret; [done|].
  destruct (values d) as [v|]; [|done].
  unfold assert, lift. rewrite (Hlen v eq_refl), Z.eqb_refl. done.
Qed.

(** What a completed construction checked and built. *)
Lemma NDArray_constructor_inv h c shape data dtype t h' :
  NDArray_constructor c shape data dtype h = (Ret t, h') ->
  exists d,
    datas h !! data = Some d /\
    (values d <> None \/ texture d <> None) /\
    (texture d = None \/ textureShapeRC d <> None) /\
    (forall v, values d = Some v -> ta_length v = sizeFromShape shape) /\
    t = fresh (dom (arrays h)) /\
    h' = mkHeap
           (<[t := mkNDArray c (Some shape) (sizeFromShape shape)
                     (computeStrides shape) data dtype None]> (arrays h))
           (datas h) (GPU h).
Proof.
  intros Hrun.
  destruct (datas h !! data) as [d|] eqn:Hd.
  2:{ unfold NDArray_constructor in Hrun.
      erewrite bind_Throw in Hrun; [done|].
      unfold the_data. by rewrite Hd. }
  exists d. split; [done|].
  assert (values d <> None \/ texture d <> None) as Hst.
  { destruct (values d) eqn:Hv; [by left|].
    destruct (texture d) eqn:Ht; [by right|].
    by rewrite (NDArray_constructor_no_storage _ _ _ _ _ _ Hd Hv Ht) in Hrun. }
  assert (texture d = None \/ textureShapeRC d <> None) as Hrc.
  { destruct (texture d) eqn:Ht; [|by left].
    destruct (textureShapeRC d) eqn:Hl; [by right|].
    rewrite (NDArray_constructor_incomplete _ _ _ _ d) in Hrun;
      [done|done|by rewrite Ht|done]. }
  assert (forall v, values d = Some v -> ta_length v = sizeFromShape shape)
    as Hlen.
  { intros v Hv.
    destruct (decide (ta_length v = sizeFromShape shape)) as [|Hne]; [done|].
    by rewrite (NDArray_constructor_mismatch _ _ _ _ _ _ _ Hd Hv Hrc Hne)
      in Hrun. }
  rewrite (NDArray_constructor_ok _ _ _ _ _ _ Hd Hst Hrc Hlen) in Hrun.
  inversion Hrun; subst. done.
Qed.

(** ** The rank dispatch *)

Lemma sizeFromShape_singleton (n : Z) : sizeFromShape [n] = n.
Proof. unfold sizeFromShape. simpl. lia. Qed.

(** [make] on storage that fits [shape]: a new tensor over the very same
    storage record.  Only a [Scalar] touches the record (its layout), and
    only an [Array1D] without host values takes its shape from elsewhere. *)
Lemma make_ok h sh r d dt :
  datas h !! r = Some d ->
  values d <> None \/ texture d <> None ->
  texture d = None \/ textureShapeRC d <> None ->
  (forall v, values d = Some v -> ta_length v = sizeFromShape sh) ->
  exists o' d',
    make sh r dt h =
      (Ret (fresh (dom (arrays h))),
       mkHeap (<[fresh (dom (arrays h)) := o']> (arrays h))
         (<[r := d']> (datas h)) (GPU h)) /\
    data o' = r /\ dtype o' = dt /\
    (exists s', shape o' = Some s' /\ size o' = sizeFromShape s' /\
                (length sh <> 1%nat \/ values d <> None -> s' = sh)) /\
    values d' = values d /\ texture d' = texture d /\
    (texture d = None -> d' = d).
Proof.
  intros Hd Hst Hrc Hlen.
  destruct sh as [|a [|b [|c rest]]]; unfold make; cbn [length].
  - (* Scalar *)
    unfold Scalar_constructor.
    destruct (texture d) as [tex|] eqn:Htex.
    + eexists _, (set_textureShapeRC (Some (1, 1)) d).
      split.
      { erewrite bind_Ret; [|by eapply the_data_Some].
        rewrite Htex, (bool_decide_true (Some tex <> None)) by done.
        erewrite bind_Ret; [|by eapply update_data_Some].
        erewrite NDArray_constructor_ok;
          [|by heap_simpl|right; simpl; by rewrite Htex|by right
           |simpl; by intros v Hv; apply Hlen].
        reflexivity. }
      simpl. rewrite Htex. repeat split; try done. by exists [].
    + eexists _, d. rewrite (insert_id (datas h) r d Hd).
      split.
      { erewrite bind_Ret; [|by eapply the_data_Some].
        rewrite Htex, (bool_decide_false (None <> None)) by (by intros []).
        erewrite bind_Ret; [|reflexivity].
        erewrite NDArray_constructor_ok; [|done|by rewrite Htex|by left|done].
        reflexivity. }
      simpl. repeat split; try done. by exists [].
  - (* Array1D *)
    unfold Array1D_constructor.
    destruct (values d) as [v|] eqn:Hv.
    + eexists _, d. rewrite (insert_id (datas h) r d Hd).
      split.
      { erewrite bind_Ret; [|by eapply the_data_Some].
        rewrite Hv.
        erewrite bind_Ret; [|reflexivity].
        erewrite NDArray_constructor_ok; [|done|by rewrite Hv; left|done|].
        2:{ intros v' Hv'. rewrite Hv in Hv'. injection Hv' as <-.
            by rewrite sizeFromShape_singleton. }
        reflexivity. }
      simpl. repeat split; try done.
      exists [ta_length v]. repeat split; try done.
      intros _. by rewrite (Hlen v eq_refl), sizeFromShape_singleton.
    + destruct Hst as [|Htex]; [done|].
      destruct Hrc as [|Hrc]; [done|].
      destruct (textureShapeRC d) as [[rows cols]|] eqn:Hl; [|done].
      eexists _, d. rewrite (insert_id (datas h) r d Hd).
      split.
      { erewrite bind_Ret; [|by eapply the_data_Some].
        rewrite Hv, Hl.
        erewrite bind_Ret; [|reflexivity].
        erewrite NDArray_constructor_ok;
          [|done|by right|by rewrite Hl; right|by rewrite Hv].
        reflexivity. }
      simpl. repeat split; try done.
      exists [sizeFromShape [rows; cols]]. repeat split; try done.
      intros [|]; done.
  - (* Array2D *)
    unfold Array2D_constructor.
    eexists _, d. rewrite (insert_id (datas h) r d Hd).
    split.
    { erewrite bind_Ret; [|reflexivity].
      erewrite bind_Ret; [|by eapply NDArray_constructor_ok].
      erewrite bind_Ret; [|eapply the_array_Some; by heap_simpl].
      erewrite bind_Ret; [|eapply update_array_Some; by heap_simpl].
      heap_simpl. reflexivity. }
    simpl. repeat split; try done. by exists [a; b].
  - (* NDArray *)
    eexists _, d. rewrite (insert_id (datas h) r d Hd).
    split; [by eapply NDArray_constructor_ok|].
    simpl. repeat split; try done. by exists (a :: b :: c :: rest).
Qed.

(** What a completed [make] built: a tensor with the tag it was given, over
    the record it was given, whose host values and texture it left alone. *)
Lemma make_inv h sh r dt t h' :
  make sh r dt h = (Ret t, h') ->
  exists d o' d',
    datas h !! r = Some d /\
    arrays h' !! t = Some o' /\ data o' = r /\ dtype o' = dt /\
    datas h' !! r = Some d' /\
    values d' = values d /\ texture d' = texture d.
Proof.
  intros Hrun.
  destruct sh as [|a [|b [|c rest]]]; unfold make in Hrun; cbn [length] in Hrun.
  - unfold Scalar_constructor in Hrun.
    apply bind_inv in Hrun as (d & h0 & Hd & Hrun).
    apply the_data_inv in Hd as [Hd ->].
    apply bind_inv in Hrun as (u & h1 & Hfix & Hrun).
    destruct (NDArray_constructor_inv _ _ _ _ _ _ _ Hrun)
      as (d1 & Hd1 & _ & _ & _ & -> & ->).
    exists d, (mkNDArray C_Scalar (Some []) (sizeFromShape [])
                 (computeStrides []) r dt None), d1.
    split; [done|]. split; [by heap_simpl|]. simpl.
    repeat (split; [done|]).
    destruct (bool_decide (texture d <> None)).
    + rewrite (update_data_Some _ _ _ _ Hd) in Hfix.
      injection Hfix as Hh1. subst h1. simpl in Hd1.
      rewrite lookup_insert_eq in Hd1. by injection Hd1 as <-.
    + apply ret_inv in Hfix as [_ ->].
      rewrite Hd in Hd1. by injection Hd1 as <-.
  - unfold Array1D_constructor in Hrun.
    apply bind_inv in Hrun as (d & h0 & Hd & Hrun).
    apply the_data_inv in Hd as [Hd ->].
    apply bind_inv in Hrun as (s & h1 & Hshape & Hrun).
    assert (h1 = h) as ->.
    { destruct (values d); [by apply ret_inv in Hshape as [_ ->]|].
      destruct (textureShapeRC d) as [[rows cols]|]; [|done].
      by apply ret_inv in Hshape as [_ ->]. }
    destruct (NDArray_constructor_inv _ _ _ _ _ _ _ Hrun)
      as (d1 & Hd1 & _ & _ & _ & -> & ->).
    rewrite Hd in Hd1. injection Hd1 as <-.
    eexists d, _, d. split; [done|]. split; [by heap_simpl|]. done.
  - unfold Array2D_constructor in Hrun.
    apply bind_inv in Hrun as (u & h0 & Hlen & Hrun).
    apply assert_inv in Hlen as [_ ->].
    apply bind_inv in Hrun as (t0 & h1 & Hctor & Hrun).
    destruct (NDArray_constructor_inv _ _ _ _ _ _ _ Hctor)
      as (d & Hd & _ & _ & _ & -> & ->).
    erewrite bind_Ret in Hrun; [|eapply the_array_Some; by heap_simpl].
    erewrite bind_Ret in Hrun; [|eapply update_array_Some; by heap_simpl].
    apply ret_inv in Hrun as [-> ->].
    eexists d, _, d. split; [done|]. split; [by heap_simpl|]. done.
  - destruct (NDArray_constructor_inv _ _ _ _ _ _ _ Hrun)
      as (d & Hd & _ & _ & _ & -> & ->).
    eexists d, _, d. split; [done|]. split; [by heap_simpl|]. done.
Qed.

(** ** Strides *)

Lemma sizeFromShape_drop (shape : list Z) (k : nat) :
  (k < length shape)%nat ->
  sizeFromShape (drop k shape) = (shape !!! k) * sizeFromShape (drop (S k) shape).
Proof.
  revert k. induction shape as [|n shape IH]; intros k Hk; simpl in Hk; [lia|].
  destruct k as [|k]; simpl.
  - by rewrite drop_0.
  - apply IH. lia.
Qed.

Lemma strides_loop_length shape n st :
  length (strides_loop shape n st) = length st.
Proof.
  revert st. induction n as [|n IH]; intros st; simpl; [done|].
  by rewrite IH, length_insert.
Qed.

(** The loop invariant: the slots from [n] on hold their products, and the
    loop fills the slots below [n]. *)
Lemma strides_loop_products shape n st :
  (S n <= length st)%nat -> (length st < length shape)%nat ->
  (forall j, (n <= j < length st)%nat ->
     st !! j = Some (sizeFromShape (drop (S j) shape))) ->
  forall j, (j < length st)%nat ->
    strides_loop shape n st !! j = Some (sizeFromShape (drop (S j) shape)).
Proof.
  revert st. induction n as [|n IH]; intros st Hn Hlen Hinv j Hj; simpl.
  - apply Hinv. lia.
  - apply IH.
    + rewrite length_insert. lia.
    + by rewrite length_insert.
    + intros k Hk. rewrite length_insert in Hk.
      destruct (decide (k = n)) as [->|Hne].
      * rewrite list_lookup_insert_eq by lia. f_equal.
        rewrite (sizeFromShape_drop shape (S n)) by lia.
        rewrite (list_lookup_total_correct st (S n) _ (Hinv (S n) ltac:(lia))).
        lia.
      * rewrite list_lookup_insert_ne by done. apply Hinv. lia.
    + by rewrite length_insert.
Qed.

Lemma computeStrides_length shape :
  length (computeStrides shape) = (length shape - 1)%nat.
Proof.
  unfold computeStrides. destruct (Nat.ltb_spec (length shape) 2).
  - simpl. lia.
  - by rewrite strides_loop_length, length_insert, length_replicate.
Qed.

Lemma computeStrides_products shape i :
  (i < length shape - 1)%nat ->
  computeStrides shape !! i = Some (sizeFromShape (drop (S i) shape)).
Proof.
  intros Hi. unfold computeStrides.
  destruct (Nat.ltb_spec (length shape) 2) as [|Hdim]; [lia|].
  apply strides_loop_products.
  - rewrite length_insert, length_replicate. lia.
  - rewrite length_insert, length_replicate. lia.
  - intros j Hj. rewrite length_insert, length_replicate in Hj.
    assert (j = (length shape - 2)%nat) as -> by lia.
    rewrite list_lookup_insert_eq by (rewrite length_replicate; lia).
    f_equal.
    replace (S (length shape - 2)) with (length shape - 1)%nat by lia.
    rewrite (sizeFromShape_drop shape (length shape - 1)) by lia.
    rewrite drop_ge by lia. simpl. lia.
  - rewrite length_insert, length_replicate. lia.
Qed.

(** The table that the constructor's loop computes: empty below rank 2;
    from rank 2 on it has [rank - 1] entries, the last one is the last
    dimension, each earlier one is the next entry times the dimension at
    that next position, and entry [i] is the product of [shape[i+1..]]. *)
Lemma computeStrides_table (shape : list Z) :
  let rank := length shape in
  let strides := computeStrides shape in
  ((rank < 2)%nat -> strides = []) /\
  ((2 <= rank)%nat ->
     length strides = (rank - 1)%nat /\
     strides !! (rank - 2)%nat = shape !! (rank - 1)%nat /\
     (forall i, (i < rank - 2)%nat ->
        exists next dim,
          strides !! S i = Some next /\ shape !! S i = Some dim /\
          strides !! i = Some (next * dim)) /\
     (forall i, (i < rank - 1)%nat ->
        strides !! i = Some (sizeFromShape (drop (S i) shape)))).
Proof.
  intros rank strides. subst rank strides. split.
  - intros Hr. unfold computeStrides.
    by destruct (Nat.ltb_spec (length shape) 2); [|lia].
  - intros Hr. split; [apply computeStrides_length|]. split; [|split].
    + rewrite computeStrides_products by lia.
      replace (S (length shape - 2)) with (length shape - 1)%nat by lia.
      destruct (lookup_lt_is_Some_2 shape (length shape - 1)) as [n Hn]; [lia|].
      rewrite Hn. f_equal.
      rewrite (sizeFromShape_drop shape (length shape - 1)) by lia.
      rewrite (list_lookup_total_correct _ _ _ Hn).
      rewrite drop_ge by lia. simpl. lia.
    + intros i Hi.
      destruct (lookup_lt_is_Some_2 shape (S i)) as [n Hn]; [lia|].
      exists (sizeFromShape (drop (S (S i)) shape)), n.
      split; [apply computeStrides_products; lia|]. split; [done|].
      rewrite computeStrides_products by lia. f_equal.
      rewrite (sizeFromShape_drop shape (S i)) by lia.
      rewrite (list_lookup_total_correct _ _ _ Hn). lia.
    + intros i Hi. by apply computeStrides_products.
Qed.

(** The table is what a constructed tensor carries. *)
Lemma constructed_strides h c sh r dt t h' :
  NDArray_constructor c sh r dt h = (Ret t, h') ->
  exists o, arrays h' !! t = Some o /\ shape o = Some sh /\
            size o = sizeFromShape sh /\ strides o = computeStrides sh.
Proof.
  intros Hrun.
  destruct (NDArray_constructor_inv _ _ _ _ _ _ _ Hrun)
    as (d & _ & _ & _ & _ & -> & ->).
  eexists. split; [by heap_simpl|done].
Qed.

(** C8: the stride table computed at construction.  For every shape, the
    constructor (which every class runs) returns a tensor over a storage
    record that passes its checks, and the tensor that a construction
    returns has the shape and, in its [strides] field, this table: empty
    below rank 2; from rank 2 on [rank - 1] entries, the last one the last
    dimension, each earlier one the next entry times the dimension at that
    next position, so that entry [i] is the product of [shape[i+1..]]. *)
Theorem strides_table h c sh r dt :
  (forall d,
     datas h !! r = Some d ->
     values d <> None \/ texture d <> None ->
     texture d = None \/ textureShapeRC d <> None ->
     (forall v, values d = Some v -> ta_length v = sizeFromShape sh) ->
     exists t h', NDArray_constructor c sh r dt h = (Ret t, h')) /\
  (forall t h',
     NDArray_constructor c sh r dt h = (Ret t, h') ->
     exists o,
       arrays h' !! t = Some o /\ shape o = Some sh /\
       let rank := length sh in
       let strides := strides o in
       ((rank < 2)%nat -> strides = []) /\
       ((2 <= rank)%nat ->
          length strides = (rank - 1)%nat /\
          strides !! (rank - 2)%nat = sh !! (rank - 1)%nat /\
          (forall i, (i < rank - 2)%nat ->
             exists next dim,
               strides !! S i = Some next /\ sh !! S i = Some dim /\
               strides !! i = Some (next * dim)) /\
          (forall i, (i < rank - 1)%nat ->
             strides !! i = Some (sizeFromShape (drop (S i) sh))))).
Proof.
  split.
  - intros d Hd Hst Hrc Hlen. eexists _, _.
    by apply (NDArray_constructor_ok h c sh r d dt).
  - intros t h' Hrun.
    destruct (constructed_strides _ _ _ _ _ _ _ Hrun) as (o & Ho & Hs & _ & Hst).
    exists o. split; [done|]. split; [done|].
    rewrite Hst. apply computeStrides_table.
Qed.

(** ** Reshape *)

(** A shape without an implicit dimension is returned as it is. *)
Lemma inferFromImplicitShape_explicit (s : list Z) (n : Z) :
  valid_shape s -> inferFromImplicitShape s n = Ret s.
Proof.
  intros Hs. unfold inferFromImplicitShape.
  assert (filter (fun d => is_implicit d = true) s = []) as ->.
  { induction Hs as [|d s Hd Hs IH]; [done|].
    rewrite filter_cons_False; [done|].
    unfold is_implicit. destruct (Z.eqb_spec d (-1)); [lia|done]. }
  simpl. f_equal.
  generalize (n / sizeFromShape (filter (fun d => is_implicit d = false) s)).
  intros inferred.
  induction Hs as [|d s Hd Hs IH]; [done|].
  simpl. rewrite IH. f_equal.
  unfold is_implicit. destruct (Z.eqb_spec d (-1)); [lia|done].
Qed.

(** At most one implicit dimension is always resolved. *)
Lemma inferFromImplicitShape_resolves (s : list Z) (n : Z) :
  (length (filter (fun d => is_implicit d = true) s) <= 1)%nat ->
  exists resolved, inferFromImplicitShape s n = Ret resolved.
Proof.
  intros Hs. unfold inferFromImplicitShape.
  destruct (Nat.ltb_spec 1 (length (filter (fun d => is_implicit d = true) s)));
    [lia|eauto].
Qed.

(** The resolved shape is the tensor's own: [this] comes back. *)
Lemma reshape_same h t o s newShape :
  arrays h !! t = Some o -> shape o = Some s ->
  inferFromImplicitShape newShape (size o) = Ret s ->
  reshape t newShape h = (Ret t, h).
Proof.
  intros Ho Hs Hinf. unfold reshape.
  erewrite bind_Ret; [|by eapply the_array_Some].
  erewrite bind_Ret; [|unfold lift; by rewrite Hinf].
  erewrite bind_Ret; [|unfold lift; rewrite Hs; reflexivity].
  by rewrite bool_decide_true.
Qed.

(** The resolved shape is another one of the same size: a new tensor over
    the same storage record. *)
Lemma reshape_new h t o d newShape resolved :
  live h t o d ->
  inferFromImplicitShape newShape (size o) = Ret resolved ->
  shape o <> Some resolved ->
  sizeFromShape resolved = size o ->
  exists o' d',
    reshape t newShape h =
      (Ret (fresh (dom (arrays h))),
       mkHeap (<[fresh (dom (arrays h)) := o']> (arrays h))
         (<[data o := d']> (datas h)) (GPU h)) /\
    data o' = data o /\ dtype o' = None /\
    (exists s', shape o' = Some s' /\ size o' = sizeFromShape s' /\
                (length resolved <> 1%nat \/ values d <> None -> s' = resolved)) /\
    values d' = values d /\ texture d' = texture d /\
    (texture d = None -> d' = d).
Proof.
  intros [Ho Hd (s & Hs & Hsize) Hst Hrc Hlen] Hinf Hne Hsz.
  destruct (make_ok h resolved (data o) d None Hd Hst Hrc)
    as (o' & d' & Hmake & Hrest).
  { intros v Hv. rewrite (Hlen v Hv). done. }
  exists o', d'. split; [|done].
  unfold reshape.
  erewrite bind_Ret; [|by eapply the_array_Some].
  erewrite bind_Ret; [|unfold lift; by rewrite Hinf].
  erewrite bind_Ret; [|unfold lift; rewrite Hs; reflexivity].
  rewrite bool_decide_false by congruence.
  erewrite bind_Ret; [done|].
  unfold assert, lift. by rewrite Hsz, Z.eqb_refl.
Qed.

(** The resolved shape has another size: the assertion fails, and nothing
    has changed. *)
Lemma reshape_invalid h t o newShape resolved :
  arrays h !! t = Some o ->
  (exists s, shape o = Some s /\ size o = sizeFromShape s) ->
  inferFromImplicitShape newShape (size o) = Ret resolved ->
  sizeFromShape resolved <> size o ->
  reshape t newShape h = (Throw InvalidShapeError, h).
Proof.
  intros Ho (s & Hs & Hsize) Hinf Hsz. unfold reshape.
  erewrite bind_Ret; [|by eapply the_array_Some].
  erewrite bind_Ret; [|unfold lift; by rewrite Hinf].
  erewrite bind_Ret; [|unfold lift; rewrite Hs; reflexivity].
  rewrite bool_decide_false by congruence.
  erewrite bind_Throw; [done|].
  unfold assert, lift, assert_.
  destruct (Z.eqb_spec (size o) (sizeFromShape resolved)); [congruence|done].
Qed.

(** More than one implicit dimension: InvalidShapeError as well. *)
Lemma reshape_two_implicit h t o newShape :
  arrays h !! t = Some o ->
  (1 < length (filter (fun d => is_implicit d = true) newShape))%nat ->
  reshape t newShape h = (Throw InvalidShapeError, h).
Proof.
  intros Ho Hs. unfold reshape.
  erewrite bind_Ret; [|by eapply the_array_Some].
  erewrite bind_Throw; [done|].
  unfold lift, inferFromImplicitShape.
  by destruct (Nat.ltb_spec 1
                 (length (filter (fun d => is_implicit d = true) newShape)));
    [|lia].
Qed.

(** C3: for a tensor in good standing and a target shape with at most one
    implicit dimension, [reshape] succeeds exactly when the resolved shape
    has the tensor's size and throws InvalidShapeError otherwise; a [(6)]
    vector reshaped to [(-1, 2)] has shape [(3, 2)], and reshaping it to
    [(4, 2)] throws InvalidShapeError. *)
Theorem reshape_validity h t o d newShape :
  live h t o d ->
  (length (filter (fun n => is_implicit n = true) newShape) <= 1)%nat ->
  exists resolved,
    inferFromImplicitShape newShape (size o) = Ret resolved /\
    ((exists r h', reshape t newShape h = (Ret r, h')) <->
     sizeFromShape resolved = size o) /\
    (sizeFromShape resolved <> size o ->
     reshape t newShape h = (Throw InvalidShapeError, h)) /\
    (shape o = Some [6] ->
     (exists r h' o',
        reshape t [-1; 2] h = (Ret r, h') /\
        arrays h' !! r = Some o' /\ shape o' = Some [3; 2]) /\
     reshape t [4; 2] h = (Throw InvalidShapeError, h)).
Proof.
  intros Hlive Hone.
  destruct (inferFromImplicitShape_resolves newShape (size o) Hone)
    as [resolved Hinf].
  exists resolved. split; [done|].
  pose proof Hlive as [Ho Hd (s & Hs & Hsize) Hst Hrc Hlen].
  assert (sizeFromShape resolved <> size o ->
          reshape t newShape h = (Throw InvalidShapeError, h)) as Hbad.
  { intros Hsz. eapply reshape_invalid; eauto. }
  split; [|split; [done|]].
  - split.
    + intros (r & h' & Hrun).
      destruct (decide (sizeFromShape resolved = size o)) as [|Hsz]; [done|].
      rewrite (Hbad Hsz) in Hrun. done.
    + intros Hsz.
      destruct (decide (shape o = Some resolved)) as [Heq|Hne].
      * exists t, h. eapply reshape_same; eauto.
      * destruct (reshape_new _ _ _ _ _ _ Hlive Hinf Hne Hsz)
          as (o' & d' & Hrun & _).
        eauto.
  - intros H6. rewrite H6 in Hs. injection Hs as <-.
    rewrite sizeFromShape_singleton in Hsize.
    split.
    + assert (inferFromImplicitShape [-1; 2] (size o) = Ret [3; 2]) as Hinf'
        by (by rewrite Hsize).
      assert (shape o <> Some [3; 2]) as Hne by (by rewrite H6).
      assert (sizeFromShape [3; 2] = size o) as Hsz by (by rewrite Hsize).
      destruct (reshape_new h t o d [-1; 2] [3; 2] Hlive Hinf' Hne Hsz) as
        (o' & d' & Hrun & _ & _ & (s' & Hs' & _ & Hsame) & _).
      eexists _, _, o'. split; [exact Hrun|].
      split; [by heap_simpl|].
      rewrite Hs'. f_equal. apply Hsame. left. simpl. lia.
    + apply (reshape_invalid h t o [4; 2] [4; 2] Ho).
      * exists [6]. by rewrite sizeFromShape_singleton.
      * by rewrite Hsize.
      * by rewrite Hsize.
Qed.

(** C5: reshaping to a shape equal, element by element, to the tensor's own
    returns the very same tensor and leaves the whole store as it was. *)
Theorem reshape_identity h t o s newShape :
  arrays h !! t = Some o -> shape o = Some s -> valid_shape s ->
  newShape = s ->
  reshape t newShape h = (Ret t, h).
Proof.
  intros Ho Hs Hvalid ->.
  eapply reshape_same; eauto.
  by apply inferFromImplicitShape_explicit.
Qed.

(** C4: a reshape of a tensor in good standing to another shape of the same
    size gives a new tensor whose storage is the very record of the
    original, contents untouched; and once either of the two has been
    disposed, the host values and the texture of the other are gone too.
    (A disposal completes unless a texture is held while the backend is not
    initialised.) *)
Theorem reshape_shares_storage h t o d newShape resolved :
  live h t o d ->
  inferFromImplicitShape newShape (size o) = Ret resolved ->
  shape o <> Some resolved ->
  sizeFromShape resolved = size o ->
  exists r h' o' d',
    reshape t newShape h = (Ret r, h') /\ r <> t /\
    arrays h' !! t = Some o /\ arrays h' !! r = Some o' /\
    data o' = data o /\
    datas h' !! data o = Some d' /\
    values d' = values d /\ texture d' = texture d /\
    (texture d = None \/ GPU h <> None ->
     (exists h'' e,
        dispose t h' = (Ret tt, h'') /\ arrays h'' !! r = Some o' /\
        datas h'' !! data o' = Some e /\ values e = None /\ texture e = None) /\
     (exists h'' e,
        dispose r h' = (Ret tt, h'') /\ arrays h'' !! t = Some o /\
        datas h'' !! data o = Some e /\ values e = None /\ texture e = None)).
Proof.
  intros Hlive Hinf Hne Hsz.
  destruct (reshape_new _ _ _ _ _ _ Hlive Hinf Hne Hsz)
    as (o' & d' & Hrun & Hdata & _ & _ & Hv & Htex & _).
  destruct Hlive as [Ho Hd _ _ _ _].
  pose proof (fresh_array_ne _ _ _ Ho) as Hfresh.
  set (r := fresh (dom (arrays h))) in *.
  set (h' := mkHeap (<[r := o']> (arrays h)) (<[data o := d']> (datas h)) (GPU h))
    in *.
  assert (arrays h' !! t = Some o) as Ho1
    by (subst h'; simpl; by rewrite lookup_insert_ne).
  assert (arrays h' !! r = Some o') as Ho2
    by (subst h'; simpl; by rewrite lookup_insert_eq).
  assert (datas h' !! data o = Some d') as Hd1
    by (subst h'; simpl; by rewrite lookup_insert_eq).
  exists r, h', o', d'. repeat (split; [done|]).
  intros Hok.
  assert (texture d' = None \/ GPU h' <> None) as Hok'
    by (by rewrite Htex).
  split.
  - eexists _, _. split; [by apply (dispose_spec h' t o d')|].
    simpl. rewrite Hdata.
    rewrite lookup_insert_ne, lookup_insert_eq, lookup_insert_eq by done.
    done.
  - rewrite <- Hdata in Hd1.
    eexists _, _. split; [by apply (dispose_spec h' r o' d')|].
    simpl. rewrite Hdata.
    rewrite lookup_insert_ne, lookup_insert_ne, lookup_insert_eq by done.
    done.
Qed.

(** ** Disposal *)

(** [get] throws what [getValues] throws. *)
Lemma get_throws h t o locs e h' :
  arrays h !! t = Some o -> getValues t h = (Throw e, h') ->
  get t locs h = (Throw e, h').
Proof.
  intros Ho Hrun. unfold get.
  erewrite bind_Ret; [|by eapply the_array_Some].
  by erewrite bind_Throw.
Qed.

(** [get] reads the buffer that [getValues] delivers. *)
Lemma get_run h t o d a h1 locs :
  arrays h !! t = Some o -> datas h !! data o = Some d ->
  getValues t h = (Ret (Some a), h1) ->
  get t locs h = (Ret (ta_get a (offset o locs)), h1).
Proof.
  intros Ho Hd Hrun. unfold get.
  erewrite bind_Ret; [|by eapply the_array_Some].
  by rewrite (bind_Ret _ _ _ _ _ Hrun).
Qed.

(** Without host values and without a backend, [getValues] throws before
    it looks at anything else. *)
Lemma getValues_offline h t o d :
  arrays h !! t = Some o -> datas h !! data o = Some d ->
  values d = None -> GPU h = None ->
  getValues t h = (Throw UninitializedBackendError, h).
Proof.
  intros Ho Hd Hv Hg. unfold getValues.
  erewrite bind_Ret; [|by eapply this_data_Some].
  rewrite Hv. simpl.
  unfold bind at 1. unfold bind at 1. unfold bind at 1.
  unfold throwIfGPUNotInitialized. by rewrite Hg.
Qed.

(** What the download throws, [getValues] throws, before it has changed
    anything. *)
Lemma getValues_download_fails h t o d g rc e :
  arrays h !! t = Some o -> datas h !! data o = Some d ->
  values d = None -> GPU h = Some g -> textureShapeRC d = Some rc ->
  downloadMatrixFromTexture g (texture d) (fst rc) (snd rc) = Throw e ->
  getValues t h = (Throw e, h).
Proof.
  intros Ho Hd Hv Hg Hrc Hdl. unfold getValues.
  erewrite bind_Ret; [|by eapply this_data_Some].
  rewrite Hv. simpl. rewrite Hrc.
  unfold bind at 1. unfold bind at 1.
  unfold throwIfGPUNotInitialized. rewrite Hg.
  unfold bind at 1. simpl.
  unfold bind at 1. unfold lift. by rewrite Hdl.
Qed.

(** C7, as the code has it: a disposal that completes has cleared the
    shape, the host values and the texture, and has handed a held texture
    back to the manager; the layout is cleared with the texture, and a
    layout that was recorded without a texture stays.  No read checks for
    disposal.  Afterwards [getValues] and [get] throw
    UninitializedBackendError without a backend; with a backend they throw
    a TypeError from the missing layout, and where a layout stayed they
    hand the null texture to the backend's download and throw what it
    throws or return what it returns.  [equals] throws a TypeError when the
    two element-type tags are the same, and returns [false] when they
    differ. *)
Theorem disposed_reads h t o d :
  arrays h !! t = Some o -> datas h !! data o = Some d ->
  texture d = None \/ GPU h <> None ->
  exists h' o' d',
    dispose t h = (Ret tt, h') /\
    arrays h' !! t = Some o' /\ shape o' = None /\
    datas h' !! data o = Some d' /\
    values d' = None /\ texture d' = None /\
    textureShapeRC d' =
      (if texture d is Some _ then None else textureShapeRC d) /\
    (forall tex g, texture d = Some tex -> GPU h = Some g ->
       GPU h' = Some (releaseTexture g (Some tex) (textureShapeRC d))) /\
    (texture d = None -> GPU h' = GPU h) /\
    (GPU h' = None ->
       getValues t h' = (Throw UninitializedBackendError, h') /\
       forall locs, get t locs h' = (Throw UninitializedBackendError, h')) /\
    (forall g, GPU h' = Some g ->
       match textureShapeRC d' with
       | None =>
           getValues t h' = (Throw TypeError, h') /\
           forall locs, get t locs h' = (Throw TypeError, h')
       | Some rc =>
           match downloadMatrixFromTexture g None (fst rc) (snd rc) with
           | Throw e =>
               getValues t h' = (Throw e, h') /\
               forall locs, get t locs h' = (Throw e, h')
           | Ret v =>
               exists h'',
                 getValues t h' = (Ret (Some v), h'') /\
                 forall locs,
                   get t locs h' = (Ret (ta_get v (offset o' locs)), h'')
           end
       end) /\
    (forall u p, arrays h' !! u = Some p ->
       (dtype p = dtype o ->
          equals t u h' = (Throw TypeError, h') /\
          equals u t h' = (Throw TypeError, h')) /\
       (dtype p <> dtype o ->
          equals t u h' = (Ret false, h') /\
          equals u t h' = (Ret false, h'))).
Proof.
  intros Ho Hd Hok.
  eexists _, (set_shape None o),
    (mkData None None (if texture d is Some _ then None else textureShapeRC d)).
  split; [by apply dispose_spec|].
  match goal with |- context [arrays ?x !! t = _] => set (h' := x) end.
  remember (if texture d is Some _ then None else textureShapeRC d) as rc'
    eqn:Erc.
  assert (arrays h' !! t = Some (set_shape None o)) as Ho'
    by (subst h'; simpl; by rewrite lookup_insert_eq).
  assert (datas h' !! data (set_shape None o) = Some (mkData None None rc'))
    as Hd' by (subst h'; simpl; by rewrite lookup_insert_eq).
  split; [done|]. split; [done|]. split; [done|].
  split; [done|]. split; [done|]. split; [done|].
  split.
  { intros tex g Htex Hg. subst h'. simpl. by rewrite Htex, Hg. }
  split.
  { intros Htex. subst h'. simpl. by rewrite Htex. }
  split.
  { intros Hg.
    assert (getValues t h' = (Throw UninitializedBackendError, h')) as Hgv
      by (by eapply getValues_offline).
    split; [done|]. intros locs. by eapply get_throws. }
  split.
  { intros g Hg. simpl. destruct rc' as [rc|].
    - destruct (downloadMatrixFromTexture g None (fst rc) (snd rc))
        as [v|e] eqn:Hdl.
      + eexists. split.
        * by eapply getValues_download.
        * intros locs. eapply get_run; [done..|].
          by eapply getValues_download.
      + assert (getValues t h' = (Throw e, h')) as Hgv
          by (by eapply getValues_download_fails).
        split; [done|]. intros locs. by eapply get_throws.
    - assert (getValues t h' = (Throw TypeError, h')) as Hgv.
      { erewrite getValues_no_storage by done. by rewrite Hg. }
      split; [done|]. intros locs. by eapply get_throws. }
  intros u p Hp. split.
  - intros Hdt. split; unfold equals.
    + erewrite bind_Ret; [|by eapply the_array_Some].
      erewrite bind_Ret; [|by eapply the_array_Some].
      simpl. rewrite bool_decide_true by done.
      by erewrite bind_Throw.
    + erewrite bind_Ret; [|by eapply the_array_Some].
      erewrite bind_Ret; [|by eapply the_array_Some].
      simpl. rewrite bool_decide_true by done.
      erewrite bind_Throw; [done|].
      unfold lift, arraysEqual. by destruct (shape p).
  - intros Hdt. split; unfold equals.
    + erewrite bind_Ret; [|by eapply the_array_Some].
      erewrite bind_Ret; [|by eapply the_array_Some].
      simpl. by rewrite bool_decide_false by done.
    + erewrite bind_Ret; [|by eapply the_array_Some].
      erewrite bind_Ret; [|by eapply the_array_Some].
      simpl. by rewrite bool_decide_false by done.
Qed.

(** ** Storage forms *)

(** C2, as the code has it: construction, on any store, leaves at least
    one storage form (it does not refuse two); a completed [getTexture]
    leaves the texture present and a completed [getValues] leaves the host
    values present; an upload copies the host values into an acquired
    texture and nulls them, a download copies out, hands the texture back
    to the manager and nulls the texture and its layout; where the form
    asked for is there already nothing changes; and storage that holds
    exactly one form holds exactly one form after either. *)
Theorem storage_forms :
  (forall h c sh r dt t h',
     NDArray_constructor c sh r dt h = (Ret t, h') ->
     exists o d,
       arrays h' !! t = Some o /\ datas h' !! data o = Some d /\
       (values d <> None \/ texture d <> None)) /\
  (forall h t o d,
     arrays h !! t = Some o -> datas h !! data o = Some d ->
     (forall preferred r h',
        getTexture t preferred h = (Ret r, h') ->
        exists d',
          arrays h' !! t = Some o /\ datas h' !! data o = Some d' /\
          texture d' = r /\ texture d' <> None /\
          (texture d = None ->
             values d' = None /\
             exists g rc tex g1 g2,
               GPU h = Some g /\ acquireTexture g rc = Ret (tex, g1) /\
               uploadMatrixToTexture g1 tex (fst rc) (snd rc) (values d) =
                 Ret g2 /\
               r = Some tex /\ textureShapeRC d' = Some rc /\
               GPU h' = Some g2) /\
          (texture d <> None -> h' = h) /\
          (one_form d -> one_form d')) /\
     (forall r h',
        getValues t h = (Ret r, h') ->
        exists d',
          arrays h' !! t = Some o /\ datas h' !! data o = Some d' /\
          values d' = r /\ values d' <> None /\
          (values d = None ->
             texture d' = None /\ textureShapeRC d' = None /\
             exists g rc v,
               GPU h = Some g /\ textureShapeRC d = Some rc /\
               downloadMatrixFromTexture g (texture d) (fst rc) (snd rc) =
                 Ret v /\
               r = Some v /\
               GPU h' =
                 Some (releaseTexture g (texture d) (textureShapeRC d))) /\
          (values d <> None -> h' = h) /\
          (one_form d -> one_form d'))).
Proof.
  split.
  - intros h c sh r dt t h' Hrun.
    destruct (NDArray_constructor_inv _ _ _ _ _ _ _ Hrun)
      as (d0 & Hd0 & Hst & _ & _ & -> & ->).
    eexists _, d0. split; [by heap_simpl|]. by split.
  - intros h t o d Ho Hd. split.
    + intros preferred r h' Hrun.
      destruct (getTexture_inv _ _ _ _ _ _ _ Ho Hd Hrun)
        as [(-> & Htex & ->)
           |(g & rc & tex & g1 & g2 & Htex & Hg & _ & Ha & Hu & -> & ->)].
      * exists d. repeat split; try done.
      * eexists. split; [done|]. split; [by heap_simpl|]. simpl.
        split; [done|]. split; [done|]. split; [|split].
        -- intros _. split; [done|]. by exists g, rc, tex, g1, g2.
        -- intros Hne. by destruct Hne.
        -- intros _. by right.
    + intros r h' Hrun.
      destruct (getValues_inv _ _ _ _ _ _ Ho Hd Hrun)
        as [(-> & Hv & ->)|(g & rc & v & Hv & Hg & Hrc & Hdl & -> & ->)].
      * exists d. repeat split; try done.
      * eexists. split; [done|]. split; [by heap_simpl|]. simpl.
        split; [done|]. split; [done|]. split; [|split].
        -- intros _. split; [done|]. split; [done|].
           exists g, rc, v. by rewrite Hrc.
        -- intros Hne. by destruct Hne.
        -- intros _. by left.
Qed.

(** ** Construction *)

(** C6, as the code has it: a texture without its layout is refused with
    IncompleteStorageError; host values of the wrong length are refused
    with ShapeMismatchError once that first check has passed; a layout
    without a texture is not looked at, so a record with neither host
    values nor a texture is refused for having no storage, layout or not;
    and a record with a storage form, a layout for its texture and host
    values of the right length is accepted. *)
Theorem construction_checks h c sh r d dt :
  datas h !! r = Some d ->
  (texture d <> None -> textureShapeRC d = None ->
   NDArray_constructor c sh r dt h = (Throw IncompleteStorageError, h)) /\
  (forall v, values d = Some v -> ta_length v <> sizeFromShape sh ->
     texture d = None \/ textureShapeRC d <> None ->
     NDArray_constructor c sh r dt h = (Throw ShapeMismatchError, h)) /\
  (values d = None -> texture d = None ->
   NDArray_constructor c sh r dt h = (Throw NoStorageError, h)) /\
  (values d <> None \/ texture d <> None ->
   texture d = None \/ textureShapeRC d <> None ->
   (forall v, values d = Some v -> ta_length v = sizeFromShape sh) ->
   exists t h' o,
     NDArray_constructor c sh r dt h = (Ret t, h') /\
     arrays h !! t = None /\ arrays h' !! t = Some o /\
     shape o = Some sh /\ size o = sizeFromShape sh /\
     data o = r /\ dtype o = dt /\
     datas h' = datas h /\ live h' t o d).
Proof.
  intros Hd. split; [|split; [|split]].
  - intros. by eapply NDArray_constructor_incomplete.
  - intros. by eapply NDArray_constructor_mismatch.
  - intros. by eapply NDArray_constructor_no_storage.
  - intros Hst Hrc Hlen.
    eexists _, _, _. split; [by eapply NDArray_constructor_ok|].
    split; [apply fresh_array_None|].
    split; [by heap_simpl|]. simpl.
    repeat split; try done.
    + by heap_simpl.
    + by exists sh.
Qed.

(** ** Migration *)

(** C1: on a backend that returns what was uploaded, a tensor with host
    values [v] whose [getTexture] has completed gives [v] back from
    [getValues]; when there was no texture before, the host values were
    null in between and the texture and its layout are null afterwards. *)
Theorem upload_download_roundtrip h t o d v preferred tex h1 :
  lossless ->
  arrays h !! t = Some o -> datas h !! data o = Some d ->
  values d = Some v ->
  getTexture t preferred h = (Ret tex, h1) ->
  exists h2 d2,
    getValues t h1 = (Ret (Some v), h2) /\
    datas h2 !! data o = Some d2 /\ values d2 = Some v /\
    (texture d = None ->
     tex <> None /\
     (exists d1, datas h1 !! data o = Some d1 /\
                 values d1 = None /\ texture d1 = tex) /\
     texture d2 = None /\ textureShapeRC d2 = None).
Proof.
  intros Hback Ho Hd Hv Hup.
  destruct (getTexture_inv _ _ _ _ _ _ _ Ho Hd Hup)
    as [(-> & Htex & ->)
       |(g & rc & tx & g1 & g2 & Htex & Hg & Hl & Ha & Hu & -> & ->)].
  - exists h, d. split; [by eapply getValues_host|]. done.
  - rewrite Hv in Hu. apply Hback in Hu.
    eexists _, _. split.
    { eapply getValues_download; [done|by heap_simpl|done..]. }
    split; [by heap_simpl|]. split; [done|].
    intros _. split; [done|]. split; [|done].
    eexists. split; [by heap_simpl|done].
Qed.

(** ** Factories *)

Lemma sizeFromShape_nonneg (s : list Z) : valid_shape s -> 0 <= sizeFromShape s.
Proof.
  induction 1 as [|n s Hn Hs IH]; unfold sizeFromShape in *; simpl; lia.
Qed.

(** C10: [zeros], for every shape of the data model and every tag, and
    [like], for every host-resident tensor in good standing, build a tensor
    that carries the tag it was given (or the other tensor's) over a host
    buffer that is a [Float32Array]; every [zeros] and every [like] that
    returns at all has done so; and a [Float32Array] is not the buffer type
    of a tag other than ['float32'], so tag and buffer type diverge. *)
Theorem factories_allocate_float32 :
  (forall h sh dt,
     valid_shape sh ->
     exists t h' o d a,
       zeros sh dt h = (Ret t, h') /\
       arrays h' !! t = Some o /\ dtype o = dt /\
       datas h' !! data o = Some d /\ values d = Some a /\
       is_Float32Array a = true /\
       ta_elems a = replicate (Z.to_nat (sizeFromShape sh)) 0) /\
  (forall h another o d v,
     live h another o d -> values d = Some v ->
     exists t h' o' d' a,
       like fround another h = (Ret t, h') /\
       arrays h' !! t = Some o' /\ dtype o' = dtype o /\
       datas h' !! data o' = Some d' /\ values d' = Some a /\
       is_Float32Array a = true /\
       ta_elems a = map fround (ta_elems v)) /\
  (forall h sh dt another t h',
     zeros sh dt h = (Ret t, h') \/
     like fround another h = (Ret t, h') /\
     (exists o, arrays h !! another = Some o /\ dtype o = dt) ->
     exists o' d' a,
       arrays h' !! t = Some o' /\ dtype o' = dt /\
       datas h' !! data o' = Some d' /\ values d' = Some a /\
       is_Float32Array a = true) /\
  (forall k elems, k <> K_float32 -> is_Float32Array (DataType k elems) = false).
Proof.
  split; [|split; [|split]].
  - intros h sh dt Hsh.
    pose proof (sizeFromShape_nonneg sh Hsh) as Hn.
    set (a := Float32Array (replicate (Z.to_nat (sizeFromShape sh)) 0)).
    set (r := fresh (dom (datas h))).
    set (h1 := mkHeap (arrays h) (<[r := mkData (Some a) None None]> (datas h))
                 (GPU h)).
    destruct (make_ok h1 sh r (mkData (Some a) None None) dt)
      as (o' & d' & Hmake & Hdata & Hdt & _ & Hv & _ & _).
    { subst h1. simpl. by rewrite lookup_insert_eq. }
    { by left. }
    { by left. }
    { intros v [= <-]. subst a. unfold ta_length. simpl.
      rewrite length_replicate. lia. }
    eexists _, _, o', d', a. split.
    { unfold zeros.
      erewrite bind_Ret.
      2:{ unfold new_Float32Array.
          erewrite bind_Ret; [reflexivity|].
          unfold assert, lift.
          by destruct (Z.leb_spec 0 (sizeFromShape sh)); [|lia]. }
      erewrite bind_Ret; [|reflexivity].
      exact Hmake. }
    split; [by heap_simpl|]. split; [done|].
    split; [rewrite Hdata; by heap_simpl|]. done.
  - intros h another o d v [Ho Hd (s & Hs & Hsize) Hst Hrc Hlen] Hv.
    set (a := Float32Array (map fround (ta_elems v))).
    set (r := fresh (dom (datas h))).
    set (h1 := mkHeap (arrays h) (<[r := mkData (Some a) None None]> (datas h))
                 (GPU h)).
    destruct (make_ok h1 s r (mkData (Some a) None None) (dtype o))
      as (o' & d' & Hmake & Hdata & Hdt & _ & Hv' & _ & _).
    { subst h1. simpl. by rewrite lookup_insert_eq. }
    { by left. }
    { by left. }
    { intros v' [= <-]. subst a. unfold ta_length. simpl.
      rewrite length_map, <- Hsize. by apply Hlen. }
    eexists _, _, o', d', a. split.
    { unfold like.
      erewrite bind_Ret; [|by eapply getValues_host].
      erewrite bind_Ret; [|by eapply the_array_Some].
      erewrite bind_Ret; [|reflexivity].
      rewrite Hs. exact Hmake. }
    split; [by heap_simpl|]. split; [done|].
    split; [rewrite Hdata; by heap_simpl|]. done.
  - intros h sh dt another t h' [Hrun|[Hrun (o & Ho & Hdt)]].
    + unfold zeros in Hrun.
      apply bind_inv in Hrun as (a & h0 & Hnew & Hrun).
      unfold new_Float32Array in Hnew.
      apply bind_inv in Hnew as (u & h00 & _ & Hnew).
      apply ret_inv in Hnew as [-> _].
      apply bind_inv in Hrun as (r & h1 & Hdata & Hrun).
      injection Hdata as <- <-.
      destruct (make_inv _ _ _ _ _ _ Hrun)
        as (d & o' & d' & Hd & Ho' & Hr & Hdt' & Hd' & Hv & _).
      simpl in Hd. rewrite lookup_insert_eq in Hd. injection Hd as <-.
      exists o', d', (Float32Array (replicate (Z.to_nat (sizeFromShape sh)) 0)).
      rewrite Hr. done.
    + unfold like in Hrun.
      apply bind_inv in Hrun as (vs & h0 & Hvs & Hrun).
      assert (arrays h0 = arrays h) as Harr.
      { destruct (datas h !! data o) as [d|] eqn:Hd.
        - destruct (getValues_inv _ _ _ _ _ _ Ho Hd Hvs)
            as [(_ & _ & ->)|(g & rc & v & _ & _ & _ & _ & _ & ->)]; done.
        - unfold getValues in Hvs.
          apply bind_inv in Hvs as (d & h00 & Hd' & _).
          unfold this_data in Hd'.
          erewrite bind_Ret in Hd'; [|by eapply the_array_Some].
          apply the_data_inv in Hd' as [Hd' _]. congruence. }
      erewrite bind_Ret in Hrun;
        [|eapply the_array_Some; by rewrite Harr].
      apply bind_inv in Hrun as (r & h1 & Hdata & Hrun).
      injection Hdata as <- <-.
      destruct (shape o) as [s|]; [|done].
      destruct (make_inv _ _ _ _ _ _ Hrun)
        as (d & o' & d' & Hd & Ho' & Hr & Hdt' & Hd' & Hv & _).
      simpl in Hd. rewrite lookup_insert_eq in Hd. injection Hd as <-.
      exists o', d', (Float32Array_from fround (ta_elems <$> vs)).
      rewrite Hr. repeat (split; [done || congruence|]).
      by destruct vs.
  - intros [] elems Hk; done.
Qed.

(** ** Matrix addressing *)

(** [Array2D.constructor] on storage that fits a two-dimensional shape. *)
Lemma Array2D_constructor_ok h sh r d dt :
  length sh = 2%nat ->
  datas h !! r = Some d ->
  values d <> None \/ texture d <> None ->
  texture d = None \/ textureShapeRC d <> None ->
  (forall v, values d = Some v -> ta_length v = sizeFromShape sh) ->
  Array2D_constructor sh r dt h =
    (Ret (fresh (dom (arrays h))),
     mkHeap
       (<[fresh (dom (arrays h)) :=
            mkNDArray C_Array2D (Some sh) (sizeFromShape sh) (computeStrides sh)
              r dt (computeStrides sh !! 0%nat)]> (arrays h))
       (datas h) (GPU h)).
Proof.
  intros Hsh Hd Hst Hrc Hlen. unfold Array2D_constructor.
  erewrite bind_Ret; [|unfold assert, lift; by rewrite Hsh].
  erewrite bind_Ret; [|by eapply NDArray_constructor_ok].
  erewrite bind_Ret; [|eapply the_array_Some; by heap_simpl].
  erewrite bind_Ret; [|eapply update_array_Some; by heap_simpl].
  by heap_simpl.
Qed.

(** C9: the matrix of shape [(2,3)] built from the flat values
    [1,2,3,4,5,6], given as numbers or as a [Float32Array], addresses
    [row * 3 + col] through its cached row stride;
    [get(1,2)] returns [6], and after [set(9,0,0)], [get(0,0)] returns [9].
    (The values are integers a [Float32Array] stores exactly.) *)
Theorem matrix_scenario h dt input :
  (forall z, Z.abs z <= 2 ^ 24 -> fround z = z) ->
  input = AD_flat [1; 2; 3; 4; 5; 6] \/
  input = AD_Float32Array [1; 2; 3; 4; 5; 6] ->
  exists m h1 o,
    Array2D_new fround [2; 3] input dt h = (Ret m, h1) /\
    arrays h1 !! m = Some o /\ stride0 o = Some 3 /\
    (forall i j, offset o [i; j] = Num (3 * i + j)) /\
    get m [1; 2] h1 = (Ret (Num 6), h1) /\
    exists h2,
      set fround m 9 [0; 0] h1 = (Ret tt, h2) /\
      get m [0; 0] h2 = (Ret (Num 9), h2).
Proof.
  intros Hf Hinput.
  assert (toTypedArray fround input = Float32Array [1; 2; 3; 4; 5; 6]) as Hvals.
  { destruct Hinput as [-> | ->]; [|done].
    simpl. rewrite !Hf by (vm_compute; discriminate). done. }
  assert (fround 9 = 9) as H9 by (apply Hf; vm_compute; discriminate).
  set (a := Float32Array [1; 2; 3; 4; 5; 6]).
  set (r := fresh (dom (datas h))).
  set (m := fresh (dom (arrays h))).
  set (o := mkNDArray C_Array2D (Some [2; 3]) 6 [3] r dt (Some 3)).
  set (h1 := mkHeap (<[m := o]> (arrays h))
               (<[r := mkData (Some a) None None]> (datas h)) (GPU h)).
  assert (arrays h1 !! m = Some o) as Ho by (subst h1; by heap_simpl).
  assert (datas h1 !! data o = Some (mkData (Some a) None None)) as Hd
    by (subst h1; simpl; by heap_simpl).
  exists m, h1, o. split.
  { unfold Array2D_new. rewrite Hvals.
    erewrite bind_Ret; [|reflexivity].
    erewrite Array2D_constructor_ok;
      [reflexivity|done|by heap_simpl|by left|by left|].
    by intros v [= <-]. }
  split; [done|]. split; [done|]. split; [done|].
  split.
  { unfold get.
    erewrite bind_Ret; [|by eapply the_array_Some].
    erewrite bind_Ret; [|by eapply getValues_host].
    done. }
  eexists. split.
  { unfold set.
    erewrite bind_Ret; [|by eapply the_array_Some].
    erewrite bind_Ret; [|by eapply getValues_host].
    by eapply update_this_data_Some. }
  unfold get.
  erewrite bind_Ret; [|eapply the_array_Some; by heap_simpl].
  erewrite bind_Ret;
    [|eapply getValues_host; [by heap_simpl|simpl; by heap_simpl|done]].
  simpl. unfold ta_convert. simpl. by rewrite H9.
Qed.

(** * More properties of the code *)

(** ** Offsets and locations *)

Lemma in_bounds_length s locs : in_bounds s locs -> length locs = length s.
Proof. apply Forall2_length. Qed.

Lemma in_bounds_positive s locs : in_bounds s locs -> 0 < sizeFromShape s.
Proof.
  unfold in_bounds. induction 1 as [|l n locs s Hl Hrest IH];
    unfold sizeFromShape in *; simpl; [lia|nia].
Qed.

Lemma rowMajor_cons n s l locs :
  rowMajor (n :: s) (l :: locs) = l * sizeFromShape s + rowMajor s locs.
Proof. reflexivity. Qed.

(** An in-bounds location has its row-major offset inside the buffer. *)
Lemma rowMajor_bounds s locs :
  in_bounds s locs -> 0 <= rowMajor s locs < sizeFromShape s.
Proof.
  unfold in_bounds. induction 1 as [|l n locs s Hl Hrest IH].
  - unfold sizeFromShape. simpl. lia.
  - pose proof (in_bounds_positive _ _ Hrest) as Hpos.
    simpl. change (sizeFromShape (n :: s)) with (n * sizeFromShape s). nia.
Qed.

Lemma computeStrides_lookup s st i :
  st = computeStrides s -> (i < length s - 1)%nat ->
  st !! i = Some (sizeFromShape (drop (S i) s)).
Proof. intros ->. apply computeStrides_products. Qed.

(** The loop of [locToIndex], run over strides that are the products of
    the trailing dimensions, adds up the row-major offset. *)
Lemma locToIndex_fold (s : list Z) : forall (st ls : list Z) (acc : Z),
  s <> [] -> length ls = length s ->
  (forall i, (i < length s - 1)%nat ->
     st !! i = Some (sizeFromShape (drop (S i) s))) ->
  foldl (fun index i =>
           js_add index (js_mul (js_of (st !! i)) (js_of (ls !! i))))
        (Num acc) (seq 0 (length s - 1)) =
  Num (acc + rowMajor s ls - default 0 (last ls)).
Proof.
  induction s as [|n s IH]; intros st ls acc Hne Hlen Hst; [done|].
  destruct ls as [|l ls]; [done|].
  destruct s as [|m s].
  - destruct ls; [|done]. simpl. f_equal. unfold sizeFromShape. simpl. lia.
  - destruct ls as [|l' ls]; [done|].
    pose proof (Hst 0%nat ltac:(simpl; lia)) as H0.
    destruct st as [|x st]; [done|]. simpl in H0. injection H0 as ->.
    replace (length (n :: m :: s) - 1)%nat with (S (length (m :: s) - 1))
      by (simpl; lia).
    rewrite <- cons_seq, <- fmap_S_seq.
    cbn [foldl lookup list_lookup js_add js_mul js_of].
    rewrite foldl_fmap.
    etransitivity.
    { apply (IH st (l' :: ls) (acc + sizeFromShape (m :: s) * l)); [done| |].
      - simpl in *. lia.
      - intros i Hi. apply (Hst (S i)). simpl in *. lia. }
    f_equal. cbn [rowMajor]. simpl last. lia.
Qed.

Lemma NDArray_locToIndex_rowMajor o s locs :
  strides o = computeStrides s -> s <> [] -> length locs = length s ->
  NDArray_locToIndex o locs = Num (rowMajor s locs).
Proof.
  intros Hst Hne Hlen. unfold NDArray_locToIndex.
  destruct (last locs) as [z|] eqn:Hlast.
  2:{ apply last_None in Hlast. subst locs. destruct s; done. }
  simpl js_of.
  rewrite Hlen, (locToIndex_fold s (strides o) locs z Hne Hlen).
  - rewrite Hlast. simpl. f_equal. lia.
  - intros i Hi. by apply computeStrides_lookup.
Qed.

(** Every class addresses the row-major offset. *)
Lemma offset_rowMajor o s locs :
  built_for o s -> length locs = length s ->
  offset o locs = Num (rowMajor s locs).
Proof.
  intros (Hs & Hsize & Hst & Hcls) Hlen. unfold offset.
  destruct (cls o).
  - apply NDArray_locToIndex_rowMajor; [done| |done].
    intros ->. simpl in Hcls. lia.
  - subst s. by destruct locs.
  - destruct s as [|n [|]]; try done.
    destruct locs as [|l [|]]; try done.
    simpl. f_equal. unfold sizeFromShape. simpl. lia.
  - destruct Hcls as [Hlen2 ->].
    destruct s as [|n [|m [|]]]; try done.
    destruct locs as [|i [|j [|]]]; try done.
    simpl. f_equal. unfold sizeFromShape. simpl. lia.
Qed.


Lemma sizeFromShape_positive (s : list Z) :
  Forall (fun n => 0 < n) s -> 0 < sizeFromShape s.
Proof.
  induction 1 as [|n s Hn Hs IH]; unfold sizeFromShape in *; simpl; [lia|nia].
Qed.

(** The loop of [indexToLoc] over shifted indices works on the tails. *)
Lemma indexToLoc_step_shift (x : Z) (st : list Z) (idxs : list nat) :
  forall (a : option Z) (locs : list (option Z)) (index : option Z),
    foldl (indexToLoc_step (x :: st)) (a :: locs, index) (S <$> idxs) =
    (a :: fst (foldl (indexToLoc_step st) (locs, index) idxs),
     snd (foldl (indexToLoc_step st) (locs, index) idxs)).
Proof.
  induction idxs as [|i idxs IH]; intros a locs index; [done|].
  cbn [fmap list_fmap foldl]. unfold indexToLoc_step at 2 4 6. cbn.
  apply IH.
Qed.

Lemma indexToLoc_step_first (x : Z) (st : list Z) (a : option Z)
    (locs : list (option Z)) (index : Z) :
  x <> 0 ->
  indexToLoc_step (x :: st) (a :: locs, Some index) 0 =
    (Some (index / x) :: locs, Some (index - index / x * x)).
Proof.
  intros Hx. unfold indexToLoc_step. simpl.
  by destruct (Z.eqb_spec x 0).
Qed.

(** What the generic [indexToLoc] computes, over strides that are the
    products of positive trailing dimensions: a location whose row-major
    offset is the index, which is the in-bounds location of that offset
    when there is one, and is in bounds when the index is in the buffer. *)
Lemma indexToLoc_fold (s : list Z) :
  forall (st : list Z) (init : list (option Z)) (index : Z),
    s <> [] -> length init = length s ->
    (forall i, (i < length s - 1)%nat ->
       st !! i = Some (sizeFromShape (drop (S i) s))) ->
    Forall (fun n => 0 < n) (tail s) ->
    exists ls,
      length ls = length s /\ rowMajor s ls = index /\
      <[(length s - 1)%nat :=
          snd (foldl (indexToLoc_step st) (init, Some index)
                 (seq 0 (length s - 1)))]>
        (fst (foldl (indexToLoc_step st) (init, Some index)
                (seq 0 (length s - 1)))) = Some <$> ls /\
      (forall ls0, in_bounds s ls0 -> index = rowMajor s ls0 -> ls = ls0) /\
      (Forall (fun n => 0 < n) s -> 0 <= index < sizeFromShape s ->
       in_bounds s ls).
Proof.
  induction s as [|n s IH]; intros st init index Hne Hlen Hst Hpos; [done|].
  destruct init as [|a init]; [done|].
  destruct s as [|m s].
  - destruct init; [|done].
    exists [index]. simpl. split; [done|].
    split; [unfold sizeFromShape; simpl; lia|]. split; [done|]. split.
    + intros ls0 Hb ->. inversion Hb as [|l0 n0 ls0' s0 Hl0 Hrest]; subst.
      inversion Hrest; subst. simpl. f_equal. unfold sizeFromShape. simpl. lia.
    + intros Hn Hidx. unfold sizeFromShape in Hidx. simpl in Hidx.
      repeat constructor; lia.
  - pose proof (Hst 0%nat ltac:(simpl; lia)) as H0.
    destruct st as [|x st]; [done|].
    assert (x = sizeFromShape (m :: s)) as ->
      by (simpl in H0; injection H0 as H0; exact H0).
    clear H0.
    pose proof (sizeFromShape_positive (m :: s) Hpos) as Hsz.
    remember (sizeFromShape (m :: s)) as sz eqn:Heqsz.
    replace (length (n :: m :: s) - 1)%nat with (S (length (m :: s) - 1))
      by (simpl; lia).
    rewrite <- cons_seq, <- fmap_S_seq. cbn [foldl].
    rewrite indexToLoc_step_first by lia.
    rewrite indexToLoc_step_shift. cbn [fst snd].
    destruct (IH st init (index - index / sz * sz)) as
      (ls & Hlen' & Hrm & Hres & Huniq & Hin).
    + done.
    + simpl in *. lia.
    + intros i Hi. apply (Hst (S i)). simpl in *. lia.
    + simpl in Hpos. by inversion Hpos.
    + exists (index / sz :: ls). split; [simpl; by rewrite Hlen'|]. split.
      { rewrite rowMajor_cons, <- Heqsz, Hrm. lia. }
      split.
      { cbn [fmap list_fmap]. simpl. f_equal. exact Hres. }
      split.
      * intros ls0 Hb Hidx.
        inversion Hb as [|l0 n0 ls0' s0 Hl0 Hrest]; subst ls0 n0 s0.
        pose proof (rowMajor_bounds _ _ Hrest) as Hrb.
        rewrite rowMajor_cons, <- Heqsz in Hidx. rewrite <- Heqsz in Hrb.
        assert (index / sz = l0) as Hq.
        { rewrite Hidx, Z.div_add_l by lia.
          rewrite Z.div_small by lia. lia. }
        rewrite Hq. f_equal. apply Huniq; [done|]. rewrite Hq. lia.
      * intros Hall Hidx.
        change (sizeFromShape (n :: m :: s)) with (n * sizeFromShape (m :: s))
          in Hidx.
        rewrite <- Heqsz in Hidx.
        pose proof (Z.mod_pos_bound index sz Hsz) as Hmod.
        pose proof (Z.div_mod index sz ltac:(lia)) as Hdm.
        constructor.
        -- split; [apply Z.div_pos; lia|].
           apply Z.div_lt_upper_bound; lia.
        -- apply Hin; [by inversion Hall|]. lia.
Qed.


Lemma in_bounds_dims_positive s locs :
  in_bounds s locs -> Forall (fun n => 0 < n) s.
Proof.
  unfold in_bounds. induction 1 as [|l n locs s Hl Hrest IH];
    constructor; [lia|done].
Qed.

(** What a completed [make] built is an object for its shape; only a
    vector takes its shape from the storage. *)
Lemma make_built h sh r dt t h' :
  make sh r dt h = (Ret t, h') ->
  exists o' s',
    arrays h' !! t = Some o' /\ built_for o' s' /\ data o' = r /\
    (length sh <> 1%nat -> s' = sh).
Proof.
  intros Hrun.
  destruct sh as [|a [|b [|c rest]]]; unfold make in Hrun; cbn [length] in Hrun.
  - unfold Scalar_constructor in Hrun.
    apply bind_inv in Hrun as (d & h0 & _ & Hrun).
    apply bind_inv in Hrun as (u & h1 & _ & Hrun).
    destruct (NDArray_constructor_inv _ _ _ _ _ _ _ Hrun)
      as (d1 & _ & _ & _ & _ & -> & ->).
    eexists _, []. split; [by heap_simpl|]. done.
  - unfold Array1D_constructor in Hrun.
    apply bind_inv in Hrun as (d & h0 & _ & Hrun).
    apply bind_inv in Hrun as (s & h1 & Hshape & Hrun).
    destruct (NDArray_constructor_inv _ _ _ _ _ _ _ Hrun)
      as (d1 & _ & _ & _ & _ & -> & ->).
    eexists _, s. split; [by heap_simpl|].
    split; [|done]. repeat split; try done. simpl.
    destruct (values d).
    + apply ret_inv in Hshape as [-> _]. done.
    + destruct (textureShapeRC d) as [[rows cols]|]; [|done].
      apply ret_inv in Hshape as [-> _]. done.
  - unfold Array2D_constructor in Hrun.
    apply bind_inv in Hrun as (u & h0 & Hlen & Hrun).
    apply assert_inv in Hlen as [_ ->].
    apply bind_inv in Hrun as (t0 & h1 & Hctor & Hrun).
    destruct (NDArray_constructor_inv _ _ _ _ _ _ _ Hctor)
      as (d & Hd & _ & _ & _ & -> & ->).
    erewrite bind_Ret in Hrun; [|eapply the_array_Some; by heap_simpl].
    erewrite bind_Ret in Hrun; [|eapply update_array_Some; by heap_simpl].
    apply ret_inv in Hrun as [-> ->].
    eexists _, [a; b]. split; [by heap_simpl|]. done.
  - destruct (NDArray_constructor_inv _ _ _ _ _ _ _ Hrun)
      as (d & Hd & _ & _ & _ & -> & ->).
    eexists _, (a :: b :: c :: rest). split; [by heap_simpl|].
    split; [|done]. repeat split; try done. simpl. lia.
Qed.

(** [get] at a location inside the shape reads the row-major offset. *)
Lemma get_rowMajor h t o d a s locs :
  arrays h !! t = Some o -> datas h !! data o = Some d ->
  values d = Some a -> ta_length a = size o ->
  built_for o s -> in_bounds s locs ->
  exists x,
    offset o locs = Num (rowMajor s locs) /\
    0 <= rowMajor s locs < size o /\
    ta_elems a !! Z.to_nat (rowMajor s locs) = Some x /\
    get t locs h = (Ret (Num x), h).
Proof.
  intros Ho Hd Hv Hlen Hbuilt Hin.
  pose proof (offset_rowMajor o s locs Hbuilt (in_bounds_length _ _ Hin)) as Hoff.
  pose proof (rowMajor_bounds _ _ Hin) as Hb.
  destruct Hbuilt as (_ & Hsize & _). rewrite <- Hsize in Hb.
  destruct (lookup_lt_is_Some_2 (ta_elems a) (Z.to_nat (rowMajor s locs)))
    as [x Hx].
  { unfold ta_length in Hlen. lia. }
  exists x. repeat (split; [done|]). unfold get.
  erewrite bind_Ret; [|by eapply the_array_Some].
  erewrite bind_Ret; [|by eapply getValues_host].
  rewrite Hoff. unfold ret, ta_get.
  destruct (Z.leb_spec 0 (rowMajor s locs)); [|lia]. by rewrite Hx.
Qed.

(** X1: on a host-resident tensor of any class, [get] at a location inside
    the shape addresses the row-major offset, which lies inside the buffer,
    and returns the element there: never [undefined], and the store is as
    before. *)
Theorem get_in_bounds h t o d a s locs :
  arrays h !! t = Some o -> datas h !! data o = Some d ->
  values d = Some a -> ta_length a = size o ->
  built_for o s -> in_bounds s locs ->
  exists x,
    offset o locs = Num (rowMajor s locs) /\
    0 <= rowMajor s locs < size o /\
    ta_elems a !! Z.to_nat (rowMajor s locs) = Some x /\
    get t locs h = (Ret (Num x), h).
Proof. apply get_rowMajor. Qed.

(** X2: for a tensor of rank 1 or more and a location inside its shape,
    [locToIndex] gives the row-major offset and [indexToLoc] of that offset
    gives the location back. *)
Theorem indexToLoc_locToIndex h t o s locs :
  arrays h !! t = Some o -> built_for o s -> s <> [] -> in_bounds s locs ->
  locToIndex t locs h = (Ret (Num (rowMajor s locs)), h) /\
  indexToLoc t (rowMajor s locs) h = (Ret (Some <$> locs), h).
Proof.
  intros Ho Hbuilt Hne Hin.
  pose proof (in_bounds_length _ _ Hin) as Hlen.
  pose proof (offset_rowMajor o s locs Hbuilt Hlen) as Hoff.
  pose proof (in_bounds_dims_positive _ _ Hin) as Hpos.
  destruct Hbuilt as (Hs & Hsize & Hst & Hcls).
  unfold locToIndex, indexToLoc.
  erewrite !bind_Ret by (by eapply the_array_Some).
  pose proof Hoff as Hoff'. unfold offset in Hoff'.
  destruct (cls o) eqn:Hc.
  - rewrite Hoff', Hs. split; [done|]. unfold ret. do 2 f_equal.
    unfold NDArray_indexToLoc.
    destruct (indexToLoc_fold s (strides o) (replicate (length s) None)
                (rowMajor s locs)) as (ls & _ & _ & Hres & Huniq & _).
    + done.
    + by rewrite length_replicate.
    + intros i Hi. by apply computeStrides_lookup.
    + destruct s; [done|]. by inversion Hpos.
    + rewrite Hres. f_equal. by apply Huniq.
  - by subst s.
  - rewrite Hoff. split; [done|]. unfold ret. do 2 f_equal.
    destruct s as [|n [|]]; try done.
    destruct locs as [|l [|]]; try done.
    simpl. do 2 f_equal. unfold sizeFromShape. simpl. lia.
  - rewrite Hoff. split; [done|]. unfold ret. do 2 f_equal.
    destruct Hcls as [Hlen2 ->].
    destruct s as [|n [|m [|]]]; try done.
    destruct locs as [|i [|j [|]]]; try done.
    unfold in_bounds in Hin.
    apply Forall2_cons in Hin as [Hi Hrest].
    apply Forall2_cons in Hrest as [Hj _].
    assert (rowMajor [n; m] [i; j] = i * m + j) as ->
      by (unfold rowMajor, sizeFromShape; simpl; lia).
    simpl. destruct (Z.eqb_spec m 0); [lia|].
    rewrite Z.rem_mod_nonneg by nia.
    rewrite Z.div_add_l, Z.div_small by lia.
    replace ((i * m + j) mod m) with j.
    2:{ replace (i * m + j) with (j + i * m) by lia.
        by rewrite Z.mod_add, Z.mod_small by lia. }
    do 2 f_equal. lia.
Qed.


(** What [indexToLoc] returns for a tensor of rank 1 or more whose trailing
    dimensions are positive (a matrix wants a non-negative index). *)
Lemma indexToLoc_spec h t o s index :
  arrays h !! t = Some o -> built_for o s -> s <> [] ->
  Forall (fun n => 0 < n) (tail s) ->
  (cls o = C_Array2D -> 0 <= index) ->
  exists locs,
    indexToLoc t index h = (Ret (Some <$> locs), h) /\
    length locs = length s /\ rowMajor s locs = index /\
    (Forall (fun n => 0 < n) s -> 0 <= index < sizeFromShape s ->
     in_bounds s locs).
Proof.
  intros Ho (Hs & Hsize & Hst & Hcls) Hne Hpos H2d.
  unfold indexToLoc.
  erewrite bind_Ret by (by eapply the_array_Some).
  destruct (cls o) eqn:Hc.
  - rewrite Hs. unfold NDArray_indexToLoc.
    destruct (indexToLoc_fold s (strides o) (replicate (length s) None) index)
      as (ls & Hlen & Hrm & Hres & _ & Hin).
    + done.
    + by rewrite length_replicate.
    + intros i Hi. by apply computeStrides_lookup.
    + done.
    + exists ls. rewrite Hres. done.
  - by subst s.
  - destruct s as [|n [|]]; try done.
    exists [index]. split; [done|]. split; [done|].
    split; [unfold rowMajor, sizeFromShape; simpl; lia|].
    intros _ Hidx. unfold sizeFromShape in Hidx. simpl in Hidx.
    repeat constructor; lia.
  - destruct Hcls as [Hlen2 ->].
    destruct s as [|n [|m [|]]]; try done.
    assert (0 < m) as Hm by (simpl in Hpos; by inversion Hpos).
    specialize (H2d eq_refl).
    pose proof (Z.div_mod index m ltac:(lia)) as Hdm.
    pose proof (Z.mod_pos_bound index m Hm) as Hmod.
    exists [index / m; index mod m]. split.
    { simpl. destruct (Z.eqb_spec m 0); [lia|].
      by rewrite Z.rem_mod_nonneg by lia. }
    split; [done|].
    split; [unfold rowMajor, sizeFromShape; simpl; lia|].
    intros _ Hidx. unfold sizeFromShape in Hidx. simpl in Hidx.
    constructor.
    { split; [apply Z.div_pos; lia|apply Z.div_lt_upper_bound; lia]. }
    repeat constructor; lia.
Qed.

(** [locToIndex] of any location of the right length is its row-major
    sum, in bounds or not. *)
Lemma locToIndex_rowMajor h t o s locs :
  arrays h !! t = Some o -> built_for o s -> s <> [] ->
  length locs = length s ->
  locToIndex t locs h = (Ret (Num (rowMajor s locs)), h).
Proof.
  intros Ho Hbuilt Hne Hlen.
  pose proof (offset_rowMajor o s locs Hbuilt Hlen) as Hoff.
  destruct Hbuilt as (Hs & Hsize & Hst & Hcls).
  unfold locToIndex.
  erewrite bind_Ret by (by eapply the_array_Some).
  destruct (cls o) eqn:Hc; try by rewrite Hoff.
  - unfold offset in Hoff. by rewrite Hc in Hoff; rewrite Hoff.
  - by subst s.
Qed.

(** X3: for a tensor of rank 1 or more with positive trailing dimensions,
    [locToIndex] undoes [indexToLoc] at every index, negative or beyond
    the buffer included; for a matrix, at every non-negative index. *)
Theorem locToIndex_indexToLoc h t o s index :
  arrays h !! t = Some o -> built_for o s -> s <> [] ->
  Forall (fun n => 0 < n) (tail s) ->
  (cls o = C_Array2D -> 0 <= index) ->
  exists locs,
    indexToLoc t index h = (Ret (Some <$> locs), h) /\
    locToIndex t locs h = (Ret (Num index), h).
Proof.
  intros Ho Hbuilt Hne Hpos H2d.
  destruct (indexToLoc_spec h t o s index Ho Hbuilt Hne Hpos H2d)
    as (locs & Hrun & Hlen & Hrm & _).
  exists locs. split; [done|].
  rewrite <- Hrm. by apply (locToIndex_rowMajor h t o s locs).
Qed.

(** X4: for a matrix with a positive row stride, [indexToLoc] of a negative
    index that is no multiple of the stride pairs a floored quotient with a
    remainder of the sign of the index, and [locToIndex] of that pair is
    the index less one stride. *)
Theorem Array2D_indexToLoc_negative h t o n m index :
  arrays h !! t = Some o -> built_for o [n; m] -> cls o = C_Array2D ->
  0 < m -> index < 0 -> index mod m <> 0 ->
  indexToLoc t index h =
    (Ret [Some (index / m); Some (index mod m - m)], h) /\
  locToIndex t [index / m; index mod m - m] h = (Ret (Num (index - m)), h).
Proof.
  intros Ho Hbuilt Hc Hm Hneg Hmod.
  pose proof (Z.div_mod index m ltac:(lia)) as Hdm.
  pose proof (Z.mod_pos_bound index m Hm) as Hb.
  split.
  - destruct Hbuilt as (Hs & Hsize & Hst & Hcls). rewrite Hc in Hcls.
    destruct Hcls as [_ Hs0]. unfold indexToLoc.
    erewrite bind_Ret by (by eapply the_array_Some).
    rewrite Hc, Hs0. simpl. destruct (Z.eqb_spec m 0); [lia|].
    pose proof (Z.quot_rem index m ltac:(lia)) as Hqr.
    pose proof (Z.rem_nonpos index m ltac:(lia) ltac:(lia)) as Hr1.
    pose proof (Z.rem_bound_abs index m ltac:(lia)) as Hr2.
    assert (- m < Z.rem index m) as Hr3 by lia.
    assert (-2 < index / m - Z.quot index m < 0) as Hq by nia.
    assert (Z.rem index m = index mod m - m) as -> by nia.
    done.
  - rewrite (locToIndex_rowMajor h t o [n; m]) by done.
    unfold ret. do 3 f_equal.
    unfold rowMajor, sizeFromShape. simpl. lia.
Qed.

(** X5: on a host-resident tensor of rank 1 or more with positive
    dimensions, [get] at [indexToLoc(index)] returns element [index] of the
    flat buffer, for every index inside the buffer. *)
Theorem get_indexToLoc h t o d a s index :
  arrays h !! t = Some o -> datas h !! data o = Some d ->
  values d = Some a -> ta_length a = size o ->
  built_for o s -> s <> [] -> Forall (fun n => 0 < n) s ->
  0 <= index < size o ->
  exists locs x,
    indexToLoc t index h = (Ret (Some <$> locs), h) /\
    in_bounds s locs /\
    get t locs h = (Ret (Num x), h) /\
    ta_elems a !! Z.to_nat index = Some x.
Proof.
  intros Ho Hd Hv Hlen Hbuilt Hne Hpos Hidx.
  destruct (indexToLoc_spec h t o s index Ho Hbuilt Hne)
    as (locs & Hrun & _ & Hrm & Hin).
  { destruct s; [done|]. by inversion Hpos. }
  { lia. }
  assert (in_bounds s locs) as Hb.
  { apply Hin; [done|]. destruct Hbuilt as (_ & <- & _). done. }
  destruct (get_rowMajor h t o d a s locs Ho Hd Hv Hlen Hbuilt Hb)
    as (x & _ & _ & Hx & Hget).
  exists locs, x. rewrite Hrm in Hx. done.
Qed.


(** ** Reading and writing elements *)

Lemma ta_length_set a i value : ta_length (ta_set fround a i value) = ta_length a.
Proof.
  unfold ta_set, ta_length. destruct i as [| |k]; [done..|].
  destruct (0 <=? k); [|done]. simpl. by rewrite length_insert.
Qed.

Lemma ta_get_set_eq a k value :
  0 <= k < ta_length a ->
  ta_get (ta_set fround a (Num k) value) (Num k) =
    Num (ta_convert fround a value).
Proof.
  unfold ta_length, ta_get, ta_set. intros Hk.
  destruct (Z.leb_spec 0 k); [|lia]. simpl.
  rewrite list_lookup_insert_eq by lia. done.
Qed.

Lemma ta_get_set_ne a k i value :
  i <> Num k ->
  ta_get (ta_set fround a (Num k) value) i = ta_get a i.
Proof.
  unfold ta_get, ta_set. intros Hne.
  destruct (Z.leb_spec 0 k); [|done].
  destruct i as [| |k']; [done..|].
  destruct (Z.leb_spec 0 k'); [|done]. simpl.
  rewrite list_lookup_insert_ne; [done|].
  intros E. apply Hne. f_equal. lia.
Qed.

Lemma ta_set_outside a i value :
  names_nothing a i -> ta_set fround a i value = a.
Proof.
  unfold names_nothing, ta_set, ta_length. intros Hout.
  destruct i as [| |k]; [done..|].
  destruct (Z.leb_spec 0 k); [|done].
  destruct Hout; [lia|].
  destruct a as [ty l u]; simpl in *. by rewrite list_insert_ge by lia.
Qed.

Lemma ta_get_outside a i : names_nothing a i -> ta_get a i = Undefined.
Proof.
  unfold names_nothing, ta_get, ta_length. intros Hout.
  destruct i as [| |k]; [done..|].
  destruct (Z.leb_spec 0 k); [|done].
  destruct Hout; [lia|].
  rewrite lookup_ge_None_2 by lia. done.
Qed.

(** An element reads as a number. *)
Lemma ta_get_element a k :
  0 <= k < ta_length a -> exists x, ta_get a (Num k) = Num x.
Proof.
  unfold ta_get, ta_length. intros Hk.
  destruct (Z.leb_spec 0 k); [|lia].
  destruct (lookup_lt_is_Some_2 (ta_elems a) (Z.to_nat k)) as [x Hx]; [lia|].
  exists x. by rewrite Hx.
Qed.

(** The store a completed [getValues] leaves: the same objects, and the
    returned buffer as the host values of the record. *)
Lemma getValues_post h t o d r h1 :
  arrays h !! t = Some o -> datas h !! data o = Some d ->
  getValues t h = (Ret r, h1) ->
  arrays h1 = arrays h /\
  exists a d1,
    r = Some a /\ datas h1 !! data o = Some d1 /\ values d1 = Some a /\
    getValues t h1 = (Ret (Some a), h1).
Proof.
  intros Ho Hd Hrun.
  destruct (getValues_inv _ _ _ _ _ _ Ho Hd Hrun)
    as [(-> & Hv & ->)|(g & rc & v & Hv & _ & _ & _ & -> & ->)].
  - split; [done|]. destruct (values d) as [a|] eqn:Ha; [|done].
    exists a, d. repeat (split; [done|]). by eapply getValues_host.
  - split; [done|]. eexists v, _. split; [done|].
    split; [by heap_simpl|]. split; [done|].
    eapply getValues_host; [done|by heap_simpl|done].
Qed.

(** [set] writes into the buffer that [getValues] delivers. *)
Lemma set_run h t o d a h1 value locs :
  arrays h !! t = Some o -> datas h !! data o = Some d ->
  getValues t h = (Ret (Some a), h1) ->
  exists d1,
    datas h1 !! data o = Some d1 /\ values d1 = Some a /\
    set fround t value locs h =
      (Ret tt,
       mkHeap (arrays h1)
         (<[data o := set_values (Some (ta_set fround a (offset o locs) value)) d1]>
            (datas h1))
         (GPU h1)).
Proof.
  intros Ho Hd Hrun.
  destruct (getValues_post _ _ _ _ _ _ Ho Hd Hrun)
    as (Harr & a' & d1 & [= <-] & Hd1 & Hv1 & _).
  exists d1. repeat (split; [done|]). unfold set.
  erewrite bind_Ret; [|by eapply the_array_Some].
  erewrite bind_Ret; [|done].
  eapply update_this_data_Some; [by rewrite Harr|done].
Qed.

(** [set] inside the buffer, then [get]. *)
Lemma set_then_get h t o d a h1 value locs k :
  arrays h !! t = Some o -> datas h !! data o = Some d ->
  getValues t h = (Ret (Some a), h1) ->
  offset o locs = Num k -> 0 <= k < ta_length a ->
  exists h2 a',
    set fround t value locs h = (Ret tt, h2) /\
    getValues t h2 = (Ret (Some a'), h2) /\ ta_length a' = ta_length a /\
    get t locs h2 = (Ret (Num (ta_convert fround a value)), h2) /\
    (forall locs', offset o locs' <> Num k ->
       get t locs' h2 = (Ret (ta_get a (offset o locs')), h2)).
Proof.
  intros Ho Hd Hrun Hoff Hk.
  destruct (set_run h t o d a h1 value locs Ho Hd Hrun)
    as (d1 & Hd1 & Hv1 & Hset).
  destruct (getValues_post _ _ _ _ _ _ Ho Hd Hrun) as (Harr & _).
  rewrite Hoff in Hset.
  eexists _, (ta_set fround a (Num k) value). split; [exact Hset|].
  assert (getValues t
            (mkHeap (arrays h1)
               (<[data o := set_values (Some (ta_set fround a (Num k) value)) d1]>
                  (datas h1)) (GPU h1)) =
          (Ret (Some (ta_set fround a (Num k) value)),
           mkHeap (arrays h1)
             (<[data o := set_values (Some (ta_set fround a (Num k) value)) d1]>
                (datas h1)) (GPU h1))) as Hgv.
  { eapply getValues_host; [by rewrite Harr|by heap_simpl|done]. }
  split; [done|]. split; [apply ta_length_set|]. split.
  - erewrite get_run; [|by rewrite Harr|by heap_simpl|done].
    by rewrite Hoff, ta_get_set_eq.
  - intros locs' Hne.
    erewrite get_run; [|by rewrite Harr|by heap_simpl|done].
    by rewrite ta_get_set_ne.
Qed.

(** X6: once [set(value, ...locs)] has written inside the buffer, [get] at
    the same location returns the value as the buffer's element type keeps
    it, [get] at any other offset returns what was there before, and the
    buffer has kept its length. *)
Theorem get_after_set h t o d a h1 value locs k :
  arrays h !! t = Some o -> datas h !! data o = Some d ->
  getValues t h = (Ret (Some a), h1) ->
  offset o locs = Num k -> 0 <= k < ta_length a ->
  exists h2 a',
    set fround t value locs h = (Ret tt, h2) /\
    getValues t h2 = (Ret (Some a'), h2) /\ ta_length a' = ta_length a /\
    get t locs h2 = (Ret (Num (ta_convert fround a value)), h2) /\
    (forall locs', offset o locs' <> Num k ->
       get t locs' h2 = (Ret (ta_get a (offset o locs')), h2)).
Proof. apply set_then_get. Qed.

(** X7: a write through one tensor is read through every tensor over the
    same storage record (as [reshape] makes them): after [set] on [t],
    [get] on [r] at a location of the same offset returns the value
    written. *)
Theorem set_seen_through_alias h t r o o' d a value locs k :
  arrays h !! t = Some o -> arrays h !! r = Some o' -> data o' = data o ->
  datas h !! data o = Some d -> values d = Some a ->
  offset o locs = Num k -> 0 <= k < ta_length a ->
  exists h2,
    set fround t value locs h = (Ret tt, h2) /\
    forall locs', offset o' locs' = Num k ->
      get r locs' h2 = (Ret (Num (ta_convert fround a value)), h2).
Proof.
  intros Ho Ho' Hdata Hd Hv Hoff Hk.
  pose proof (getValues_host _ _ _ _ _ Ho Hd Hv) as Hrun.
  destruct (set_run h t o d a h value locs Ho Hd Hrun)
    as (d1 & Hd1 & Hv1 & Hset).
  rewrite Hoff in Hset.
  eexists. split; [exact Hset|].
  intros locs' Hoff'.
  match goal with |- get r locs' ?h2 = _ => set (h2' := h2) end.
  assert (datas h2' !! data o' =
          Some (set_values (Some (ta_set fround a (Num k) value)) d1)) as Hd2
    by (subst h2'; rewrite Hdata; by heap_simpl).
  rewrite (get_run h2' r o' _ (ta_set fround a (Num k) value) h2' locs' Ho' Hd2).
  - by rewrite Hoff', ta_get_set_eq.
  - by eapply getValues_host.
Qed.

(** The store once a buffer has been written in place: [getValues] and
    [get] read the written buffer. *)
Lemma written_buffer h1 t o d1 a' :
  arrays h1 !! t = Some o -> datas h1 !! data o = Some d1 ->
  let h2 := mkHeap (arrays h1)
              (<[data o := set_values (Some a') d1]> (datas h1)) (GPU h1) in
  getValues t h2 = (Ret (Some a'), h2) /\
  forall locs, get t locs h2 = (Ret (ta_get a' (offset o locs)), h2).
Proof.
  intros Ho Hd1 h2.
  assert (datas h2 !! data o = Some (set_values (Some a') d1)) as Hd2
    by (subst h2; by heap_simpl).
  assert (getValues t h2 = (Ret (Some a'), h2)) as Hgv
    by (by eapply getValues_host).
  split; [done|]. intros locs. by eapply get_run.
Qed.

(** Writing back the buffer that is there changes nothing. *)
Lemma update_same h1 t o d1 a :
  arrays h1 !! t = Some o -> datas h1 !! data o = Some d1 ->
  values d1 = Some a ->
  update_this_data t (set_values (Some a)) h1 = (Ret tt, h1).
Proof.
  intros Ho Hd1 Hv1.
  erewrite update_this_data_Some by done.
  assert (set_values (Some a) d1 = d1) as ->
    by (destruct d1; simpl in *; by subst).
  rewrite insert_id by done. by destruct h1.
Qed.

(** The loop of [locToIndex] never ends on [undefined] once it has added
    anything. *)
Lemma locToIndex_loop_Undefined (f : nat -> JSValue) (l : list nat) :
  forall init,
    foldl (fun index i => js_add index (f i)) init l = Undefined ->
    init = Undefined /\ l = [].
Proof.
  induction l as [|i l IH]; intros init Hrun; [done|].
  simpl in Hrun. apply IH in Hrun as [Hrun _].
  by destruct init, (f i).
Qed.

(** The offset is [undefined] exactly where the generic class or [Array1D]
    is given no location. *)
Lemma offset_Undefined o locs :
  offset o locs = Undefined <->
  (cls o = C_NDArray \/ cls o = C_Array1D) /\ locs = [].
Proof.
  unfold offset. destruct (cls o); split.
  - intros Hrun. split; [by left|]. unfold NDArray_locToIndex in Hrun.
    apply (locToIndex_loop_Undefined
             (fun i => js_mul (js_of (strides o !! i)) (js_of (locs !! i))))
      in Hrun as [Hlast _].
    destruct (last locs) eqn:E; [done|]. by apply last_None in E.
  - by intros [_ ->].
  - done.
  - by intros [[|] _].
  - intros Hrun. split; [by right|]. by destruct locs.
  - by intros [_ ->].
  - intros Hrun. by destruct (js_mul _ _), (js_of (locs !! 1%nat)).
  - by intros [[|] _].
Qed.

(** X8: indices are not checked.  At a location whose offset is a number
    outside the buffer, or [NaN], [get] returns [undefined] and [set]
    stores nothing: both leave the store as [getValues] alone would.  The
    offset is [undefined] exactly where the generic class or [Array1D] is
    given no location; there [get] returns the property [undefined] of the
    buffer and [set] writes that property, unconverted and beside the
    elements, so that [get] with no location then returns what was set
    while every element reads as before. *)
Theorem access_outside_buffer h t o d a h1 value locs :
  arrays h !! t = Some o -> datas h !! data o = Some d ->
  getValues t h = (Ret (Some a), h1) ->
  (names_nothing a (offset o locs) ->
     get t locs h = (Ret Undefined, h1) /\
     set fround t value locs h = (Ret tt, h1)) /\
  (offset o locs = Undefined <->
     (cls o = C_NDArray \/ cls o = C_Array1D) /\ locs = []) /\
  (offset o locs = Undefined ->
     get t locs h = (Ret (ta_undefined a), h1) /\
     exists h2,
       set fround t value locs h = (Ret tt, h2) /\
       getValues t h2 =
         (Ret (Some (mkTypedArray (ta_type a) (ta_elems a) (Num value))), h2) /\
       get t locs h2 = (Ret (Num value), h2) /\
       (forall locs', offset o locs' <> Undefined ->
          get t locs' h2 = (Ret (ta_get a (offset o locs')), h2))).
Proof.
  intros Ho Hd Hrun.
  destruct (set_run h t o d a h1 value locs Ho Hd Hrun)
    as (d1 & Hd1 & Hv1 & Hset).
  destruct (getValues_post _ _ _ _ _ _ Ho Hd Hrun) as (Harr & _).
  assert (arrays h1 !! t = Some o) as Ho1 by (by rewrite Harr).
  split; [|split; [apply offset_Undefined|]].
  - intros Hout. split.
    + erewrite get_run by done. by rewrite ta_get_outside.
    + rewrite Hset, ta_set_outside by done.
      pose proof (update_same h1 t o d1 a Ho1 Hd1 Hv1) as Hup.
      erewrite update_this_data_Some in Hup by done.
      by injection Hup as ->.
  - intros Hoff. split.
    + erewrite get_run by done. by rewrite Hoff.
    + rewrite Hoff in Hset. simpl in Hset.
      eexists. split; [exact Hset|].
      destruct (written_buffer h1 t o d1
                  (mkTypedArray (ta_type a) (ta_elems a) (Num value)) Ho1 Hd1)
        as [Hgv Hget].
      split; [exact Hgv|]. split.
      * by rewrite Hget, Hoff.
      * intros locs' Hne. rewrite Hget.
        by destruct (offset o locs').
Qed.

Lemma ta_length_fill a value : ta_length (ta_fill fround a value) = ta_length a.
Proof. unfold ta_fill, ta_length. simpl. by rewrite length_replicate. Qed.

Lemma ta_get_fill a k value :
  0 <= k < ta_length a ->
  ta_get (ta_fill fround a value) (Num k) = Num (ta_convert fround a value).
Proof.
  unfold ta_length, ta_get, ta_fill. intros Hk.
  destruct (Z.leb_spec 0 k); [|lia]. simpl.
  rewrite lookup_replicate_2 by lia. done.
Qed.

(** X9: [fill(value)] keeps the length of the buffer and makes every
    element the value as the buffer's element type keeps it, so [get]
    returns it at every location inside the buffer. *)
Theorem fill_overwrites h t o d a h1 value :
  arrays h !! t = Some o -> datas h !! data o = Some d ->
  getValues t h = (Ret (Some a), h1) ->
  exists h2,
    fill fround t value h = (Ret tt, h2) /\
    getValues t h2 = (Ret (Some (ta_fill fround a value)), h2) /\
    ta_length (ta_fill fround a value) = ta_length a /\
    (forall locs k, offset o locs = Num k -> 0 <= k < ta_length a ->
       get t locs h2 = (Ret (Num (ta_convert fround a value)), h2)).
Proof.
  intros Ho Hd Hrun.
  destruct (getValues_post _ _ _ _ _ _ Ho Hd Hrun)
    as (Harr & a' & d1 & [= <-] & Hd1 & Hv1 & _).
  eexists. split.
  { unfold fill. rewrite (bind_Ret _ _ _ _ _ Hrun).
    eapply update_this_data_Some; [by rewrite Harr|done]. }
  match goal with |- getValues t ?h2 = _ /\ _ => set (h2' := h2) end.
  assert (arrays h2' !! t = Some o) as Ho2 by (subst h2'; by rewrite <- Harr in Ho).
  assert (datas h2' !! data o =
          Some (set_values (Some (ta_fill fround a value)) d1)) as Hd2
    by (subst h2'; by heap_simpl).
  assert (getValues t h2' = (Ret (Some (ta_fill fround a value)), h2')) as Hgv
    by (by eapply getValues_host).
  split; [done|]. split; [apply ta_length_fill|].
  intros locs k Hoff Hk.
  rewrite (get_run h2' t o _ _ h2' locs Ho2 Hd2 Hgv).
  by rewrite Hoff, ta_get_fill.
Qed.



(** [a[undefined] += value] leaves in the property the sum as JavaScript
    adds: [NaN] unless the property held a number. *)
Lemma ta_add_Undefined a value :
  ta_add fround a Undefined value =
    mkTypedArray (ta_type a) (ta_elems a) (js_add (ta_undefined a) (Num value)).
Proof. unfold ta_add. simpl. by destruct (ta_undefined a). Qed.

Lemma ta_add_outside a i value :
  names_nothing a i -> ta_add fround a i value = a.
Proof.
  intros Hout. unfold ta_add. rewrite ta_get_outside by done.
  by destruct i.
Qed.

(** [set(NaN, ...locs)] writes into the buffer that [getValues] delivers. *)
Lemma set_NaN_run h t o d a h1 locs :
  arrays h !! t = Some o -> datas h !! data o = Some d ->
  getValues t h = (Ret (Some a), h1) ->
  exists d1,
    datas h1 !! data o = Some d1 /\ values d1 = Some a /\
    set_NaN t locs h =
      (Ret tt,
       mkHeap (arrays h1)
         (<[data o := set_values (Some (ta_set_NaN a (offset o locs))) d1]>
            (datas h1))
         (GPU h1)).
Proof.
  intros Ho Hd Hrun.
  destruct (getValues_post _ _ _ _ _ _ Ho Hd Hrun)
    as (Harr & a' & d1 & [= <-] & Hd1 & Hv1 & _).
  exists d1. repeat (split; [done|]). unfold set_NaN.
  erewrite bind_Ret; [|by eapply the_array_Some].
  erewrite bind_Ret; [|done].
  eapply update_this_data_Some; [by rewrite Harr|done].
Qed.

(** What [add] does to the buffer, in every class: [a[i] += value]. *)
Lemma add_run h t o d a h1 value locs :
  arrays h !! t = Some o -> datas h !! data o = Some d ->
  getValues t h = (Ret (Some a), h1) ->
  exists d1,
    datas h1 !! data o = Some d1 /\ values d1 = Some a /\
    add fround t value locs h =
      (Ret tt,
       mkHeap (arrays h1)
         (<[data o := set_values (Some (ta_add fround a (offset o locs) value)) d1]>
            (datas h1))
         (GPU h1)).
Proof.
  intros Ho Hd Hrun.
  destruct (getValues_post _ _ _ _ _ _ Ho Hd Hrun)
    as (Harr & a' & d1 & [= <-] & Hd1 & Hv1 & Hrun1).
  assert (arrays h1 !! t = Some o) as Ho1 by (by rewrite Harr).
  exists d1. repeat (split; [done|]). unfold add.
  erewrite bind_Ret; [|by eapply the_array_Some].
  destruct (cls o) eqn:Hc.
  - rewrite (bind_Ret _ _ _ _ _ (get_run h t o d a h1 locs Ho Hd Hrun)).
    unfold ta_add.
    destruct (ta_get a (offset o locs)) as [| |x].
    + destruct (set_NaN_run h1 t o d1 a h1 locs Ho1 Hd1 Hrun1)
        as (d2 & Hd2 & _ & ->).
      rewrite Hd1 in Hd2. by injection Hd2 as <-.
    + destruct (set_NaN_run h1 t o d1 a h1 locs Ho1 Hd1 Hrun1)
        as (d2 & Hd2 & _ & ->).
      rewrite Hd1 in Hd2. by injection Hd2 as <-.
    + destruct (set_run h1 t o d1 a h1 (x + value) locs Ho1 Hd1 Hrun1)
        as (d2 & Hd2 & _ & ->).
      rewrite Hd1 in Hd2. by injection Hd2 as <-.
  - rewrite (bind_Ret _ _ _ _ _ Hrun). by erewrite update_this_data_Some.
  - rewrite (bind_Ret _ _ _ _ _ Hrun). by erewrite update_this_data_Some.
  - rewrite (bind_Ret _ _ _ _ _ Hrun). by erewrite update_this_data_Some.
Qed.

(** X11: [add] checks no index either.  Where the offset is a number
    outside the buffer, or [NaN], [add] stores nothing, in every class: it
    leaves the store as [getValues] alone would.  Where the offset is
    [undefined] (no location given), [add] leaves in the property
    [undefined] of the buffer what that property plus the value is, [NaN]
    unless the property held a number, and [get] with no location then
    returns it; the elements are untouched. *)
Theorem add_outside_buffer h t o d a h1 value locs :
  arrays h !! t = Some o -> datas h !! data o = Some d ->
  getValues t h = (Ret (Some a), h1) ->
  (names_nothing a (offset o locs) ->
     add fround t value locs h = (Ret tt, h1)) /\
  (offset o locs = Undefined ->
     let sum := js_add (ta_undefined a) (Num value) in
     exists h2,
       add fround t value locs h = (Ret tt, h2) /\
       getValues t h2 =
         (Ret (Some (mkTypedArray (ta_type a) (ta_elems a) sum)), h2) /\
       get t locs h2 = (Ret sum, h2) /\
       (forall locs', offset o locs' <> Undefined ->
          get t locs' h2 = (Ret (ta_get a (offset o locs')), h2))).
Proof.
  intros Ho Hd Hrun.
  destruct (add_run h t o d a h1 value locs Ho Hd Hrun)
    as (d1 & Hd1 & Hv1 & Hadd).
  destruct (getValues_post _ _ _ _ _ _ Ho Hd Hrun) as (Harr & _).
  assert (arrays h1 !! t = Some o) as Ho1 by (by rewrite Harr).
  split.
  - intros Hout. rewrite Hadd, ta_add_outside by done.
    pose proof (update_same h1 t o d1 a Ho1 Hd1 Hv1) as Hup.
    erewrite update_this_data_Some in Hup by done.
    by injection Hup as ->.
  - intros Hoff sum. rewrite Hoff, ta_add_Undefined in Hadd.
    eexists. split; [exact Hadd|].
    destruct (written_buffer h1 t o d1
                (mkTypedArray (ta_type a) (ta_elems a) sum) Ho1 Hd1)
      as [Hgv Hget].
    split; [exact Hgv|]. split.
    + by rewrite Hget, Hoff.
    + intros locs' Hne. rewrite Hget. by destruct (offset o locs').
Qed.


(** ** Migration, disposal and failures of the backend *)

(** X12: both migrations are idempotent.  After a completed [getTexture]
    on storage whose texture has a layout, [getTexture] again returns the
    same texture without touching the store, whatever layout is preferred,
    [inGPU] is true and [getTextureShapeRC] returns the cached layout;
    after a completed [getValues], [getValues] again returns the same
    buffer without touching the store. *)
Theorem migration_idempotent h t o d :
  arrays h !! t = Some o -> datas h !! data o = Some d ->
  (forall preferred r h1,
     texture d = None \/ textureShapeRC d <> None ->
     getTexture t preferred h = (Ret r, h1) ->
     forall preferred',
       getTexture t preferred' h1 = (Ret r, h1) /\
       inGPU t h1 = (Ret true, h1) /\
       exists rc, getTextureShapeRC t preferred' h1 = (Ret (Some rc), h1)) /\
  (forall r h1,
     getValues t h = (Ret r, h1) ->
     getValues t h1 = (Ret r, h1) /\
     (values d = None -> inGPU t h1 = (Ret false, h1))).
Proof.
  intros Ho Hd. split.
  - intros preferred r h1 Hcoh Hrun preferred'.
    assert (exists d1 tex rc,
              arrays h1 !! t = Some o /\ datas h1 !! data o = Some d1 /\
              r = Some tex /\ texture d1 = Some tex /\
              textureShapeRC d1 = Some rc) as (d1 & tex & rc & Ho1 & Hd1 & -> & Ht1 & Hrc1).
    { destruct (getTexture_inv _ _ _ _ _ _ _ Ho Hd Hrun)
        as [(-> & Htex & ->)
           |(g & rc & tex & g1 & g2 & Htex & _ & _ & _ & _ & -> & ->)].
      - destruct (texture d) as [tex|] eqn:Ht; [|done].
        destruct Hcoh as [|Hcoh]; [done|].
        destruct (textureShapeRC d) as [rc|] eqn:Hrc; [|done].
        by exists d, tex, rc.
      - eexists _, tex, rc. split; [done|]. split; [by heap_simpl|]. done. }
    split; [by eapply getTexture_resident|]. split.
    + unfold inGPU.
      erewrite bind_Ret; [|by eapply this_data_Some].
      rewrite Ht1. by rewrite bool_decide_true.
    + exists rc. unfold getTextureShapeRC.
      erewrite bind_Ret; [|by eapply this_data_Some].
      rewrite Hrc1. rewrite bool_decide_false by done.
      erewrite bind_Ret; [|reflexivity].
      erewrite bind_Ret; [|by eapply this_data_Some].
      by rewrite Hrc1.
  - intros r h1 Hrun.
    destruct (getValues_post _ _ _ _ _ _ Ho Hd Hrun)
      as (Harr & a & d1 & -> & Hd1 & Hv1 & Hrun1).
    split; [done|]. intros Hv.
    destruct (getValues_inv _ _ _ _ _ _ Ho Hd Hrun)
      as [(_ & Hv' & _)|(g & rc & v & _ & _ & _ & _ & _ & ->)]; [done|].
    unfold inGPU.
    erewrite bind_Ret; [|eapply this_data_Some; [done|by heap_simpl]].
    done.
Qed.

(** X13: a second [dispose] changes nothing: it completes and leaves the
    store of the first, so no texture is released twice. *)
Theorem dispose_twice h t o d :
  arrays h !! t = Some o -> datas h !! data o = Some d ->
  texture d = None \/ GPU h <> None ->
  exists h1, dispose t h = (Ret tt, h1) /\ dispose t h1 = (Ret tt, h1).
Proof.
  intros Ho Hd Hok.
  eexists. split; [by apply dispose_spec|].
  erewrite dispose_spec;
    [|by heap_simpl|simpl; by heap_simpl|by left].
  simpl. by rewrite !insert_insert_eq.
Qed.

(** X14: a [dispose] that finds a texture while the backend is not
    initialised throws, and by then it has nulled the host values and the
    shape; the texture stays with the record. *)
Theorem dispose_without_backend h t o d tex :
  arrays h !! t = Some o -> datas h !! data o = Some d ->
  texture d = Some tex -> GPU h = None ->
  dispose t h =
    (Throw UninitializedBackendError,
     mkHeap (<[t := set_shape None o]> (arrays h))
       (<[data o := mkData None (Some tex) (textureShapeRC d)]> (datas h))
       None).
Proof.
  intros Ho Hd Htex Hg. unfold dispose.
  erewrite bind_Ret; [|by eapply update_this_data_Some].
  erewrite bind_Ret; [|by eapply update_array_Some].
  erewrite bind_Ret;
    [|eapply this_data_Some; [by heap_simpl|simpl; by heap_simpl]].
  simpl. rewrite Htex. rewrite bool_decide_true by done.
  unfold disposeTexture.
  erewrite bind_Throw; [|unfold throwIfGPUNotInitialized; simpl; by rewrite Hg].
  unfold set_values. by rewrite Htex.
Qed.

(** X15: without an initialised backend a migration throws before it
    changes anything: [getTexture] on storage without a texture, and
    [getValues], [get], [set] and [fill] on storage without host values. *)
Theorem migration_without_backend h t o d :
  arrays h !! t = Some o -> datas h !! data o = Some d -> GPU h = None ->
  (texture d = None ->
   forall preferred,
     getTexture t preferred h = (Throw UninitializedBackendError, h)) /\
  (values d = None ->
   getValues t h = (Throw UninitializedBackendError, h) /\
   (forall locs, get t locs h = (Throw UninitializedBackendError, h)) /\
   (forall value locs,
      set fround t value locs h = (Throw UninitializedBackendError, h)) /\
   (forall value, fill fround t value h = (Throw UninitializedBackendError, h))).
Proof.
  intros Ho Hd Hg. split.
  - intros Htex preferred. unfold getTexture.
    erewrite bind_Ret; [|by eapply this_data_Some].
    rewrite Htex. rewrite bool_decide_true by done.
    erewrite bind_Throw; [done|].
    unfold uploadToGPU. erewrite bind_Throw; [done|].
    unfold throwIfGPUNotInitialized. by rewrite Hg.
  - intros Hv.
    assert (getValues t h = (Throw UninitializedBackendError, h)) as Hgv.
    { unfold getValues.
      erewrite bind_Ret; [|by eapply this_data_Some].
      rewrite Hv. rewrite bool_decide_true by done.
      erewrite bind_Throw; [done|].
      erewrite bind_Throw; [done|].
      unfold throwIfGPUNotInitialized. by rewrite Hg. }
    split; [done|]. split; [|split].
    + intros locs. by eapply get_throws.
    + intros value locs. unfold set.
      erewrite bind_Ret; [|by eapply the_array_Some].
      by erewrite bind_Throw.
    + intros value. unfold fill. by erewrite bind_Throw.
Qed.

(** The upload up to the acquisition of the texture. *)
Lemma uploadToGPU_acquire_fails h t o d preferred g rc e :
  arrays h !! t = Some o -> datas h !! data o = Some d -> GPU h = Some g ->
  getTextureShapeFromLogicalShape g (shape o) preferred = Ret rc ->
  acquireTexture g rc = Throw e ->
  uploadToGPU t preferred h =
    (Throw e,
     mkHeap (arrays h) (<[data o := set_textureShapeRC (Some rc) d]> (datas h))
       (GPU h)).
Proof.
  intros Ho Hd Hg Hl Ha. unfold uploadToGPU.
  erewrite bind_Ret; [|unfold throwIfGPUNotInitialized; by rewrite Hg].
  erewrite bind_Ret; [|by eapply the_array_Some].
  erewrite bind_Ret; [|unfold lift; by rewrite Hl].
  erewrite bind_Ret; [|by eapply update_this_data_Some].
  erewrite bind_Ret; [|eapply this_data_Some; [done|by heap_simpl]].
  simpl.
  erewrite bind_Ret; [|reflexivity].
  erewrite bind_Throw; [done|]. unfold lift. by rewrite Ha.
Qed.

(** X16: when the texture manager cannot provide a texture, [getTexture]
    throws the manager's error unchanged and no data is lost: the host
    values are still there and [getValues] returns them.  The negotiated
    layout has been cached all the same, so [getTextureShapeRC] then
    returns a layout while [inGPU] is false. *)
Theorem getTexture_acquire_fails h t o d a preferred g rc e :
  arrays h !! t = Some o -> datas h !! data o = Some d -> GPU h = Some g ->
  values d = Some a -> texture d = None ->
  getTextureShapeFromLogicalShape g (shape o) preferred = Ret rc ->
  acquireTexture g rc = Throw e ->
  exists h1,
    getTexture t preferred h = (Throw e, h1) /\
    getValues t h1 = (Ret (Some a), h1) /\
    inGPU t h1 = (Ret false, h1) /\
    forall preferred', getTextureShapeRC t preferred' h1 = (Ret (Some rc), h1).
Proof.
  intros Ho Hd Hg Hv Htex Hl Ha.
  eexists. split.
  { unfold getTexture.
    erewrite bind_Ret; [|by eapply this_data_Some].
    rewrite Htex. rewrite bool_decide_true by done.
    erewrite bind_Throw; [done|].
    by eapply uploadToGPU_acquire_fails. }
  match goal with |- getValues t ?x = _ /\ _ => set (h1 := x) end.
  assert (arrays h1 !! t = Some o) as Ho1 by done.
  assert (datas h1 !! data o = Some (set_textureShapeRC (Some rc) d)) as Hd1
    by (subst h1; by heap_simpl).
  split; [by eapply getValues_host|]. split.
  - unfold inGPU.
    erewrite bind_Ret; [|by eapply this_data_Some].
    simpl. rewrite Htex. by rewrite bool_decide_false by (by intros []).
  - intros preferred'. unfold getTextureShapeRC.
    erewrite bind_Ret; [|by eapply this_data_Some].
    simpl.
    erewrite bind_Ret; [|reflexivity].
    by erewrite bind_Ret; [|by eapply this_data_Some].
Qed.

(** X17: when the copy into an acquired texture fails, [getTexture] throws
    and the record keeps the host values together with the texture that
    was never written and never released; a later [getTexture] returns
    that texture without uploading. *)
Theorem getTexture_upload_fails h t o d a preferred g rc tex g1 e :
  arrays h !! t = Some o -> datas h !! data o = Some d -> GPU h = Some g ->
  values d = Some a -> texture d = None ->
  getTextureShapeFromLogicalShape g (shape o) preferred = Ret rc ->
  acquireTexture g rc = Ret (tex, g1) ->
  uploadMatrixToTexture g1 tex (fst rc) (snd rc) (Some a) = Throw e ->
  exists h1,
    getTexture t preferred h = (Throw e, h1) /\
    datas h1 !! data o = Some (mkData (Some a) (Some tex) (Some rc)) /\
    GPU h1 = Some g1 /\
    forall preferred', getTexture t preferred' h1 = (Ret (Some tex), h1).
Proof.
  intros Ho Hd Hg Hv Htex Hl Ha Hu.
  eexists. split.
  { unfold getTexture.
    erewrite bind_Ret; [|by eapply this_data_Some].
    rewrite Htex. rewrite bool_decide_true by done.
    erewrite bind_Throw; [done|].
    unfold uploadToGPU.
    erewrite bind_Ret; [|unfold throwIfGPUNotInitialized; by rewrite Hg].
    erewrite bind_Ret; [|by eapply the_array_Some].
    erewrite bind_Ret; [|unfold lift; by rewrite Hl].
    erewrite bind_Ret; [|by eapply update_this_data_Some].
    erewrite bind_Ret; [|eapply this_data_Some; [done|by heap_simpl]].
    simpl.
    erewrite bind_Ret; [|reflexivity].
    erewrite bind_Ret; [|unfold lift; by rewrite Ha].
    erewrite bind_Ret; [|reflexivity].
    erewrite bind_Ret; [|eapply update_this_data_Some; [done|by heap_simpl]].
    erewrite bind_Ret; [|eapply this_data_Some; [done|by heap_simpl]].
    simpl. rewrite Hv.
    erewrite bind_Throw; [|unfold lift; by rewrite Hu].
    heap_simpl. reflexivity. }
  split.
  { simpl. rewrite lookup_insert_eq. unfold set_texture, set_textureShapeRC.
    simpl. by rewrite Hv. }
  split; [done|].
  intros preferred'.
  eapply getTexture_resident; [done|simpl; by rewrite lookup_insert_eq|done].
Qed.


(** ** Construction by rank, copies and views *)

(** X18: [NDArray.make] with a shape of one dimension does not look at the
    dimension: over a record with host values it builds a vector whose
    shape is the length of the values, so no length mismatch is ever
    reported for a vector. *)
Theorem make_vector_shape h n r d a dt :
  datas h !! r = Some d -> values d = Some a ->
  texture d = None \/ textureShapeRC d <> None ->
  exists t h' o,
    make [n] r dt h = (Ret t, h') /\ arrays h' !! t = Some o /\
    cls o = C_Array1D /\ shape o = Some [ta_length a] /\
    size o = ta_length a.
Proof.
  intros Hd Hv Hrc. eexists _, _, _. split.
  { unfold make. cbn [length]. unfold Array1D_constructor.
    erewrite bind_Ret; [|by eapply the_data_Some].
    rewrite Hv. erewrite bind_Ret; [|reflexivity].
    eapply NDArray_constructor_ok; [done|by rewrite Hv; left|done|].
    intros v Hv'. rewrite Hv in Hv'. injection Hv' as <-.
    by rewrite sizeFromShape_singleton. }
  split; [by heap_simpl|]. repeat (split; [done|]).
  apply sizeFromShape_singleton.
Qed.

(** X19: [NDArray.make] with the empty shape over a record that holds a
    texture writes the layout [(1,1)] into the record, whatever layout it
    had and also when it had none, and then builds the scalar: a scalar
    over a texture is never refused for a missing layout. *)
Theorem make_scalar_fixes_layout h r d dt tex :
  datas h !! r = Some d -> texture d = Some tex ->
  (forall a, values d = Some a -> ta_length a = 1) ->
  exists t h' o,
    make [] r dt h = (Ret t, h') /\ arrays h' !! t = Some o /\
    cls o = C_Scalar /\ data o = r /\
    datas h' !! r = Some (mkData (values d) (Some tex) (Some (1, 1))).
Proof.
  intros Hd Htex Hlen. eexists _, _, _. split.
  { unfold make. cbn [length]. unfold Scalar_constructor.
    erewrite bind_Ret; [|by eapply the_data_Some].
    rewrite Htex, (bool_decide_true (Some tex <> None)) by done.
    erewrite bind_Ret; [|by eapply update_data_Some].
    eapply NDArray_constructor_ok;
      [by heap_simpl|right; simpl; by rewrite Htex|by right|done]. }
  split; [by heap_simpl|]. simpl. rewrite lookup_insert_eq.
  unfold set_textureShapeRC. by rewrite Htex.
Qed.

(** X20: [t.equals(NDArray.like(t))] is true exactly when the 32-bit float
    conversion leaves every element of [t] as it is: the copy is always a
    [Float32Array], whatever buffer [t] has. *)
Theorem equals_like h t o d a :
  live h t o d -> values d = Some a ->
  exists t' h',
    like fround t h = (Ret t', h') /\ t' <> t /\
    equals t t' h' =
      (Ret (bool_decide (ta_elems a = map fround (ta_elems a))), h').
Proof.
  intros [Ho Hd (s & Hs & Hsize) Hst Hrc Hlen] Hv.
  set (c := Float32Array (map fround (ta_elems a))).
  set (r := fresh (dom (datas h))).
  set (h1 := mkHeap (arrays h) (<[r := mkData (Some c) None None]> (datas h))
               (GPU h)).
  destruct (make_ok h1 s r (mkData (Some c) None None) (dtype o))
    as (o' & d' & Hmake & Hdata & Hdt & (s' & Hs' & _ & Hsame) & _ & _ & Hd').
  { subst h1. simpl. by rewrite lookup_insert_eq. }
  { by left. }
  { by left. }
  { intros v' [= <-]. subst c. unfold ta_length. simpl.
    rewrite length_map, <- Hsize. by apply Hlen. }
  specialize (Hd' eq_refl). subst d'.
  rewrite (Hsame ltac:(by right)) in Hs'. clear Hsame.
  pose proof (fresh_array_ne _ _ _ Ho) as Hfresh.
  assert (r <> data o) as Hr.
  { intros E. pose proof (fresh_data_None h) as Hnone.
    fold r in Hnone. rewrite E, Hd in Hnone. done. }
  eexists _, _. split.
  { unfold like.
    erewrite bind_Ret; [|by eapply getValues_host].
    erewrite bind_Ret; [|by eapply the_array_Some].
    erewrite bind_Ret; [|reflexivity].
    rewrite Hs. exact Hmake. }
  split; [done|].
  match goal with |- equals t _ ?x = _ => set (h' := x) end.
  assert (arrays h' !! t = Some o) as Ho1
    by (subst h' h1; simpl; by rewrite lookup_insert_ne).
  assert (arrays h' !! fresh (dom (arrays h1)) = Some o') as Ho2
    by (subst h'; simpl; by rewrite lookup_insert_eq).
  assert (datas h' !! data o = Some d) as Hd1
    by (subst h' h1; simpl; by rewrite !lookup_insert_ne).
  assert (datas h' !! data o' = Some (mkData (Some c) None None)) as Hd2
    by (subst h'; simpl; rewrite Hdata; by rewrite lookup_insert_eq).
  unfold equals.
  erewrite bind_Ret; [|by eapply the_array_Some].
  erewrite bind_Ret; [|by eapply the_array_Some].
  rewrite Hdt, bool_decide_true by done.
  erewrite bind_Ret; [|unfold lift; rewrite Hs, Hs'; reflexivity].
  rewrite bool_decide_true by done.
  erewrite bind_Ret; [|by eapply getValues_host].
  erewrite bind_Ret; [|by eapply getValues_host].
  done.
Qed.

(** X21: [reshape] builds the new tensor without an element-type tag, and
    the new tensor has another shape; so a tensor and its reshape never
    compare equal, in either direction, though they share every value. *)
Theorem reshape_never_equal h t o d newShape resolved :
  live h t o d ->
  inferFromImplicitShape newShape (size o) = Ret resolved ->
  shape o <> Some resolved ->
  sizeFromShape resolved = size o ->
  length resolved <> 1%nat \/ values d <> None ->
  exists r h' o',
    reshape t newShape h = (Ret r, h') /\
    arrays h' !! r = Some o' /\ dtype o' = None /\ data o' = data o /\
    equals t r h' = (Ret false, h') /\ equals r t h' = (Ret false, h').
Proof.
  intros Hlive Hinf Hne Hsz Hkeep.
  destruct (reshape_new _ _ _ _ _ _ Hlive Hinf Hne Hsz)
    as (o' & d' & Hrun & Hdata & Hdt & (s' & Hs' & _ & Hsame) & _).
  rewrite (Hsame Hkeep) in Hs'. clear Hsame.
  destruct Hlive as [Ho Hd (s & Hs & Hsize) _ _ _].
  pose proof (fresh_array_ne _ _ _ Ho) as Hfresh.
  eexists _, _, o'. split; [exact Hrun|].
  match goal with |- arrays ?x !! _ = _ /\ _ => set (h' := x) end.
  assert (arrays h' !! t = Some o) as Ho1
    by (subst h'; simpl; by rewrite lookup_insert_ne).
  assert (arrays h' !! fresh (dom (arrays h)) = Some o') as Ho2
    by (subst h'; simpl; by rewrite lookup_insert_eq).
  repeat (split; [done|]).
  split; unfold equals.
  - erewrite bind_Ret; [|by eapply the_array_Some].
    erewrite bind_Ret; [|by eapply the_array_Some].
    rewrite Hdt. case_bool_decide as Hd0; [|done].
    erewrite bind_Ret; [|unfold lift; rewrite Hs, Hs'; reflexivity].
    rewrite bool_decide_false; [done|]. congruence.
  - erewrite bind_Ret; [|by eapply the_array_Some].
    erewrite bind_Ret; [|by eapply the_array_Some].
    rewrite Hdt. case_bool_decide as Hd0; [|done].
    erewrite bind_Ret; [|unfold lift; rewrite Hs, Hs'; reflexivity].
    rewrite bool_decide_false; [done|]. congruence.
Qed.

(** X22: [as1D] never fails on a tensor in good standing whose shape has
    non-negative dimensions: it returns a tensor over the same storage
    record, the tensor itself when it already is that vector, and over host
    values the shape is the one dimension [size]. *)
Theorem as1D_succeeds h t o d s :
  live h t o d -> shape o = Some s -> valid_shape s ->
  exists r h' o',
    as1D t h = (Ret r, h') /\ arrays h' !! r = Some o' /\
    data o' = data o /\
    (s = [size o] -> r = t /\ h' = h) /\
    (values d <> None -> shape o' = Some [size o]).
Proof.
  intros Hlive Hs Hvalid.
  pose proof Hlive as [Ho Hd (s0 & Hs0 & Hsize) _ _ _].
  rewrite Hs in Hs0. injection Hs0 as <-.
  assert (inferFromImplicitShape [size o] (size o) = Ret [size o]) as Hinf.
  { apply inferFromImplicitShape_explicit. repeat constructor.
    rewrite Hsize. by apply sizeFromShape_nonneg. }
  unfold as1D.
  erewrite bind_Ret; [|by eapply the_array_Some].
  destruct (decide (s = [size o])) as [Heq|Hne].
  - exists t, h, o. split.
    { eapply reshape_same; [done| |done]. by rewrite Hs, Heq. }
    repeat (split; [done|]). intros _. by rewrite Hs, Heq.
  - destruct (reshape_new h t o d [size o] [size o] Hlive Hinf)
      as (o' & d' & Hrun & Hdata & _ & (s' & Hs' & _ & Hsame) & _).
    { rewrite Hs. congruence. }
    { apply sizeFromShape_singleton. }
    eexists _, _, o'. split; [exact Hrun|].
    split; [by heap_simpl|]. split; [done|]. split; [done|].
    intros Hv. rewrite Hs'. f_equal. apply Hsame. by right.
Qed.

(** X23: [asScalar] throws its own error, before anything else happens,
    unless the tensor has exactly one element; on a tensor in good standing
    with one element it returns a tensor of the empty shape over the same
    storage record. *)
Theorem asScalar_singleton h t o d :
  live h t o d ->
  (size o <> 1 -> asScalar t h = (Throw NotSingletonError, h)) /\
  (size o = 1 ->
   exists r h' o',
     asScalar t h = (Ret r, h') /\ arrays h' !! r = Some o' /\
     shape o' = Some [] /\ data o' = data o).
Proof.
  intros Hlive.
  pose proof Hlive as [Ho Hd (s & Hs & Hsize) _ _ _].
  split; intros H1; unfold asScalar.
  - erewrite bind_Ret; [|by eapply the_array_Some].
    erewrite bind_Throw; [done|].
    unfold assert, lift, assert_.
    by destruct (Z.eqb_spec (size o) 1).
  - erewrite bind_Ret; [|by eapply the_array_Some].
    erewrite bind_Ret; [|unfold assert, lift; by rewrite H1].
    destruct (decide (s = [])) as [->|Hne].
    + exists t, h, o. split; [|done].
      eapply reshape_same; [done|done|]. by rewrite H1.
    + destruct (reshape_new h t o d [] [] Hlive) as
        (o' & d' & Hrun & Hdata & _ & (s' & Hs' & _ & Hsame) & _).
      { by rewrite H1. }
      { rewrite Hs. congruence. }
      { by rewrite H1. }
      eexists _, _, o'. split; [exact Hrun|].
      split; [by heap_simpl|]. split; [|done].
      rewrite Hs'. f_equal. apply Hsame. by left.
Qed.

(** X24: every element of [zeros(shape)] reads [0]: for a shape of positive
    dimensions of any rank and any tag, [zeros] returns a tensor on which
    [get] at every location inside the shape returns [0]. *)
Theorem zeros_reads_zero h sh dt :
  Forall (fun n => 0 < n) sh ->
  exists t h',
    zeros sh dt h = (Ret t, h') /\
    forall locs, in_bounds sh locs -> get t locs h' = (Ret (Num 0), h').
Proof.
  intros Hpos.
  pose proof (sizeFromShape_positive sh Hpos) as Hn.
  set (a := Float32Array (replicate (Z.to_nat (sizeFromShape sh)) 0)).
  set (r := fresh (dom (datas h))).
  set (h1 := mkHeap (arrays h) (<[r := mkData (Some a) None None]> (datas h))
               (GPU h)).
  assert (ta_length a = sizeFromShape sh) as Hlen.
  { subst a. unfold ta_length. simpl. rewrite length_replicate. lia. }
  destruct (make_ok h1 sh r (mkData (Some a) None None) dt)
    as (o' & d' & Hmake & Hdata & _ & (s' & Hs' & Hsize & Hsame) & _ & _ & Hd').
  { subst h1. simpl. by rewrite lookup_insert_eq. }
  { by left. }
  { by left. }
  { by intros v [= <-]. }
  specialize (Hd' eq_refl). subst d'.
  rewrite (Hsame ltac:(by right)) in Hs', Hsize. clear Hsame.
  destruct (make_built _ _ _ _ _ _ Hmake) as (o'' & s'' & Ho'' & Hbuilt & _).
  simpl in Ho''. rewrite lookup_insert_eq in Ho''. injection Ho'' as <-.
  assert (s'' = sh) as ->.
  { destruct Hbuilt as (Hs'' & _). rewrite Hs' in Hs''. by injection Hs''. }
  eexists _, _. split.
  { unfold zeros.
    erewrite bind_Ret.
    2:{ unfold new_Float32Array.
        erewrite bind_Ret; [reflexivity|].
        unfold assert, lift.
        by destruct (Z.leb_spec 0 (sizeFromShape sh)); [|lia]. }
    erewrite bind_Ret; [|reflexivity].
    exact Hmake. }
  intros locs Hin.
  match goal with |- get _ _ ?x = _ => set (h' := x) end.
  destruct (get_rowMajor h' (fresh (dom (arrays h1))) o'
              (mkData (Some a) None None) a sh locs)
    as (x & _ & Hb & Hx & Hget); try done.
  - subst h'. simpl. by rewrite lookup_insert_eq.
  - subst h'. simpl. rewrite Hdata. by rewrite lookup_insert_eq.
  - by rewrite Hsize.
  - rewrite Hget. subst a. simpl in Hx.
    apply lookup_replicate in Hx as [-> _]. done.
Qed.

End Properties.

(** * The module on the mock backend *)

Lemma mock_lossless : lossless (B:=MockBackend).
Proof.
  intros g tex rows columns a g' Hup. simpl in *.
  unfold mock_upload in Hup. injection Hup as <-.
  unfold mock_download. simpl. by rewrite lookup_insert_eq.
Qed.

Lemma fround_int_exact (z : number) : Z.abs z <= 2 ^ 24 -> fround_int z = z.
Proof.
  intros Hz. unfold fround_int.
  destruct (Z.ltb_spec (Z.abs z) (2 ^ 24)) as [|Hge]; [done|].
  assert (z = 2 ^ 24 \/ z = - 2 ^ 24) as [-> | ->] by lia; reflexivity.
Qed.

(** A vector built by [Array1D.new] is in good standing. *)
Lemma mock_vector6_live :
  live (mock_vector [1; 2; 3; 4; 5; 6] (Some K_int32)) 1%positive
    (vector_object [1; 2; 3; 4; 5; 6] (Some K_int32))
    (vector_data [1; 2; 3; 4; 5; 6]).
Proof.
  constructor.
  - vm_compute. reflexivity.
  - vm_compute. reflexivity.
  - exists [6]. split; reflexivity.
  - left. discriminate.
  - left. reflexivity.
  - intros v [= <-]. reflexivity.
Qed.

(** §8's vector scenario: four zeros are uploaded into layout [(1,4)] and
    downloaded again, and the texture has been released exactly once. *)
Example vector_upload_download :
  let h := mock_vector [0; 0; 0; 0] None in
  let up := getTexture 1%positive None h in
  let down := getValues 1%positive (snd up) in
  fst up = Ret (Some 0%nat) /\
  datas (snd up) !! 1%positive = Some (mkData None (Some 0%nat) (Some (1, 4))) /\
  fst down = Ret (Some (Float32Array [0; 0; 0; 0])) /\
  mock_released <$> GPU (snd down) = Some [(0%nat, Some (1, 4))].
Proof. vm_compute. repeat split. Qed.

Lemma upload_download_roundtrip_witness :
  let h := mock_vector [0; 0; 0; 0] None in
  let h1 := snd (getTexture 1%positive None h) in
  exists h2,
    getValues 1%positive h1 = (Ret (Some (Float32Array [0; 0; 0; 0])), h2).
Proof.
  intros h h1.
  destruct (upload_download_roundtrip (B:=MockBackend) h 1%positive
              (vector_object [0; 0; 0; 0] None) (vector_data [0; 0; 0; 0])
              (Float32Array [0; 0; 0; 0]) None (Some 0%nat) h1 mock_lossless)
    as (h2 & d2 & Hrun & _);
    [vm_compute; reflexivity..|].
  by exists h2.
Defined.

(** C2 fails where a tensor is built over a record that holds both forms:
    the constructor accepts it, and both forms stay, also across a completed
    [getTexture] and a completed [getValues]. *)
Lemma both_forms_after_construction :
  let d := mkData (Some (Float32Array [7])) (Some 0%nat) (Some (1, 1)) in
  let g := mkMockGPU {[0%nat := Float32Array [7]]} 1%nat [] in
  let h := mkHeap (B:=MockBackend) ∅ {[1%positive := d]} (Some g) in
  let built := make [1] 1%positive None h in
  let up := getTexture 1%positive None (snd built) in
  let down := getValues 1%positive (snd up) in
  fst built = Ret 1%positive /\
  fst up = Ret (Some 0%nat) /\
  fst down = Ret (Some (Float32Array [7])) /\
  (arrays (snd down) !! 1%positive ≫= shape) = Some [1] /\
  datas (snd built) !! 1%positive = Some d /\
  datas (snd up) !! 1%positive = Some d /\
  datas (snd down) !! 1%positive = Some d /\
  values d <> None /\ texture d <> None.
Proof. vm_compute. repeat split; discriminate. Qed.

Lemma storage_forms_witness :
  let h0 := snd (new_data (mkData (Some (Float32Array [0; 0; 0; 0])) None None)
                   mock_heap0) in
  let h := mock_vector [0; 0; 0; 0] None in
  let h1 := snd (getTexture 1%positive None h) in
  let h2 := snd (getValues 1%positive h1) in
  (exists o d,
     arrays h !! 1%positive = Some o /\ datas h !! data o = Some d /\
     (values d <> None \/ texture d <> None)) /\
  (exists d1,
     datas h1 !! 1%positive = Some d1 /\
     texture d1 <> None /\ values d1 = None) /\
  (exists d2 g,
     datas h2 !! 1%positive = Some d2 /\
     values d2 <> None /\ texture d2 = None /\ textureShapeRC d2 = None /\
     GPU h1 = Some g /\
     GPU h2 = Some (releaseTexture g (Some 0%nat) (Some (1, 4)))).
Proof.
  intros h0 h h1 h2.
  destruct (storage_forms (B:=MockBackend)) as [Hnew Hmove].
  split; [|split].
  - apply (Hnew h0 C_Array1D [4] 1%positive None 1%positive h).
    vm_compute. reflexivity.
  - destruct (Hmove h 1%positive (vector_object [0; 0; 0; 0] None)
                (vector_data [0; 0; 0; 0])) as [Hup _];
      [vm_compute; reflexivity..|].
    destruct (Hup None (Some 0%nat) h1)
      as (d1 & _ & Hd1 & _ & Htex & Hv & _); [vm_compute; reflexivity|].
    exists d1. split; [exact Hd1|]. split; [exact Htex|].
    apply Hv. reflexivity.
  - destruct (Hmove h1 1%positive (vector_object [0; 0; 0; 0] None)
                (mkData None (Some 0%nat) (Some (1, 4)))) as [_ Hdown];
      [vm_compute; reflexivity..|].
    destruct (Hdown (Some (Float32Array [0; 0; 0; 0])) h2)
      as (d2 & _ & Hd2 & _ & Hv & Hrel & _); [vm_compute; reflexivity|].
    destruct Hrel as (Htex & Hrc & g & rc & v & Hg & _ & _ & _ & Hg2);
      [reflexivity|].
    exists d2, g. repeat (split; [assumption|]). exact Hg2.
Defined.

Lemma reshape_validity_witness :
  let h := mock_vector [1; 2; 3; 4; 5; 6] (Some K_int32) in
  (exists r h' o',
     reshape 1%positive [-1; 2] h = (Ret r, h') /\
     arrays h' !! r = Some o' /\ shape o' = Some [3; 2]) /\
  reshape 1%positive [4; 2] h = (Throw InvalidShapeError, h).
Proof.
  intros h.
  destruct (reshape_validity (B:=MockBackend) h 1%positive _ _ [-1; 2]
              mock_vector6_live)
    as (resolved & _ & _ & _ & Hscenario); [vm_compute; lia|].
  apply Hscenario. reflexivity.
Defined.

Lemma reshape_shares_storage_witness :
  let h := mock_vector [1; 2; 3; 4; 5; 6] (Some K_int32) in
  exists r h' h'' e,
    reshape 1%positive [-1; 2] h = (Ret r, h') /\ r <> 1%positive /\
    dispose 1%positive h' = (Ret tt, h'') /\
    datas h'' !! 1%positive = Some e /\ values e = None /\ texture e = None.
Proof.
  intros h.
  destruct (reshape_shares_storage (B:=MockBackend) h 1%positive _ _
              [-1; 2] [3; 2] mock_vector6_live)
    as (r & h' & o' & d' & Hrun & Hne & _ & _ & Hdata & _ & _ & _ & Hdisp);
    [reflexivity|discriminate|reflexivity|].
  destruct Hdisp as [(h'' & e & Hrun' & _ & He & Hv & Htex) _];
    [left; reflexivity|].
  rewrite Hdata in He.
  exists r, h', h'', e. repeat split; assumption.
Defined.

Lemma reshape_identity_witness :
  let h := mock_vector [1; 2; 3; 4; 5; 6] (Some K_int32) in
  reshape 1%positive [6] h = (Ret 1%positive, h).
Proof.
  intros h.
  apply (reshape_identity (B:=MockBackend) h 1%positive
           (vector_object [1; 2; 3; 4; 5; 6] (Some K_int32)) [6] [6]).
  - vm_compute. reflexivity.
  - reflexivity.
  - repeat constructor; lia.
  - reflexivity.
Defined.

(** C6 fails where a layout comes without its texture: such a record with
    valid host values is accepted, by the base constructor and through
    [NDArray.make]. *)
Lemma layout_without_texture_accepted :
  let d := mkData (Some (Float32Array [1; 2])) None (Some (1, 2)) in
  let h := mkHeap (B:=MockBackend) ∅ {[1%positive := d]} None in
  texture d = None /\ textureShapeRC d <> None /\
  fst (NDArray_constructor C_NDArray [2] 1%positive None h) = Ret 1%positive /\
  fst (make [1; 2] 1%positive None h) = Ret 1%positive.
Proof. vm_compute. repeat split; discriminate. Qed.

Lemma construction_checks_witness :
  let d := mkData None (Some 0%nat) None in
  let h := mkHeap (B:=MockBackend) ∅ {[1%positive := d]} None in
  NDArray_constructor C_NDArray [2] 1%positive None h =
    (Throw IncompleteStorageError, h).
Proof.
  intros d h.
  destruct (construction_checks (B:=MockBackend) h C_NDArray [2] 1%positive d
              None) as (Hincomplete & _); [vm_compute; reflexivity|].
  apply Hincomplete; [discriminate|reflexivity].
Defined.

(** C7 fails for [equals]: with two tensors whose element-type tags differ,
    the comparison stops at the tags and returns [false], disposed or not. *)
Lemma disposed_equals_returns :
  let h :=
    snd (Array1D_new fround_int (AD_Float32Array [1; 2]) None
           (mock_vector [1; 2] (Some K_float32))) in
  let disposed := dispose 1%positive h in
  fst disposed = Ret tt /\
  (arrays (snd disposed) !! 1%positive ≫= shape) = None /\
  fst (equals 1%positive 2%positive (snd disposed)) = Ret false /\
  fst (equals 2%positive 1%positive (snd disposed)) = Ret false.
Proof. vm_compute. repeat split. Qed.

Lemma disposed_reads_witness :
  let h := mock_vector [1; 2; 3; 4; 5; 6] (Some K_int32) in
  let d := mkData (Some (Float32Array [1; 2])) None (Some (1, 2)) in
  let k := snd (make [2] 1%positive None
                  (mkHeap (B:=MockBackend) ∅ {[1%positive := d]}
                     (Some mock_gpu0))) in
  (exists h',
     dispose 1%positive h = (Ret tt, h') /\
     getValues 1%positive h' = (Throw TypeError, h') /\
     get 1%positive [0] h' = (Throw TypeError, h')) /\
  (exists k' d',
     dispose 1%positive k = (Ret tt, k') /\
     datas k' !! 1%positive = Some d' /\
     values d' = None /\ texture d' = None /\
     textureShapeRC d' = Some (1, 2) /\
     getValues 1%positive k' = (Throw TypeError, k')).
Proof.
  intros h d k. split.
  - destruct (disposed_reads (B:=MockBackend) h 1%positive
                (vector_object [1; 2; 3; 4; 5; 6] (Some K_int32))
                (vector_data [1; 2; 3; 4; 5; 6]))
      as (h' & o' & d' & Hrun & _ & _ & _ & _ & _ & Hrc & _ & Hgpu & _ &
          Hread & _);
      [vm_compute; reflexivity|vm_compute; reflexivity|left; reflexivity|].
    exists h'. split; [exact Hrun|].
    specialize (Hread mock_gpu0). rewrite Hrc in Hread. simpl in Hread.
    destruct Hread as [Hgv Hget]; [by rewrite Hgpu|].
    split; [exact Hgv|apply Hget].
  - destruct (disposed_reads (B:=MockBackend) k 1%positive
                (mkNDArray C_Array1D (Some [2]) 2 [] 1%positive None None) d)
      as (k' & o' & d' & Hrun & _ & _ & Hd' & Hv & Htex & Hrc & _ & Hgpu & _ &
          Hread & _);
      [vm_compute; reflexivity|vm_compute; reflexivity|left; reflexivity|].
    exists k', d'. split; [exact Hrun|]. split; [exact Hd'|].
    split; [exact Hv|]. split; [exact Htex|]. split; [exact Hrc|].
    specialize (Hread mock_gpu0). rewrite Hrc in Hread. simpl in Hread.
    apply Hread. by rewrite Hgpu.
Defined.

Lemma strides_table_witness :
  exists t h' o,
    bind (new_data (mkData (Some (Float32Array (replicate 120 0))) None None))
      (fun r => NDArray_constructor C_NDArray [2; 3; 4; 5] r None) mock_heap0 =
      (Ret t, h') /\
    arrays h' !! t = Some o /\
    length (strides o) = 3%nat /\
    strides o !! 0%nat = Some (sizeFromShape [3; 4; 5]) /\
    strides o !! 2%nat = Some 5.
Proof.
  set (h := snd (new_data (mkData (Some (Float32Array (replicate 120 0))) None None)
                   mock_heap0)).
  destruct (strides_table (B:=MockBackend) h C_NDArray [2; 3; 4; 5] 1%positive None)
    as [Hruns Htable].
  destruct (Hruns (mkData (Some (Float32Array (replicate 120 0))) None None))
    as (t & h' & Hrun);
    [vm_compute; reflexivity|left; discriminate|left; reflexivity
    |intros v [= <-]; vm_compute; reflexivity|].
  destruct (Htable t h' Hrun) as (o & Ho & _ & _ & Hrank).
  destruct Hrank as (Hlen & Hlast & _ & Hprod); [simpl; lia|].
  exists t, h', o. split; [exact Hrun|]. split; [exact Ho|].
  split; [exact Hlen|]. split; [apply (Hprod 0%nat); simpl; lia|exact Hlast].
Defined.

Lemma matrix_scenario_witness :
  exists m h1 h2,
    Array2D_new fround_int [2; 3] (AD_flat [1; 2; 3; 4; 5; 6]) None mock_heap0 =
      (Ret m, h1) /\
    get m [1; 2] h1 = (Ret (Num 6), h1) /\
    set fround_int m 9 [0; 0] h1 = (Ret tt, h2) /\
    get m [0; 0] h2 = (Ret (Num 9), h2).
Proof.
  destruct (matrix_scenario (B:=MockBackend) fround_int mock_heap0 None
              (AD_flat [1; 2; 3; 4; 5; 6]) fround_int_exact)
    as (m & h1 & o & Hnew & _ & _ & _ & Hget & h2 & Hset & Hget');
    [left; reflexivity|].
  exists m, h1, h2. repeat split; assumption.
Defined.

Lemma factories_allocate_float32_witness :
  exists t h' o d a,
    zeros [2; 3] (Some K_bool) mock_heap0 = (Ret t, h') /\
    arrays h' !! t = Some o /\ dtype o = Some K_bool /\
    datas h' !! data o = Some d /\ values d = Some a /\
    is_Float32Array a = true /\
    is_Float32Array (DataType K_bool (ta_elems a)) = false.
Proof.
  destruct (factories_allocate_float32 (B:=MockBackend) fround_int)
    as (Hzeros & _ & _ & Hdiverge).
  destruct (Hzeros mock_heap0 [2; 3] (Some K_bool))
    as (t & h' & o & d & a & Hrun & Ho & Hdt & Hd & Hv & Hf & _);
    [repeat constructor; lia|].
  exists t, h', o, d, a. repeat (split; [assumption|]).
  apply Hdiverge. discriminate.
Defined.

(** * The further properties on the mock backends *)

Ltac run := vm_compute; reflexivity.

Lemma cube_built : built_for cube_object [2; 2; 2].
Proof. repeat split. simpl. lia. Qed.

Lemma matrix_built : built_for matrix_object [2; 3].
Proof. repeat split. Qed.

Lemma vector6_built :
  built_for (vector_object [1; 2; 3; 4; 5; 6] (Some K_int32)) [6].
Proof. repeat split. Qed.

Lemma mock_matrix_live :
  live (mock_tensor [2; 3] [1; 2; 3; 4; 5; 6]) 1%positive matrix_object
    (vector_data [1; 2; 3; 4; 5; 6]).
Proof.
  constructor.
  - run.
  - run.
  - exists [2; 3]. split; reflexivity.
  - left. discriminate.
  - left. reflexivity.
  - intros v [= <-]. reflexivity.
Qed.

Lemma get_in_bounds_witness :
  let h := mock_tensor [2; 2; 2] cube_values in
  get 1%positive [1; 0; 1] h = (Ret (Num 15), h).
Proof.
  intros h.
  destruct (get_in_bounds (B:=MockBackend) h 1%positive cube_object
              (vector_data cube_values) (Float32Array cube_values)
              [2; 2; 2] [1; 0; 1])
    as (x & _ & _ & Hx & Hget);
    [run|run|reflexivity|reflexivity|exact cube_built
    |repeat constructor; lia|].
  vm_compute in Hx. injection Hx as <-. exact Hget.
Defined.

Lemma indexToLoc_locToIndex_witness :
  let h := mock_tensor [2; 2; 2] cube_values in
  locToIndex 1%positive [1; 0; 1] h = (Ret (Num 5), h) /\
  indexToLoc 1%positive 5 h = (Ret [Some 1; Some 0; Some 1], h).
Proof.
  intros h.
  apply (indexToLoc_locToIndex (B:=MockBackend) h 1%positive cube_object
           [2; 2; 2] [1; 0; 1]);
    [run|exact cube_built|discriminate|repeat constructor; lia].
Defined.

Lemma locToIndex_indexToLoc_witness :
  let h := mock_tensor [2; 2; 2] cube_values in
  exists locs,
    indexToLoc 1%positive (-3) h = (Ret (Some <$> locs), h) /\
    locToIndex 1%positive locs h = (Ret (Num (-3)), h).
Proof.
  intros h.
  apply (locToIndex_indexToLoc (B:=MockBackend) h 1%positive cube_object
           [2; 2; 2] (-3));
    [run|exact cube_built|discriminate|repeat constructor; lia|discriminate].
Defined.

Lemma Array2D_indexToLoc_negative_witness :
  let h := mock_tensor [2; 3] [1; 2; 3; 4; 5; 6] in
  indexToLoc 1%positive (-1) h = (Ret [Some (-1); Some (-1)], h) /\
  locToIndex 1%positive [-1; -1] h = (Ret (Num (-4)), h).
Proof.
  intros h.
  apply (Array2D_indexToLoc_negative (B:=MockBackend) h 1%positive
           matrix_object 2 3 (-1));
    [run|exact matrix_built|reflexivity|lia|lia|vm_compute; discriminate].
Defined.

Lemma get_indexToLoc_witness :
  let h := mock_tensor [2; 2; 2] cube_values in
  exists locs,
    indexToLoc 1%positive 5 h = (Ret (Some <$> locs), h) /\
    get 1%positive locs h = (Ret (Num 15), h).
Proof.
  intros h.
  destruct (get_indexToLoc (B:=MockBackend) h 1%positive cube_object
              (vector_data cube_values) (Float32Array cube_values)
              [2; 2; 2] 5)
    as (locs & x & Hloc & _ & Hget & Hx);
    [run|run|reflexivity|reflexivity|exact cube_built|discriminate
    |repeat constructor; lia|vm_compute; split; [discriminate|reflexivity]|].
  vm_compute in Hx. injection Hx as <-. by exists locs.
Defined.

Lemma get_after_set_witness :
  let h := mock_tensor [2; 2; 2] cube_values in
  exists h2,
    set fround_int 1%positive 99 [1; 0; 1] h = (Ret tt, h2) /\
    get 1%positive [1; 0; 1] h2 = (Ret (Num 99), h2) /\
    get 1%positive [0; 0; 1] h2 = (Ret (Num 11), h2).
Proof.
  intros h.
  destruct (get_after_set (B:=MockBackend) fround_int h 1%positive cube_object
              (vector_data cube_values) (Float32Array cube_values) h 99
              [1; 0; 1] 5)
    as (h2 & a' & Hset & _ & _ & Hget & Hframe);
    [run|run|run|reflexivity|vm_compute; split; [discriminate|reflexivity]|].
  exists h2. split; [exact Hset|]. split; [exact Hget|].
  apply (Hframe [0; 0; 1]). discriminate.
Defined.

Lemma set_seen_through_alias_witness :
  let h := snd (reshape 1%positive [-1; 2]
                  (mock_vector [1; 2; 3; 4; 5; 6] (Some K_int32))) in
  exists h2,
    set fround_int 1%positive 99 [4] h = (Ret tt, h2) /\
    get 2%positive [2; 0] h2 = (Ret (Num 99), h2).
Proof.
  intros h.
  destruct (set_seen_through_alias (B:=MockBackend) fround_int h 1%positive
              2%positive (vector_object [1; 2; 3; 4; 5; 6] (Some K_int32))
              (mkNDArray C_Array2D (Some [3; 2]) 6 [2] 1%positive None (Some 2))
              (vector_data [1; 2; 3; 4; 5; 6])
              (Float32Array [1; 2; 3; 4; 5; 6]) 99 [4] 4)
    as (h2 & Hset & Hget);
    [run|run|reflexivity|run|reflexivity|reflexivity
    |vm_compute; split; [discriminate|reflexivity]|].
  exists h2. split; [exact Hset|]. apply (Hget [2; 0]). reflexivity.
Defined.

Lemma access_outside_buffer_witness :
  let h := mock_vector [1; 2; 3; 4; 5; 6] (Some K_int32) in
  (get 1%positive [7] h = (Ret Undefined, h) /\
   set fround_int 1%positive 99 [-1] h = (Ret tt, h)) /\
  get 1%positive [] h = (Ret Undefined, h) /\
  exists h2,
    set fround_int 1%positive 99 [] h = (Ret tt, h2) /\
    get 1%positive [] h2 = (Ret (Num 99), h2) /\
    get 1%positive [0] h2 = (Ret (Num 1), h2).
Proof.
  intros h.
  pose proof (fun locs =>
    access_outside_buffer (B:=MockBackend) fround_int h 1%positive
      (vector_object [1; 2; 3; 4; 5; 6] (Some K_int32))
      (vector_data [1; 2; 3; 4; 5; 6])
      (Float32Array [1; 2; 3; 4; 5; 6]) h 99 locs
      ltac:(run) ltac:(run) ltac:(run)) as Hx.
  split; [split|].
  - destruct (Hx [7]) as (Hout & _). apply Hout.
    right. vm_compute. discriminate.
  - destruct (Hx [-1]) as (Hout & _). apply Hout. left. reflexivity.
  - destruct (Hx []) as (_ & _ & Hown).
    destruct Hown as (Hget & h2 & Hset & _ & Hget2 & Hframe); [reflexivity|].
    split; [exact Hget|].
    exists h2. split; [exact Hset|]. split; [exact Hget2|].
    apply (Hframe [0]). discriminate.
Defined.

Lemma fill_overwrites_witness :
  let h := mock_tensor [2; 2; 2] cube_values in
  exists h2,
    fill fround_int 1%positive 3 h = (Ret tt, h2) /\
    get 1%positive [1; 1; 1] h2 = (Ret (Num 3), h2).
Proof.
  intros h.
  destruct (fill_overwrites (B:=MockBackend) fround_int h 1%positive
              cube_object (vector_data cube_values)
              (Float32Array cube_values) h 3)
    as (h2 & Hfill & _ & _ & Hget); [run|run|run|].
  exists h2. split; [exact Hfill|].
  apply (Hget [1; 1; 1] 7); [reflexivity|vm_compute; split; [discriminate|reflexivity]].
Defined.


Lemma add_outside_buffer_witness :
  let h := mock_tensor [2; 2; 2] cube_values in
  add fround_int 1%positive 5 [2; 0; 0] h = (Ret tt, h) /\
  exists h2,
    add fround_int 1%positive 5 [] h = (Ret tt, h2) /\
    get 1%positive [] h2 = (Ret NaN, h2) /\
    get 1%positive [1; 0; 1] h2 = (Ret (Num 15), h2).
Proof.
  intros h.
  pose proof (fun locs =>
    add_outside_buffer (B:=MockBackend) fround_int h 1%positive
      cube_object (vector_data cube_values) (Float32Array cube_values) h 5 locs
      ltac:(run) ltac:(run) ltac:(run)) as Hx.
  split.
  - destruct (Hx [2; 0; 0]) as (Hout & _). apply Hout.
    right. vm_compute. discriminate.
  - destruct (Hx []) as (_ & Hown).
    destruct Hown as (h2 & Hadd & _ & Hget & Hframe); [reflexivity|].
    exists h2. split; [exact Hadd|]. split; [exact Hget|].
    apply (Hframe [1; 0; 1]). discriminate.
Defined.

Lemma migration_idempotent_witness :
  let h := mock_vector [0; 0; 0; 0] None in
  let h1 := snd (getTexture 1%positive None h) in
  getTexture 1%positive (Some (2, 2)) h1 = (Ret (Some 0%nat), h1) /\
  inGPU 1%positive h1 = (Ret true, h1).
Proof.
  intros h h1.
  destruct (migration_idempotent (B:=MockBackend) h 1%positive
              (vector_object [0; 0; 0; 0] None) (vector_data [0; 0; 0; 0]))
    as (Hup & _); [run|run|].
  destruct (Hup None (Some 0%nat) h1) with (preferred' := Some (2, 2))
    as (Hagain & Hin & _); [left; reflexivity|run|].
  split; [exact Hagain|exact Hin].
Defined.

Lemma dispose_twice_witness :
  let h := mock_vector [1; 2; 3; 4; 5; 6] (Some K_int32) in
  exists h1,
    dispose 1%positive h = (Ret tt, h1) /\ dispose 1%positive h1 = (Ret tt, h1).
Proof.
  intros h.
  apply (dispose_twice (B:=MockBackend) h 1%positive
           (vector_object [1; 2; 3; 4; 5; 6] (Some K_int32))
           (vector_data [1; 2; 3; 4; 5; 6]));
    [run|run|left; reflexivity].
Defined.

Lemma dispose_without_backend_witness :
  let o := vector_object [0; 0; 0; 0] None in
  let d := mkData None (Some 0%nat) (Some (1, 4)) in
  let h := mkHeap (B:=MockBackend) {[1%positive := o]} {[1%positive := d]} None in
  fst (dispose 1%positive h) = Throw UninitializedBackendError /\
  arrays (snd (dispose 1%positive h)) !! 1%positive = Some (set_shape None o) /\
  datas (snd (dispose 1%positive h)) !! 1%positive = Some d.
Proof.
  intros o d h.
  rewrite (dispose_without_backend (B:=MockBackend) h 1%positive o d 0%nat);
    [|run|run|reflexivity|reflexivity].
  repeat split; run.
Defined.

Lemma migration_without_backend_witness :
  let h := offline_vector [0; 0; 0; 0] in
  getTexture 1%positive None h = (Throw UninitializedBackendError, h).
Proof.
  intros h.
  destruct (migration_without_backend (B:=MockBackend) fround_int h 1%positive
              (vector_object [0; 0; 0; 0] None) (vector_data [0; 0; 0; 0]))
    as (Hup & _); [run|run|reflexivity|].
  apply Hup. reflexivity.
Defined.

Lemma getTexture_acquire_fails_witness :
  let h := faulty_vector false [0; 0; 0; 0] in
  exists h1,
    getTexture 1%positive None h = (Throw PoolExhaustedError, h1) /\
    getValues 1%positive h1 = (Ret (Some (Float32Array [0; 0; 0; 0])), h1).
Proof.
  intros h.
  destruct (getTexture_acquire_fails (B:=FaultyBackend false) h 1%positive
              (vector_object [0; 0; 0; 0] None) (vector_data [0; 0; 0; 0])
              (Float32Array [0; 0; 0; 0]) None mock_gpu0 (1, 4)
              PoolExhaustedError)
    as (h1 & Hup & Hdown & _);
    [run|run|reflexivity|reflexivity|reflexivity|reflexivity|reflexivity|].
  exists h1. split; [exact Hup|exact Hdown].
Defined.

Lemma getTexture_upload_fails_witness :
  let h := faulty_vector true [0; 0; 0; 0] in
  exists h1,
    getTexture 1%positive None h = (Throw RangeError, h1) /\
    getTexture 1%positive None h1 = (Ret (Some 0%nat), h1).
Proof.
  intros h.
  destruct (getTexture_upload_fails (B:=FaultyBackend true) h 1%positive
              (vector_object [0; 0; 0; 0] None) (vector_data [0; 0; 0; 0])
              (Float32Array [0; 0; 0; 0]) None mock_gpu0 (1, 4) 0%nat
              (mkMockGPU ∅ 1%nat []) RangeError)
    as (h1 & Hup & _ & _ & Hagain);
    [run|run|reflexivity|reflexivity|reflexivity|reflexivity|reflexivity
    |reflexivity|].
  exists h1. split; [exact Hup|apply Hagain].
Defined.

Lemma make_vector_shape_witness :
  let d := vector_data [7; 8; 9] in
  let h := mkHeap (B:=MockBackend) ∅ {[1%positive := d]} None in
  exists t h' o,
    make [5] 1%positive None h = (Ret t, h') /\
    arrays h' !! t = Some o /\ shape o = Some [3].
Proof.
  intros d h.
  destruct (make_vector_shape (B:=MockBackend) h 5 1%positive d
              (Float32Array [7; 8; 9]) None)
    as (t & h' & o & Hrun & Ho & _ & Hshape & _);
    [run|reflexivity|left; reflexivity|].
  exists t, h', o. split; [exact Hrun|]. split; [exact Ho|exact Hshape].
Defined.

Lemma make_scalar_fixes_layout_witness :
  let d := mkData None (Some 0%nat) None in
  let h := mkHeap (B:=MockBackend) ∅ {[1%positive := d]} None in
  exists t h',
    make [] 1%positive None h = (Ret t, h') /\
    datas h' !! 1%positive = Some (mkData None (Some 0%nat) (Some (1, 1))).
Proof.
  intros d h.
  destruct (make_scalar_fixes_layout (B:=MockBackend) h 1%positive d None
              0%nat)
    as (t & h' & o & Hrun & _ & _ & _ & Hd);
    [run|reflexivity|discriminate|].
  exists t, h'. split; [exact Hrun|exact Hd].
Defined.

Lemma equals_like_witness :
  let h := mock_vector [1; 2; 3; 4; 5; 6] (Some K_int32) in
  exists t' h',
    like fround_int 1%positive h = (Ret t', h') /\
    equals 1%positive t' h' = (Ret true, h').
Proof.
  intros h.
  destruct (equals_like (B:=MockBackend) fround_int h 1%positive _ _
              (Float32Array [1; 2; 3; 4; 5; 6]) mock_vector6_live)
    as (t' & h' & Hlike & _ & Heq); [reflexivity|].
  exists t', h'. split; [exact Hlike|exact Heq].
Defined.

Lemma reshape_never_equal_witness :
  let h := mock_vector [1; 2; 3; 4; 5; 6] (Some K_int32) in
  exists r h',
    reshape 1%positive [-1; 2] h = (Ret r, h') /\
    equals 1%positive r h' = (Ret false, h').
Proof.
  intros h.
  destruct (reshape_never_equal (B:=MockBackend) h 1%positive _ _
              [-1; 2] [3; 2] mock_vector6_live)
    as (r & h' & o' & Hrun & _ & _ & _ & Heq & _);
    [reflexivity|discriminate|reflexivity|left; discriminate|].
  exists r, h'. split; [exact Hrun|exact Heq].
Defined.

Lemma as1D_succeeds_witness :
  let h := mock_tensor [2; 3] [1; 2; 3; 4; 5; 6] in
  exists r h' o',
    as1D 1%positive h = (Ret r, h') /\ arrays h' !! r = Some o' /\
    shape o' = Some [6].
Proof.
  intros h.
  destruct (as1D_succeeds (B:=MockBackend) h 1%positive _ _ [2; 3]
              mock_matrix_live)
    as (r & h' & o' & Hrun & Ho' & _ & _ & Hshape);
    [reflexivity|repeat constructor; lia|].
  exists r, h', o'. split; [exact Hrun|]. split; [exact Ho'|].
  apply Hshape. discriminate.
Defined.

Lemma asScalar_singleton_witness :
  let h := mock_vector [1; 2; 3; 4; 5; 6] (Some K_int32) in
  asScalar 1%positive h = (Throw NotSingletonError, h).
Proof.
  intros h.
  destruct (asScalar_singleton (B:=MockBackend) h 1%positive _ _
              mock_vector6_live) as (Hthrow & _).
  apply Hthrow. discriminate.
Defined.

Lemma zeros_reads_zero_witness :
  exists t h',
    zeros [2; 3] (Some K_int32) mock_heap0 = (Ret t, h') /\
    get t [1; 2] h' = (Ret (Num 0), h').
Proof.
  destruct (zeros_reads_zero (B:=MockBackend) mock_heap0 [2; 3] (Some K_int32))
    as (t & h' & Hrun & Hget); [repeat constructor; lia|].
  exists t, h'. split; [exact Hrun|].
  apply Hget. repeat constructor; lia.
Defined.
